(** * Bleemeo connector: identity cache, metric queue and transport

    A shallow embedding of [bleemeo_agent/bleemeo.py] (class
    [BleemeoConnector]) and the properties of its synchronisation engine.

    Conventions of the embedding.
    - The connector object, together with the parts of [core] it reads and
      writes, is one record [Connector]; a method is a function on it.
    - A Python [dict] that the code iterates over is an insertion-ordered
      association list ([dict]); a dict that is only looked up, inserted
      into and deleted from is a [gmap].
    - A method that can only raise before it has changed anything returns
      a [result]; a method that loops over entities returns the state it
      reached together with a [flow]: [Next] when it ran to its end,
      [Return] for an explicit [return], [Raised] for an exception.
    - The registry (HTTP API) is an arbitrary state transformer [http] over
      an abstract [World]; every request issued is appended to [calls].
      Its answers are well-formed: a body has the fields the code reads.
    - The MQTT client is the list [mqtt_sent] of messages handed to it.
    - [metrics_lock] is not modelled: methods run atomically, one at a
      time. *)

From Stdlib Require Import ZArith Lia Ascii.
From stdpp Require Import base option list strings gmap.

Local Open Scope Z_scope.

(** ** Exceptions *)

Inductive exn := KeyError | TypeError.

Inductive result (A : Type) :=
  | Ok (a : A)
  | Raise (e : exn).
Arguments Ok {A} a.
Arguments Raise {A} e.

Definition result_bind {A B} (f : A → result B) (r : result A) : result B :=
  match r with
  | Ok a => f a
  | Raise e => Raise e
  end.

#[export] Instance result_mbind : MBind result := @result_bind.
#[export] Instance result_mret : MRet result := @Ok.

(** ** Insertion-ordered dictionaries *)

Abbreviation dict K V := (list (K * V)).

Section dict.
Context {K V : Type} `{EqDecision K}.

(** [d.get(k)] *)
Fixpoint dict_get (k : K) (d : dict K V) : option V :=
  match d with
  | [] => None
  | (k', v) :: d' => if decide (k = k') then Some v else dict_get k d'
  end.

(** [k in d] *)
Definition dict_mem (k : K) (d : dict K V) : bool :=
  match dict_get k d with Some _ => true | None => false end.

(** [d[k] = v]: an existing key keeps its place, a new one goes last *)
Fixpoint dict_set (k : K) (v : V) (d : dict K V) : dict K V :=
  match d with
  | [] => [(k, v)]
  | (k', v') :: d' =>
      if decide (k = k') then (k', v) :: d' else (k', v') :: dict_set k v d'
  end.

(** [del d[k]], used by the code only on keys that are present *)
Fixpoint dict_del (k : K) (d : dict K V) : dict K V :=
  match d with
  | [] => []
  | (k', v') :: d' =>
      if decide (k = k') then dict_del k d' else (k', v') :: dict_del k d'
  end.

(** [d.setdefault(k, v)] *)
Definition dict_setdefault (k : K) (v : V) (d : dict K V) : dict K V :=
  if dict_mem k d then d else d ++ [(k, v)].

(** [list(d.keys())] *)
Definition dict_keys (d : dict K V) : list K := d.*1.
End dict.

(** ** Data model *)

(** Key of [metrics_uuid] and [metrics_info]:
    [(measurement, service, item)]. *)
Abbreviation MetricKey := (string * option string * option string)%type.

(** A metric point, the dict given to [emit_metric].  [addr] is the
    identity of the Python object (what [is] compares); [fields] stands
    for the entries the connector never inspects (value, time, tag). *)
Record Metric := {
  addr : nat;
  measurement : string;
  service : option string;
  item : option string;
  status : option string;
  status_of : option string;
  instance : option string;
  container : option string;
  fields : list (string * string);
}.

Definition key_of (metric : Metric) : MetricKey :=
  (measurement metric, service metric, item metric).

(** [bleemeo_metric = metric.copy(); bleemeo_metric['uuid'] = metric_uuid] *)
Record BleemeoMetric := {
  point : Metric;
  uuid : string;
}.

(** Value of [metrics_info].  The empty dict that [__init__] records for
    [agent_status] is the record of three [None]: the code reads it with
    [get] only, the metric having no service. *)
Record MetricInfo := {
  info_status_of : option string;
  info_instance : option string;
  info_container : option string;
}.

(** The four bounds of a threshold; numbers are kept as integers. *)
Record Threshold := {
  low_warning : option Z;
  low_critical : option Z;
  high_warning : option Z;
  high_critical : option Z;
}.

(** Value of [services_uuid]. *)
Record ServiceEntry := {
  listen_addresses : string;
  label : string;
  exe_path : string;
  entry_instance : option string;
  entry_uuid : string;
}.

(** What [_register_containers] reads of a container's inspect data. *)
Record Inspect := {
  inspect_json : string;          (* json.dumps(inspect) *)
  inspect_sorted_json : string;   (* json.dumps(inspect, sort_keys=True) *)
  Config_Cmd : option (list string);
  Config_Image : string;
  State_Status : string;
  State_StartedAt : option string;
  State_FinishedAt : option string;
  Created : option string;
  Id : string;
  Image : string;
}.

(** Messages handed to the MQTT client. *)
Inductive Payload :=
  | ConnectMsg (public_ip : option string)
  | DisconnectMsg (cause : string)
  | DataMsg (metrics : list BleemeoMetric)
  | TopInfoMsg (top_info : string).

Record Connector := {
  (* BleemeoConnector *)
  _metric_queue : list Metric;
  connected : bool;
  _mqtt_queue_size : Z;
  last_containers_removed : Z;
  metrics_uuid : dict MetricKey (option string);
  services_uuid : gmap (string * option string) ServiceEntry;
  metrics_info : gmap MetricKey MetricInfo;
  mqtt_sent : list (string * Payload);
  mqtt_subscribed : list string;
  (* core *)
  agent_uuid : string;
  is_terminating : bool;
  upgrade_in_progress : bool;
  public_ip : option string;
  docker_api_version : string;
  alerting_mode : bool;
  alerting_metric : option (list string);
  docker_containers : dict string Inspect;
  docker_container_uuid : dict string (option string * option string);
  thresholds : gmap (string * option string) Threshold;
  purged_metrics : list (string * option string);
}.

Definition set_metric_queue (q : list Metric) (c : Connector) : Connector :=
  {| _metric_queue := q; connected := connected c;
     _mqtt_queue_size := _mqtt_queue_size c;
     last_containers_removed := last_containers_removed c;
     metrics_uuid := metrics_uuid c; services_uuid := services_uuid c;
     metrics_info := metrics_info c; mqtt_sent := mqtt_sent c;
     mqtt_subscribed := mqtt_subscribed c; agent_uuid := agent_uuid c;
     is_terminating := is_terminating c;
     upgrade_in_progress := upgrade_in_progress c; public_ip := public_ip c;
     docker_api_version := docker_api_version c;
     alerting_mode := alerting_mode c; alerting_metric := alerting_metric c;
     docker_containers := docker_containers c;
     docker_container_uuid := docker_container_uuid c;
     thresholds := thresholds c; purged_metrics := purged_metrics c |}.

Definition set_connected (b : bool) (c : Connector) : Connector :=
  {| _metric_queue := _metric_queue c; connected := b;
     _mqtt_queue_size := _mqtt_queue_size c;
     last_containers_removed := last_containers_removed c;
     metrics_uuid := metrics_uuid c; services_uuid := services_uuid c;
     metrics_info := metrics_info c; mqtt_sent := mqtt_sent c;
     mqtt_subscribed := mqtt_subscribed c; agent_uuid := agent_uuid c;
     is_terminating := is_terminating c;
     upgrade_in_progress := upgrade_in_progress c; public_ip := public_ip c;
     docker_api_version := docker_api_version c;
     alerting_mode := alerting_mode c; alerting_metric := alerting_metric c;
     docker_containers := docker_containers c;
     docker_container_uuid := docker_container_uuid c;
     thresholds := thresholds c; purged_metrics := purged_metrics c |}.

(** [_mqtt_queue_size += 1; mqtt_client.publish(topic, message, 1)] *)
Definition mqtt_publish (topic : string) (message : Payload) (c : Connector)
  : Connector :=
  {| _metric_queue := _metric_queue c; connected := connected c;
     _mqtt_queue_size := _mqtt_queue_size c + 1;
     last_containers_removed := last_containers_removed c;
     metrics_uuid := metrics_uuid c; services_uuid := services_uuid c;
     metrics_info := metrics_info c;
     mqtt_sent := mqtt_sent c ++ [(topic, message)];
     mqtt_subscribed := mqtt_subscribed c; agent_uuid := agent_uuid c;
     is_terminating := is_terminating c;
     upgrade_in_progress := upgrade_in_progress c; public_ip := public_ip c;
     docker_api_version := docker_api_version c;
     alerting_mode := alerting_mode c; alerting_metric := alerting_metric c;
     docker_containers := docker_containers c;
     docker_container_uuid := docker_container_uuid c;
     thresholds := thresholds c; purged_metrics := purged_metrics c |}.

(** [mqtt_client.subscribe(topic)] *)
Definition mqtt_subscribe (topic : string) (c : Connector) : Connector :=
  {| _metric_queue := _metric_queue c; connected := connected c;
     _mqtt_queue_size := _mqtt_queue_size c;
     last_containers_removed := last_containers_removed c;
     metrics_uuid := metrics_uuid c; services_uuid := services_uuid c;
     metrics_info := metrics_info c; mqtt_sent := mqtt_sent c;
     mqtt_subscribed := mqtt_subscribed c ++ [topic];
     agent_uuid := agent_uuid c; is_terminating := is_terminating c;
     upgrade_in_progress := upgrade_in_progress c; public_ip := public_ip c;
     docker_api_version := docker_api_version c;
     alerting_mode := alerting_mode c; alerting_metric := alerting_metric c;
     docker_containers := docker_containers c;
     docker_container_uuid := docker_container_uuid c;
     thresholds := thresholds c; purged_metrics := purged_metrics c |}.

Definition set_metrics_uuid (d : dict MetricKey (option string))
  (c : Connector) : Connector :=
  {| _metric_queue := _metric_queue c; connected := connected c;
     _mqtt_queue_size := _mqtt_queue_size c;
     last_containers_removed := last_containers_removed c;
     metrics_uuid := d; services_uuid := services_uuid c;
     metrics_info := metrics_info c; mqtt_sent := mqtt_sent c;
     mqtt_subscribed := mqtt_subscribed c; agent_uuid := agent_uuid c;
     is_terminating := is_terminating c;
     upgrade_in_progress := upgrade_in_progress c; public_ip := public_ip c;
     docker_api_version := docker_api_version c;
     alerting_mode := alerting_mode c; alerting_metric := alerting_metric c;
     docker_containers := docker_containers c;
     docker_container_uuid := docker_container_uuid c;
     thresholds := thresholds c; purged_metrics := purged_metrics c |}.

Definition set_metrics_info (i : gmap MetricKey MetricInfo) (c : Connector)
  : Connector :=
  {| _metric_queue := _metric_queue c; connected := connected c;
     _mqtt_queue_size := _mqtt_queue_size c;
     last_containers_removed := last_containers_removed c;
     metrics_uuid := metrics_uuid c; services_uuid := services_uuid c;
     metrics_info := i; mqtt_sent := mqtt_sent c;
     mqtt_subscribed := mqtt_subscribed c; agent_uuid := agent_uuid c;
     is_terminating := is_terminating c;
     upgrade_in_progress := upgrade_in_progress c; public_ip := public_ip c;
     docker_api_version := docker_api_version c;
     alerting_mode := alerting_mode c; alerting_metric := alerting_metric c;
     docker_containers := docker_containers c;
     docker_container_uuid := docker_container_uuid c;
     thresholds := thresholds c; purged_metrics := purged_metrics c |}.

Definition set_thresholds (t : gmap (string * option string) Threshold)
  (c : Connector) : Connector :=
  {| _metric_queue := _metric_queue c; connected := connected c;
     _mqtt_queue_size := _mqtt_queue_size c;
     last_containers_removed := last_containers_removed c;
     metrics_uuid := metrics_uuid c; services_uuid := services_uuid c;
     metrics_info := metrics_info c; mqtt_sent := mqtt_sent c;
     mqtt_subscribed := mqtt_subscribed c; agent_uuid := agent_uuid c;
     is_terminating := is_terminating c;
     upgrade_in_progress := upgrade_in_progress c; public_ip := public_ip c;
     docker_api_version := docker_api_version c;
     alerting_mode := alerting_mode c; alerting_metric := alerting_metric c;
     docker_containers := docker_containers c;
     docker_container_uuid := docker_container_uuid c;
     thresholds := t; purged_metrics := purged_metrics c |}.

Definition set_purged_metrics (l : list (string * option string))
  (c : Connector) : Connector :=
  {| _metric_queue := _metric_queue c; connected := connected c;
     _mqtt_queue_size := _mqtt_queue_size c;
     last_containers_removed := last_containers_removed c;
     metrics_uuid := metrics_uuid c; services_uuid := services_uuid c;
     metrics_info := metrics_info c; mqtt_sent := mqtt_sent c;
     mqtt_subscribed := mqtt_subscribed c; agent_uuid := agent_uuid c;
     is_terminating := is_terminating c;
     upgrade_in_progress := upgrade_in_progress c; public_ip := public_ip c;
     docker_api_version := docker_api_version c;
     alerting_mode := alerting_mode c; alerting_metric := alerting_metric c;
     docker_containers := docker_containers c;
     docker_container_uuid := docker_container_uuid c;
     thresholds := thresholds c; purged_metrics := l |}.

Definition set_docker_container_uuid
  (d : dict string (option string * option string)) (c : Connector)
  : Connector :=
  {| _metric_queue := _metric_queue c; connected := connected c;
     _mqtt_queue_size := _mqtt_queue_size c;
     last_containers_removed := last_containers_removed c;
     metrics_uuid := metrics_uuid c; services_uuid := services_uuid c;
     metrics_info := metrics_info c; mqtt_sent := mqtt_sent c;
     mqtt_subscribed := mqtt_subscribed c; agent_uuid := agent_uuid c;
     is_terminating := is_terminating c;
     upgrade_in_progress := upgrade_in_progress c; public_ip := public_ip c;
     docker_api_version := docker_api_version c;
     alerting_mode := alerting_mode c; alerting_metric := alerting_metric c;
     docker_containers := docker_containers c;
     docker_container_uuid := d;
     thresholds := thresholds c; purged_metrics := purged_metrics c |}.

Definition set_last_containers_removed (t : Z) (c : Connector) : Connector :=
  {| _metric_queue := _metric_queue c; connected := connected c;
     _mqtt_queue_size := _mqtt_queue_size c;
     last_containers_removed := t;
     metrics_uuid := metrics_uuid c; services_uuid := services_uuid c;
     metrics_info := metrics_info c; mqtt_sent := mqtt_sent c;
     mqtt_subscribed := mqtt_subscribed c; agent_uuid := agent_uuid c;
     is_terminating := is_terminating c;
     upgrade_in_progress := upgrade_in_progress c; public_ip := public_ip c;
     docker_api_version := docker_api_version c;
     alerting_mode := alerting_mode c; alerting_metric := alerting_metric c;
     docker_containers := docker_containers c;
     docker_container_uuid := docker_container_uuid c;
     thresholds := thresholds c; purged_metrics := purged_metrics c |}.

(** ** Transport: [publish], [on_connect], the end of [run] *)

Definition MQTT_QUEUE_MAX_SIZE : Z := 2000.

(** ['v1/agent/%s/<name>' % self.agent_uuid]; the connector publishes
    only once the agent is registered ([_ready_for_mqtt]). *)
Definition topic (c : Connector) (name : string) : string :=
  "v1/agent/" +:+ agent_uuid c +:+ "/" +:+ name.

Definition publish (topic : string) (message : Payload) (force : bool)
  (c : Connector) : Connector :=
  if (MQTT_QUEUE_MAX_SIZE <? _mqtt_queue_size c) && negb force then c
  else mqtt_publish topic message c.

Definition on_connect (rc : Z) (c : Connector) : Connector :=
  if (rc =? 0) && negb (is_terminating c) then
    let c := set_connected true c in
    let msg := ConnectMsg (public_ip c) in
    let c := publish (topic c "connect") msg false c in
    mqtt_subscribe (topic c "notification") c
  else c.

(** [run], from the end of the [_loop] calls to the wait for the MQTT
    queue: the clean-shutdown announcement. *)
Definition run_shutdown (c : Connector) : Connector :=
  if connected c && negb (upgrade_in_progress c) then
    publish (topic c "disconnect") (DisconnectMsg "Clean shutdown") true c
  else c.

(** ** Producer side: [sent_metric], [emit_metric] *)

(** [alerting_metric] is [config.get('metric.alerting_metric')]: [None]
    when the key is not configured, in which case [in] raises. *)
Definition sent_metric (c : Connector) (metric_name : string)
  (metric_has_status : bool) : result bool :=
  if negb (alerting_mode c) then Ok true
  else if metric_has_status then Ok true
  else match alerting_metric c with
       | None => Raise TypeError
       | Some whitelist => Ok (bool_decide (metric_name ∈ whitelist))
       end.

Definition has_status (metric : Metric) : bool :=
  match status metric with Some _ => true | None => false end.

Definition info_of (metric : Metric) : MetricInfo :=
  {| info_status_of := status_of metric;
     info_instance := instance metric;
     info_container := container metric |}.

(** [emit_metric] from the test of the queue size on: what it does with a
    point that [sent_metric] lets through. *)
Definition record_metric (metric : Metric) (c : Connector) : Connector :=
  let c :=
    if Z.of_nat (length (_metric_queue c)) <? 100000
    then set_metric_queue (_metric_queue c ++ [metric]) c else c in
  let service := service metric in
  let item := item metric in
  let key := (measurement metric, service, item) in
  let c :=
    match metrics_info c !! key with
    | None => set_metrics_info (<[key := info_of metric]> (metrics_info c)) c
    | Some _ => c
    end in
  if dict_mem key (metrics_uuid c) then c
  else set_metrics_uuid (dict_setdefault key None (metrics_uuid c)) c.

Definition emit_metric (metric : Metric) (c : Connector) : result Connector :=
  let metric_name := measurement metric in
  let metric_has_status := has_status metric in
  sent ← sent_metric c metric_name metric_has_status;
  if negb sent then Ok c else Ok (record_metric metric c).

(** The connector once a call of [emit_metric] is over, whether it
    returned or raised: it can raise in [sent_metric] only, before it has
    changed anything. *)
Definition after_emit (metric : Metric) (c : Connector) : Connector :=
  match emit_metric metric c with
  | Ok c' => c'
  | Raise _ => c
  end.

(** A producer emitting a sequence of points, one call after the other. *)
Fixpoint emit_metrics (l : list Metric) (c : Connector) : Connector :=
  match l with
  | [] => c
  | metric :: l' => emit_metrics l' (after_emit metric c)
  end.

(** ** Drain loop: [_loop] *)

(** Local variables of [_loop]. *)
Record Locals := {
  metrics : list BleemeoMetric;
  repush_metric : option Metric;
}.

Inductive step :=
  | Continue (c : Connector) (l : Locals)
  | Break (c : Connector) (l : Locals).

(** One iteration of [while True].  [_metric_queue.get] on an empty queue
    raises [queue.Empty] once its timeout has elapsed, which leaves the
    loop; [time.sleep] only delays. *)
Definition loop_step (c : Connector) (l : Locals) : step :=
  match _metric_queue c with
  | [] => Break c l
  | metric :: rest =>
      let c := set_metric_queue rest c in
      let key := (measurement metric, service metric, item metric) in
      let metric_uuid :=
        default (Some "deleted"%string) (dict_get key (metrics_uuid c)) in
      if decide (metric_uuid = Some "deleted"%string) then Continue c l
      else
        match metric_uuid with
        | None =>
            let c := set_metric_queue (_metric_queue c ++ [metric]) c in
            match repush_metric l with
            | Some repushed =>
                if decide (addr repushed = addr metric) then Break c l
                else Continue c l
            | None =>
                Continue c {| metrics := metrics l;
                              repush_metric := Some metric |}
            end
        | Some metric_uuid =>
            let bleemeo_metric := {| point := metric; uuid := metric_uuid |} in
            let l := {| metrics := metrics l ++ [bleemeo_metric];
                        repush_metric := repush_metric l |} in
            if 1000 <? Z.of_nat (length (metrics l)) then Break c l
            else Continue c l
        end
  end.

Fixpoint loop_run (fuel : nat) (c : Connector) (l : Locals)
  : option (Connector * Locals) :=
  match fuel with
  | O => None
  | S fuel =>
      match loop_step c l with
      | Break c l => Some (c, l)
      | Continue c l => loop_run fuel c l
      end
  end.

(** Iterations that always suffice for a queue of the given length
    ([loop_run_terminates] below). *)
Definition loop_fuel (c : Connector) : nat :=
  (2 * length (_metric_queue c) + 1)%nat.

Definition _loop (c : Connector) : Connector :=
  let l0 := {| metrics := []; repush_metric := None |} in
  match loop_run (loop_fuel c) c l0 with
  | Some (c, l) =>
      if negb (Z.of_nat (length (metrics l)) =? 0)
      then publish (topic c "data") (DataMsg (metrics l)) false c
      else c
  | None => c
  end.

(** The state an iteration ends in, whether it loops or leaves. *)
Definition step_state (s : step) : Connector * Locals :=
  match s with
  | Continue c l => (c, l)
  | Break c l => (c, l)
  end.

(** What holds of the loop's state throughout a call of [_loop] started
    on [c0]: the loop touches the queue only; every point of the batch
    under construction was read from the queue while the cache held a
    remote identifier for its identity, and carries that identifier; the
    queue holds nothing that was not queued at the start, and still holds
    every point whose identity the cache maps to [None]. *)
Definition loop_inv (c0 c : Connector) (l : Locals) : Prop :=
  metrics_uuid c = metrics_uuid c0 ∧
  mqtt_sent c = mqtt_sent c0 ∧
  _mqtt_queue_size c = _mqtt_queue_size c0 ∧
  agent_uuid c = agent_uuid c0 ∧
  (∀ b, b ∈ metrics l →
        point b ∈ _metric_queue c0 ∧
        dict_get (key_of (point b)) (metrics_uuid c0) = Some (Some (uuid b)) ∧
        uuid b ≠ "deleted"%string) ∧
  (∀ metric, metric ∈ _metric_queue c0 →
             dict_get (key_of metric) (metrics_uuid c0) = Some None →
             metric ∈ _metric_queue c) ∧
  (∀ metric, metric ∈ _metric_queue c → metric ∈ _metric_queue c0).

(** ** The registry *)

Inductive Method := GET | POST | PUT | DELETE.

Record MetricPayload := {
  p_agent : string;
  p_label : string;
  p_status_of : option string;
  p_container : option string;
  p_item : option string;
  p_service : option string;
}.

Record ContainerPayload := {
  host : string;
  name : string;
  command : string;
  docker_status : string;
  docker_created_at : option string;
  docker_started_at : option string;
  docker_finished_at : option string;
  payload_docker_api_version : string;
  docker_id : string;
  docker_image_id : string;
  docker_image_name : string;
  docker_inspect : string;
}.

Inductive Body :=
  | NoBody
  | Params (params : dict string string)
  | MetricBody (p : MetricPayload)
  | ContainerBody (p : ContainerPayload).

(** A request; [url] is the path below [bleemeo.api_base]. *)
Record Request := {
  method : Method;
  url : string;
  body : Body;
}.

(** An element of the list endpoint [/v1/metric/]. *)
Record RemoteMetric := {
  r_id : string;
  r_label : string;
  r_item : string;
  r_last_status : option string;
  r_threshold : Threshold;
}.

(** A response: its status code and what the code reads of its JSON
    body.  For a list endpoint [json_results] holds the elements of the
    page and [json_next] its [next] link; [json_is_list] tells that the body
    is a bare list (the old API), whose elements [json_results] then
    holds. *)
Record Response := {
  status_code : Z;
  json_id : string;
  json_threshold : Threshold;
  json_results : list RemoteMetric;
  json_next : option string;
  json_is_list : bool;
}.

Record Net (World : Type) := {
  world : World;
  calls : list Request;
}.
Arguments world {World} n.
Arguments calls {World} n.

(** How a method leaves its loop or body. *)
Inductive flow :=
  | Next
  | Return
  | Raised (e : exn).

Definition convert_docker_date (input_date : option string) : option string :=
  match input_date with
  | None => None
  | Some d => if decide (d = "0001-01-01T00:00:00Z"%string) then None else Some d
  end.

(** [' '.join(cmd)] *)
Fixpoint join_spaces (cmd : list string) : string :=
  match cmd with
  | [] => ""
  | [s] => s
  | s :: cmd' => s +:+ " " +:+ join_spaces cmd'
  end.

(** [del self.metrics_uuid[metric_key]; del self.metrics_info[metric_key]] *)
Definition purge_metric (metric_key : MetricKey) (c : Connector) : Connector :=
  set_metrics_info (delete metric_key (metrics_info c))
    (set_metrics_uuid (dict_del metric_key (metrics_uuid c)) c).

(** What the locked part of an iteration of [_register_metric] ends in:
    [continue], an exception, or a payload to post. *)
Inductive prepared :=
  | Skip (c : Connector)
  | Crash (e : exn)
  | Ready (payload : MetricPayload).

Definition prepare_metric (metric_key : MetricKey) (c : Connector) : prepared :=
  let '(metric_name, service, item) := metric_key in
  match metrics_info c !! metric_key with
  | None => Skip (set_metrics_uuid (dict_del metric_key (metrics_uuid c)) c)
  | Some info =>
      let payload_status_of : Connector + option string :=
        match info_status_of info with
        | None => inr None
        | Some status_of =>
            let from_metric_key := (status_of, service, item) in
            if negb (dict_mem from_metric_key (metrics_uuid c))
            then inl (purge_metric metric_key c)
            else
              match dict_get from_metric_key (metrics_uuid c) with
              | Some (Some parent_uuid) => inr (Some parent_uuid)
              | _ => inl c
              end
        end in
      match payload_status_of with
      | inl c => Skip c
      | inr payload_status_of =>
          let payload_container : Connector + option string :=
            match info_container info with
            | None => inr None
            | Some container_name =>
                if negb (dict_mem container_name (docker_containers c))
                then inl (purge_metric metric_key c)
                else
                  match dict_get container_name (docker_container_uuid c) with
                  | Some (_, Some obj_uuid) => inr (Some obj_uuid)
                  | _ => inl c
                  end
            end in
          match payload_container with
          | inl c => Skip c
          | inr payload_container =>
              let payload service_uuid :=
                {| p_agent := agent_uuid c; p_label := metric_name;
                   p_status_of := payload_status_of;
                   p_container := payload_container;
                   p_item := item; p_service := service_uuid |} in
              match service with
              | None => Ready (payload None)
              | Some service =>
                  match services_uuid c !! (service, info_instance info) with
                  | None => Crash KeyError
                  | Some entry => Ready (payload (Some (entry_uuid entry)))
                  end
              end
          end
      end
  end.

(** ** [api_iterator] *)

(** The JSON body of a list endpoint: a bare list (the old API), or a
    page with its [next] link. *)
Inductive Listing (A : Type) :=
  | OldList (items : list A)
  | Page (results : list A) (next : option string).
Arguments OldList {A} items.
Arguments Page {A} results next.

(** The two [requests.get] calls of [api_iterator]: the first page, with
    the caller's parameters and headers, and a page reached by its link. *)
Inductive ListRequest :=
  | FirstPage (url : string) (params : dict string string)
      (headers : option (dict string string))
  | NextPage (url : string).

Section api_iterator.
Context {A World : Type} (get : ListRequest → World → Listing A * World).

(** The [while data['next']] loop: a link that is [None] or empty ends
    it; a page that is a bare list has no ['results'] ([TypeError]).
    [None] when [fuel] links have been followed and another one is
    pending. *)
Fixpoint follow_pages (fuel : nat) (next : option string) (w : World)
  : option (list A * flow * World) :=
  match next with
  | None => Some ([], Next, w)
  | Some url =>
      if decide (url = ""%string) then Some ([], Next, w)
      else
        match fuel with
        | O => None
        | S fuel =>
            let '(data, w) := get (NextPage url) w in
            match data with
            | OldList _ => Some ([], Raised TypeError, w)
            | Page results next =>
                match follow_pages fuel next w with
                | Some (items, f, w) => Some (results ++ items, f, w)
                | None => None
                end
            end
        end
  end.

(** The items [api_iterator] yields when it is drained, in order. *)
Definition api_iterator (fuel : nat) (url : string)
  (params : dict string string) (headers : option (dict string string))
  (w : World) : option (list A * flow * World) :=
  let params :=
    if dict_mem "page_size"%string params then params
    else dict_set "page_size"%string "100"%string params in
  let '(data, w) := get (FirstPage url params headers) w in
  match data with
  | OldList items => Some (items, Next, w)
  | Page results next =>
      match follow_pages fuel next w with
      | Some (items, f, w) => Some (results ++ items, f, w)
      | None => None
      end
  end.

(** The registry serves, from link [next] on, the pages [pages], the
    last of which has no further link. *)
Inductive serves : option string → World → list (list A) → World → Prop :=
  | serves_end w : serves None w [] w
  | serves_empty_link w : serves (Some ""%string) w [] w
  | serves_page url w results next w1 pages w' :
      url ≠ ""%string →
      get (NextPage url) w = (Page results next, w1) →
      serves next w1 pages w' →
      serves (Some url) w (results :: pages) w'.

End api_iterator.

Section registry.
Context {World : Type} (http : Request → World → Response * World).

(** Issue one request: the registry answers and moves on, the request is
    logged. *)
Definition request (r : Request) (n : Net World) : Response * Net World :=
  let '(response, w) := http r (world n) in
  (response, {| world := w; calls := calls n ++ [r] |}).

(** *** [_register_metric] *)

(** The body of the [for] loop for a metric whose cached value is [None]. *)
Definition register_one (metric_key : MetricKey) (c : Connector)
  (n : Net World) : flow * Connector * Net World :=
  match prepare_metric metric_key c with
  | Skip c => (Next, c, n)
  | Crash e => (Raised e, c, n)
  | Ready payload =>
      let '(response, n) :=
        request {| method := POST; url := "/v1/metric/";
                   body := MetricBody payload |} n in
      if negb (status_code response =? 201) then (Return, c, n)
      else
        let c :=
          set_metrics_uuid
            (dict_set metric_key (Some (json_id response)) (metrics_uuid c))
            c in
        let c :=
          set_thresholds
            (<[(metric_key.1.1, metric_key.2) := json_threshold response]>
               (thresholds c)) c in
        (Next, c, n)
  end.

Fixpoint register_metrics (list_metrics : list (MetricKey * option string))
  (c : Connector) (n : Net World) : flow * Connector * Net World :=
  match list_metrics with
  | [] => (Next, c, n)
  | (metric_key, metric_uuid) :: list_metrics =>
      match metric_uuid with
      | Some _ => register_metrics list_metrics c n
      | None =>
          match register_one metric_key c n with
          | (Next, c, n) => register_metrics list_metrics c n
          | stopped => stopped
          end
      end
  end.

Definition _register_metric (c : Connector) (n : Net World)
  : flow * Connector * Net World :=
  let list_metrics := metrics_uuid c in
  register_metrics list_metrics c n.

(** *** [_retrive_threshold] *)

(** The first loop, over the metrics the registry lists.  [Return] is the
    [return] after a refused deletion. *)
Fixpoint scan_remote_metrics (c : Connector) (l : list RemoteMetric)
  (metrics_registered : gset string)
  (thresholds : gmap (string * option string) Threshold) (n : Net World)
  : flow * (gset string * gmap (string * option string) Threshold) * Net World :=
  match l with
  | [] => (Next, (metrics_registered, thresholds), n)
  | data :: l =>
      let metric_has_status :=
        match r_last_status data with Some _ => true | None => false end in
      match sent_metric c (r_label data) metric_has_status with
      | Raise e => (Raised e, (metrics_registered, thresholds), n)
      | Ok false =>
          let '(response, n) :=
            request {| method := DELETE;
                       url := "/v1/metric/" +:+ r_id data +:+ "/";
                       body := NoBody |} n in
          if negb (status_code response =? 204)
          then (Return, (metrics_registered, thresholds), n)
          else scan_remote_metrics c l metrics_registered thresholds n
      | Ok true =>
          let metrics_registered := {[r_id data]} ∪ metrics_registered in
          let item :=
            if decide (r_item data = ""%string) then None
            else Some (r_item data) in
          let thresholds :=
            <[(r_label data, item) := r_threshold data]> thresholds in
          scan_remote_metrics c l metrics_registered thresholds n
      end
  end.

End registry.

(** The second loop, over [list(self.metrics_uuid.keys())]. *)
Fixpoint remove_deleted_metrics (keys : list MetricKey)
  (metrics_registered : gset string) (c : Connector)
  (deleted_metrics : list (string * option string))
  : flow * Connector * list (string * option string) :=
  match keys with
  | [] => (Next, c, deleted_metrics)
  | key :: keys =>
      let '(metric_name, service_name, item) := key in
      match dict_get key (metrics_uuid c) with
      | None => (Raised KeyError, c, deleted_metrics)
      | Some None =>
          remove_deleted_metrics keys metrics_registered c deleted_metrics
      | Some (Some value) =>
          if bool_decide (value ∈ metrics_registered)
          then remove_deleted_metrics keys metrics_registered c deleted_metrics
          else
            let c := set_metrics_uuid (dict_del key (metrics_uuid c)) c in
            remove_deleted_metrics keys metrics_registered c
              (deleted_metrics ++ [(metric_name, item)])
      end
  end.

Section registry.
Context {World : Type} (http : Request → World → Response * World).

(** The [requests.get] calls of [api_iterator] as requests to the
    registry; the listing of the metrics passes no headers. *)
Definition page_request (r : ListRequest) : Request :=
  match r with
  | FirstPage url params _ =>
      {| method := GET; url := url; body := Params params |}
  | NextPage url => {| method := GET; url := url; body := NoBody |}
  end.

(** [response.json()] of a list endpoint. *)
Definition listing_of (response : Response) : Listing RemoteMetric :=
  if json_is_list response then OldList (json_results response)
  else Page (json_results response) (json_next response).

Definition get_page (r : ListRequest) (n : Net World)
  : Listing RemoteMetric * Net World :=
  let '(response, n) := request http (page_request r) n in
  (listing_of response, n).

(** [list(metrics)]: the listing of the agent's metrics, all its pages
    requested.  [None] when [fuel] links have been followed and another one
    is pending. *)
Definition list_metrics (fuel : nat) (c : Connector) (n : Net World)
  : option (list RemoteMetric * flow * Net World) :=
  api_iterator get_page fuel "/v1/metric/"
    [("agent"%string, agent_uuid c)] None n.

(** What [_retrive_threshold] does once the listing is read.
    [purged_metrics] records the argument of [core.purge_metrics]. *)
Definition refresh_from (metrics : list RemoteMetric) (c : Connector)
  (n : Net World) : flow * Connector * Net World :=
  match scan_remote_metrics http c metrics ∅ ∅ n with
  | (Next, (metrics_registered, thresholds), n) =>
      let c := set_thresholds thresholds c in
      match remove_deleted_metrics (dict_keys (metrics_uuid c))
              metrics_registered c [] with
      | (Next, c, deleted_metrics) =>
          match deleted_metrics with
          | [] => (Next, c, n)
          | _ :: _ =>
              (Next,
               set_purged_metrics (purged_metrics c ++ deleted_metrics) c, n)
          end
      | (stopped, c, _) => (stopped, c, n)
      end
  | (stopped, _, n) => (stopped, c, n)
  end.

(** [_retrive_threshold]; an exception of the listing leaves the method
    before anything is changed. *)
Definition _retrive_threshold (fuel : nat) (c : Connector) (n : Net World)
  : option (flow * Connector * Net World) :=
  match list_metrics fuel c n with
  | None => None
  | Some (_, Raised e, n) => Some (Raised e, c, n)
  | Some (metrics, _, n) => Some (refresh_from metrics c n)
  end.

(** *** [_register_containers] *)

Context (sha1_hexdigest : string → string).

Definition container_payload (c : Connector) (name : string)
  (inspect : Inspect) : ContainerPayload :=
  let cmd := default [] (Config_Cmd inspect) in
  {| host := agent_uuid c;
     name := name;
     command := join_spaces cmd;
     docker_status := State_Status inspect;
     docker_created_at := convert_docker_date (Created inspect);
     docker_started_at := convert_docker_date (State_StartedAt inspect);
     docker_finished_at := convert_docker_date (State_FinishedAt inspect);
     payload_docker_api_version := docker_api_version c;
     docker_id := Id inspect;
     docker_image_id := Image inspect;
     docker_image_name := Config_Image inspect;
     docker_inspect := inspect_json inspect |}.

(** The first loop, over [self.core.docker_containers.items()]. *)
Fixpoint register_containers (l : list (string * Inspect)) (c : Connector)
  (n : Net World) : Connector * Net World :=
  match l with
  | [] => (c, n)
  | (name, inspect) :: l =>
      let container_uuid := docker_container_uuid c in
      let new_hash := sha1_hexdigest (inspect_sorted_json inspect) in
      let '(old_hash, obj_uuid) :=
        default (None, None) (dict_get name container_uuid) in
      if decide (old_hash = Some new_hash) then register_containers l c n
      else
        let '(method, url) :=
          match obj_uuid with
          | None => (POST, "/v1/container/"%string)
          | Some obj_uuid => (PUT, "/v1/container/" +:+ obj_uuid +:+ "/")
          end in
        let payload := container_payload c name inspect in
        let '(response, n) :=
          request http {| method := method; url := url;
                          body := ContainerBody payload |} n in
        if negb ((status_code response =? 200)
                 || (status_code response =? 201))
        then register_containers l c n
        else
          let obj_uuid := json_id response in
          let container_uuid :=
            dict_set name (Some new_hash, Some obj_uuid) container_uuid in
          register_containers l (set_docker_container_uuid container_uuid c) n
  end.

(** The second loop, over [deleted_containers]; [now] is what
    [get_clock()] returns. *)
Fixpoint delete_containers (deleted_containers : list string) (now : Z)
  (c : Connector) (n : Net World) : flow * Connector * Net World :=
  match deleted_containers with
  | [] => (Next, c, n)
  | name :: deleted_containers =>
      match dict_get name (docker_container_uuid c) with
      | None => (Raised KeyError, c, n)
      | Some (_, None) => (Raised TypeError, c, n)
      | Some (_, Some obj_uuid) =>
          let '(response, n) :=
            request http {| method := DELETE;
                            url := "/v1/container/" +:+ obj_uuid +:+ "/";
                            body := NoBody |} n in
          if negb ((status_code response =? 204)
                   || (status_code response =? 404))
          then delete_containers deleted_containers now c n
          else
            let c :=
              set_docker_container_uuid
                (dict_del name (docker_container_uuid c)) c in
            let c := set_last_containers_removed now c in
            delete_containers deleted_containers now c n
      end
  end.

(** [set(container_uuid) - set(self.core.docker_containers)], in the order
    of the cache. *)
Definition deleted_containers (c : Connector) : list string :=
  filter (λ name, dict_mem name (docker_containers c) = false)
    (dict_keys (docker_container_uuid c)).

Definition _register_containers (now : Z) (c : Connector) (n : Net World)
  : flow * Connector * Net World :=
  let '(c, n) := register_containers (docker_containers c) c n in
  delete_containers (deleted_containers c) now c n.

End registry.

(** The request that deletes the container registered as [obj_uuid]. *)
Definition delete_container (obj_uuid : string) : Request :=
  {| method := DELETE; url := "/v1/container/" +:+ obj_uuid +:+ "/";
     body := NoBody |}.

(** A container cache in which every entry carries a remote identifier,
    as all the entries written by [_register_containers] do. *)
Definition identified (d : dict string (option string * option string))
  : Prop :=
  ∀ name entry, dict_get name d = Some entry → is_Some entry.2.

(** ** Sample states *)

(** A freshly started connector of agent ["a1"]: nothing queued, cached or
    sent; alerting mode off, with an empty whitelist configured. *)
Definition fresh : Connector :=
  {| _metric_queue := []; connected := false; _mqtt_queue_size := 0;
     last_containers_removed := 0; metrics_uuid := [];
     services_uuid := ∅; metrics_info := ∅; mqtt_sent := [];
     mqtt_subscribed := []; agent_uuid := "a1"; is_terminating := false;
     upgrade_in_progress := false; public_ip := None;
     docker_api_version := ""; alerting_mode := false;
     alerting_metric := Some []; docker_containers := [];
     docker_container_uuid := []; thresholds := ∅; purged_metrics := [] |}.

(** A point of metric [name] without service, item or status, at [addr]. *)
Definition plain_point (addr : nat) (name : string) : Metric :=
  {| addr := addr; measurement := name; service := None; item := None;
     status := None; status_of := None; instance := None; container := None;
     fields := [] |}.

(** The same, running in container [container]. *)
Definition container_point (addr : nat) (name container : string) : Metric :=
  {| addr := addr; measurement := name; service := None; item := None;
     status := None; status_of := None; instance := None;
     container := Some container; fields := [] |}.

Definition set_alerting (mode : bool) (whitelist : list string)
  (c : Connector) : Connector :=
  {| _metric_queue := _metric_queue c; connected := connected c;
     _mqtt_queue_size := _mqtt_queue_size c;
     last_containers_removed := last_containers_removed c;
     metrics_uuid := metrics_uuid c; services_uuid := services_uuid c;
     metrics_info := metrics_info c; mqtt_sent := mqtt_sent c;
     mqtt_subscribed := mqtt_subscribed c; agent_uuid := agent_uuid c;
     is_terminating := is_terminating c;
     upgrade_in_progress := upgrade_in_progress c; public_ip := public_ip c;
     docker_api_version := docker_api_version c;
     alerting_mode := mode; alerting_metric := Some whitelist;
     docker_containers := docker_containers c;
     docker_container_uuid := docker_container_uuid c;
     thresholds := thresholds c; purged_metrics := purged_metrics c |}.

Definition set_mqtt_queue_size (size : Z) (c : Connector) : Connector :=
  {| _metric_queue := _metric_queue c; connected := connected c;
     _mqtt_queue_size := size;
     last_containers_removed := last_containers_removed c;
     metrics_uuid := metrics_uuid c; services_uuid := services_uuid c;
     metrics_info := metrics_info c; mqtt_sent := mqtt_sent c;
     mqtt_subscribed := mqtt_subscribed c; agent_uuid := agent_uuid c;
     is_terminating := is_terminating c;
     upgrade_in_progress := upgrade_in_progress c; public_ip := public_ip c;
     docker_api_version := docker_api_version c;
     alerting_mode := alerting_mode c; alerting_metric := alerting_metric c;
     docker_containers := docker_containers c;
     docker_container_uuid := docker_container_uuid c;
     thresholds := thresholds c; purged_metrics := purged_metrics c |}.

(** A connector whose cache maps the identity of [plain_point _ "cpu_used"]
    to the remote identifier ["u1"], with [n] such points queued. *)
Definition busy (n : nat) : Connector :=
  set_metrics_uuid [(("cpu_used"%string, None, None), Some "u1"%string)]
    (set_metric_queue (map (λ i, plain_point i "cpu_used") (seq 0 n)) fresh).

(** A connector with one point of a registered metric and one of an
    unregistered one queued. *)
Definition half_resolved : Connector :=
  set_metrics_uuid [(("cpu_used"%string, None, None), Some "u1"%string);
                    (("mem_used"%string, None, None), None)]
    (set_metric_queue [plain_point 0 "mem_used"; plain_point 1 "cpu_used"]
       fresh).

(** A connected connector with 2001 messages in flight. *)
Definition congested : Connector :=
  set_connected true (set_mqtt_queue_size 2001 fresh).

(** A queue that has reached the ceiling of [emit_metric]. *)
Definition full_queue : list Metric :=
  repeat (plain_point 0 "cpu_used") (Z.to_nat 100000).

(** A metric that reports the status of metric [parent]. *)
Definition status_point (addr : nat) (name parent : string) : Metric :=
  {| addr := addr; measurement := name; service := None; item := None;
     status := Some "ok"%string; status_of := Some parent; instance := None;
     container := None; fields := [] |}.

Definition no_threshold : Threshold :=
  {| low_warning := None; low_critical := None;
     high_warning := None; high_critical := None |}.

Definition response (code : Z) (id : string) : Response :=
  {| status_code := code; json_id := id; json_threshold := no_threshold;
     json_results := []; json_next := None; json_is_list := false |}.

(** A registry that refuses to create the metric labelled [refused]
    (400), creates any other metric [m] as ["id-m"] (201), lists no metric
    at all, and accepts every other request. *)
Definition registry_refusing (refused : string) (r : Request) (w : unit)
  : Response * unit :=
  match method r, body r with
  | POST, MetricBody p =>
      if decide (p_label p = refused) then (response 400 "", w)
      else (response 201 ("id-" +:+ p_label p), w)
  | POST, _ => (response 201 "c-1", w)
  | GET, _ => (response 200 "", w)
  | PUT, _ => (response 200 "c-1", w)
  | DELETE, _ => (response 204 "", w)
  end.

(** The network before any request. *)
Definition offline : Net unit := {| world := tt; calls := [] |}.

(** Two metrics emitted and not yet registered, ["cpu_used"] first. *)
Definition two_unregistered : Connector :=
  record_metric (plain_point 1 "mem_used")
    (record_metric (plain_point 0 "cpu_used") fresh).

(** An unregistered metric followed by an unregistered status metric
    whose parent ["cpu_load"] is not in the cache. *)
Definition orphan_status : Connector :=
  record_metric (status_point 1 "cpu_status" "cpu_load")
    (record_metric (plain_point 0 "cpu_used") fresh).

(** The same, the first metric being registered already. *)
Definition orphan_status_registered : Connector :=
  set_metrics_uuid
    [(("cpu_used"%string, None, None), Some "u1"%string);
     (("cpu_status"%string, None, None), None)]
    orphan_status.

(** A metric registered as ["u1"] and seen since startup. *)
Definition one_registered : Connector :=
  set_metrics_uuid [(("cpu_used"%string, None, None), Some "u1"%string)]
    (record_metric (plain_point 0 "cpu_used") fresh).




(** The request that registers a metric. *)
Definition metric_registration (payload : MetricPayload) : Request :=
  {| method := POST; url := "/v1/metric/"; body := MetricBody payload |}.

Definition post_metric (label : string) : Request :=
  {| method := POST; url := "/v1/metric/";
     body := MetricBody {| p_agent := "a1"; p_label := label;
                           p_status_of := None; p_container := None;
                           p_item := None; p_service := None |} |}.

Definition get_metrics : Request :=
  {| method := GET; url := "/v1/metric/";
     body := Params [("agent"%string, "a1"%string);
                     ("page_size"%string, "100"%string)] |}.

(** A threshold refresh on [one_registered] against a registry that lists
    no metric; then a new point of the same metric; then a registration
    pass. *)
Definition after_refresh : option (flow * Connector * Net unit) :=
  _retrive_threshold (registry_refusing "") 1 one_registered offline.

Definition re_emitted : option (result Connector * Net unit) :=
  match after_refresh with
  | Some (_, c, n) => Some (emit_metric (plain_point 5 "cpu_used") c, n)
  | None => None
  end.

Definition re_registered : option (flow * Connector * Net unit) :=
  match re_emitted with
  | Some (Ok c, n) => Some (_register_metric (registry_refusing "") c n)
  | _ => None
  end.

(** ** Further methods of the connector *)

Definition on_disconnect (rc : Z) (c : Connector) : Connector :=
  set_connected false c.

(** [on_publish], the delivery callback; [core.update_last_report] only
    moves [core.last_report] forward. *)
Definition on_publish (c : Connector) : Connector :=
  set_mqtt_queue_size (_mqtt_queue_size c - 1) c.

(** What happens to the in-flight counter: a message is published
    without [force], or the broker acknowledges one. *)
Inductive mqtt_event :=
  | Published (topic : string) (message : Payload)
  | Delivered.

Definition mqtt_step (c : Connector) (e : mqtt_event) : Connector :=
  match e with
  | Published topic message => publish topic message false c
  | Delivered => on_publish c
  end.

(** The entry [_loop] appends to its batch for a point it reads: none
    when the identity is not in the cache, is cached as ['deleted'] or is
    unresolved. *)
Definition bleemeo_metric_of (c : Connector) (metric : Metric)
  : option BleemeoMetric :=
  match dict_get (key_of metric) (metrics_uuid c) with
  | Some (Some metric_uuid) =>
      if decide (metric_uuid = "deleted"%string) then None
      else Some {| point := metric; uuid := metric_uuid |}
  | _ => None
  end.

(** A point of metric [name] of service [service_name]. *)
Definition service_point (addr : nat) (name service_name : string) : Metric :=
  {| addr := addr; measurement := name; service := Some service_name;
     item := None; status := None; status_of := None; instance := None;
     container := None; fields := [] |}.

(** A metric of service ["mysql"] emitted while the service is not
    registered, followed by a plain metric. *)
Definition unregistered_service : Connector :=
  record_metric (plain_point 1 "cpu_used")
    (record_metric (service_point 0 "mysql_queries" "mysql") fresh).

(** A cache entry left by a previous run: unresolved, and not seen since
    startup. *)
Definition stale_entry : Connector :=
  set_metrics_uuid
    [(("old_metric"%string, None, None), None);
     (("cpu_used"%string, None, None), None)]
    (record_metric (plain_point 0 "cpu_used") fresh).

(** The key under which [_retrive_threshold] stores the thresholds of a
    listed metric: the API's empty item is the agent's [None]. *)
Definition threshold_key (data : RemoteMetric) : string * option string :=
  (r_label data,
   if decide (r_item data = ""%string) then None else Some (r_item data)).

(** A registry that lists the metrics [listed] and refuses every
    [DELETE] (403). *)
Definition registry_listing (listed : list RemoteMetric) (r : Request)
  (w : unit) : Response * unit :=
  match method r with
  | GET => ({| status_code := 200; json_id := "";
               json_threshold := no_threshold; json_results := listed;
               json_next := None; json_is_list := false |}, w)
  | DELETE => (response 403 "", w)
  | _ => (response 201 "id", w)
  end.

(** A registry that lists its metrics on two pages, [first] and
    [second], and refuses every [DELETE] (403). *)
Definition registry_paging (first second : list RemoteMetric) (r : Request)
  (w : unit) : Response * unit :=
  match method r, body r with
  | GET, Params _ =>
      ({| status_code := 200; json_id := "";
          json_threshold := no_threshold; json_results := first;
          json_next := Some "/v1/metric/?page=2"%string;
          json_is_list := false |}, w)
  | GET, _ =>
      ({| status_code := 200; json_id := "";
          json_threshold := no_threshold; json_results := second;
          json_next := None; json_is_list := false |}, w)
  | DELETE, _ => (response 403 "", w)
  | _, _ => (response 201 "id", w)
  end.

Definition remote_metric (id label : string) : RemoteMetric :=
  {| r_id := id; r_label := label; r_item := ""; r_last_status := None;
     r_threshold := no_threshold |}.

Definition inspect_of (json : string) : Inspect :=
  {| inspect_json := json; inspect_sorted_json := json; Config_Cmd := None;
     Config_Image := ""; State_Status := "running"; State_StartedAt := None;
     State_FinishedAt := None; Created := None; Id := ""; Image := "" |}.

(** Container ["web1"] discovered with inspect data ["H2"] and cached
    with the hash of older data; [sha1_hexdigest] is taken to be the
    identity in the sample runs. *)
Definition changed_container : Connector :=
  {| _metric_queue := []; connected := false; _mqtt_queue_size := 0;
     last_containers_removed := 0; metrics_uuid := [];
     services_uuid := ∅; metrics_info := ∅; mqtt_sent := [];
     mqtt_subscribed := []; agent_uuid := "a1"; is_terminating := false;
     upgrade_in_progress := false; public_ip := None;
     docker_api_version := ""; alerting_mode := false;
     alerting_metric := Some [];
     docker_containers := [("web1"%string, inspect_of "H2")];
     docker_container_uuid :=
       [("web1"%string, (Some "H1"%string, Some "c-1"%string))];
     thresholds := ∅; purged_metrics := [] |}.

(** The same once the cache holds the hash of the current data. *)
Definition synced_container : Connector :=
  set_docker_container_uuid
    [("web1"%string, (Some "H2"%string, Some "c-1"%string))]
    changed_container.

(** A registry that accepts every request. *)
Definition registry_accepting (r : Request) (w : unit) : Response * unit :=
  match method r with
  | GET => (response 200 "", w)
  | POST => (response 201 "new-id", w)
  | PUT => (response 200 "same-id", w)
  | DELETE => (response 204 "", w)
  end.

(** ** [__init__] and [_apply_upgrade] *)

(** The loop of [_apply_upgrade] over [list(self.metrics_uuid)]. *)
Fixpoint upgrade_keys (keys : list MetricKey) (c : Connector)
  : flow * Connector :=
  match keys with
  | [] => (Next, c)
  | key :: keys =>
      let '(metric_name, service, item) := key in
      match decide (metric_name = "elasticsearch_search_time"%string),
            service with
      | left _, None =>
          match dict_get key (metrics_uuid c) with
          | None => (Raised KeyError, c)
          | Some value =>
              let new_key := (metric_name, Some "elasticsearch"%string, item) in
              let d := dict_setdefault new_key value (metrics_uuid c) in
              let d := dict_del key d in
              upgrade_keys keys (set_metrics_uuid d c)
          end
      | _, _ => upgrade_keys keys c
      end
  end.

Definition _apply_upgrade (c : Connector) : flow * Connector :=
  upgrade_keys (dict_keys (metrics_uuid c)) c.

(** [__init__]: [core] stands for the core object and its stored state,
    of which [metrics_uuid] and [services_uuid] are read; the connector's
    own attributes start empty. *)
Definition __init__ (core : Connector) : flow * Connector :=
  let c :=
    {| _metric_queue := []; connected := false; _mqtt_queue_size := 0;
       last_containers_removed := 0;
       metrics_uuid := metrics_uuid core;
       services_uuid := services_uuid core;
       metrics_info := ∅; mqtt_sent := []; mqtt_subscribed := [];
       agent_uuid := agent_uuid core; is_terminating := is_terminating core;
       upgrade_in_progress := upgrade_in_progress core;
       public_ip := public_ip core;
       docker_api_version := docker_api_version core;
       alerting_mode := alerting_mode core;
       alerting_metric := alerting_metric core;
       docker_containers := docker_containers core;
       docker_container_uuid := docker_container_uuid core;
       thresholds := thresholds core;
       purged_metrics := purged_metrics core |} in
  let agent_status := ("agent_status"%string, None, None) in
  let c :=
    set_metrics_uuid (dict_setdefault agent_status None (metrics_uuid c)) c in
  let c :=
    match metrics_info c !! agent_status with
    | Some _ => c
    | None =>
        set_metrics_info
          (<[agent_status :=
               {| info_status_of := None; info_instance := None;
                  info_container := None |}]> (metrics_info c)) c
    end in
  _apply_upgrade c.

(** The key [_apply_upgrade] retires and the key it moves the value to. *)
Definition legacy_key (item : option string) : MetricKey :=
  ("elasticsearch_search_time"%string, None, item).

Definition moved_key (item : option string) : MetricKey :=
  ("elasticsearch_search_time"%string, Some "elasticsearch"%string, item).

(** Stored state of an agent that ran before the upgrade. *)
Definition before_upgrade : Connector :=
  set_metrics_uuid
    [(("elasticsearch_search_time"%string, None, None), Some "u-es"%string);
     (("cpu_used"%string, None, None), Some "u1"%string)]
    fresh.

(** ** [send_facts] *)

(** An element of the list endpoint [/v1/agentfact/]. *)
Record Fact := {
  fact_id : string;
  fact_key : string;
}.

Inductive FactRequest :=
  | FactList (r : ListRequest)
  | FactCreate (agent key value : string)
  | FactDelete (id : string).

Record FactResponse := {
  fact_status : Z;
  fact_json_id : string;
  fact_listing : Listing Fact;
}.

(** A registry and the requests issued so far, for any kind of request. *)
Record Log (R World : Type) := {
  log_world : World;
  log_calls : list R;
}.
Arguments log_world {R World} l.
Arguments log_calls {R World} l.

(** What [send_facts] reads and writes: [core.last_facts], with the
    values as [str] renders them, the time of the last complete sending,
    and the [facts_uuid] entry that older agents left in the state. *)
Record FactsState := {
  last_facts : dict string string;
  _last_facts_sent : Z;
  facts_uuid : option string;
}.

Section send_facts.
Context {World : Type} (api : FactRequest → World → FactResponse * World).

Definition fact_request (r : FactRequest) (n : Log FactRequest World)
  : FactResponse * Log FactRequest World :=
  let '(response, w) := api r (log_world n) in
  (response, {| log_world := w; log_calls := log_calls n ++ [r] |}).

Definition get_facts (r : ListRequest) (n : Log FactRequest World)
  : Listing Fact * Log FactRequest World :=
  let '(response, n) := fact_request (FactList r) n in
  (fact_listing response, n).

(** The loop that creates the new facts. *)
Fixpoint create_facts (agent : string) (facts : list (string * string))
  (n : Log FactRequest World) : flow * Log FactRequest World :=
  match facts with
  | [] => (Next, n)
  | (fact_name, value) :: facts =>
      let '(response, n) := fact_request (FactCreate agent fact_name value) n in
      if fact_status response =? 201 then create_facts agent facts n
      else (Return, n)
  end.

(** The loop that deletes the old facts. *)
Fixpoint delete_facts (old_facts : list Fact) (n : Log FactRequest World)
  : flow * Log FactRequest World :=
  match old_facts with
  | [] => (Next, n)
  | fact :: old_facts =>
      let '(response, n) := fact_request (FactDelete (fact_id fact)) n in
      if negb (fact_status response =? 204) then (Return, n)
      else delete_facts old_facts n
  end.

(** [send_facts]; [now] is what [get_clock()] returns, [fuel] bounds the
    links followed while listing the old facts ([None] beyond it). *)
Definition send_facts (fuel : nat) (now : Z) (agent : string)
  (s : FactsState) (n : Log FactRequest World)
  : option (flow * FactsState * Log FactRequest World) :=
  let s := {| last_facts := last_facts s;
              _last_facts_sent := _last_facts_sent s;
              facts_uuid := None |} in
  match api_iterator get_facts fuel "/v1/agentfact/"
          [("agent"%string, agent); ("page_size"%string, "100"%string)]
          (Some [("X-Requested-With"%string, "XMLHttpRequest"%string)]) n with
  | None => None
  | Some (old_facts, Raised e, n) => Some (Raised e, s, n)
  | Some (old_facts, _, n) =>
      match create_facts agent (last_facts s) n with
      | (Next, n) =>
          match delete_facts old_facts n with
          | (Next, n) =>
              Some (Next,
                    {| last_facts := last_facts s; _last_facts_sent := now;
                       facts_uuid := facts_uuid s |}, n)
          | (stopped, n) => Some (stopped, s, n)
          end
      | (stopped, n) => Some (stopped, s, n)
      end
  end.

End send_facts.

Definition create_request (agent : string) (fact : string * string)
  : FactRequest :=
  FactCreate agent fact.1 fact.2.

Definition delete_request (fact : Fact) : FactRequest :=
  FactDelete (fact_id fact).

(** A registry that holds one old fact and accepts creations but refuses
    the creation of fact [refused]. *)
Definition facts_registry (refused : string) (r : FactRequest) (w : unit)
  : FactResponse * unit :=
  match r with
  | FactList _ =>
      ({| fact_status := 200; fact_json_id := "";
          fact_listing :=
            Page [{| fact_id := "f-old"; fact_key := "kernel" |}] None |}, w)
  | FactCreate _ key _ =>
      ({| fact_status := if decide (key = refused) then 500 else 201;
          fact_json_id := "f-new"; fact_listing := OldList [] |}, w)
  | FactDelete _ =>
      ({| fact_status := 204; fact_json_id := "";
          fact_listing := OldList [] |}, w)
  end.

Definition two_facts : FactsState :=
  {| last_facts := [("kernel"%string, "Linux"%string);
                    ("fqdn"%string, "host.example.com"%string)];
     _last_facts_sent := 0; facts_uuid := None |}.

(** ** Services *)

Definition IPPROTO_TCP : Z := 6.
Definition IPPROTO_UDP : Z := 17.

Abbreviation ServiceKey := (string * option string)%type.

(** What the connector reads of a value of [core.services].  [address] is
    [None] when the key is absent or its value is [None]; [port] is the
    port as [%s] renders it; [protocol] is [None] when the key is absent;
    [service_exe_path] is [None] when the key is absent. *)
Record ServiceInfo := {
  address : option string;
  extra_ports : dict string (option string);
  port : option string;
  protocol : option Z;
  service_exe_path : option string;
}.

(** The JSON body of a service registration: the entry, with its [uuid]
    when the service is already known, and the account and agent. *)
Record ServicePayload := {
  sp_listen_addresses : string;
  sp_label : string;
  sp_exe_path : string;
  sp_instance : option string;
  sp_uuid : option string;
  sp_account : string;
  sp_agent : string;
}.

Inductive ServiceRequest :=
  | ServiceCreate (payload : ServicePayload)
  | ServiceUpdate (service_uuid : string) (payload : ServicePayload)
  | ServiceDelete (service_uuid : string)
  | ServiceList (r : ListRequest).

(** A response of [/v1/service/]; the elements of a listing are given by
    their ['id']. *)
Record ServiceResponse := {
  service_status : Z;
  service_json_id : string;
  service_listing : Listing string;
}.

#[export] Instance ServiceEntry_eq_dec : EqDecision ServiceEntry.
Proof. solve_decision. Defined.

Definition set_services_uuid (m : gmap ServiceKey ServiceEntry)
  (c : Connector) : Connector :=
  {| _metric_queue := _metric_queue c; connected := connected c;
     _mqtt_queue_size := _mqtt_queue_size c;
     last_containers_removed := last_containers_removed c;
     metrics_uuid := metrics_uuid c; services_uuid := m;
     metrics_info := metrics_info c; mqtt_sent := mqtt_sent c;
     mqtt_subscribed := mqtt_subscribed c; agent_uuid := agent_uuid c;
     is_terminating := is_terminating c;
     upgrade_in_progress := upgrade_in_progress c; public_ip := public_ip c;
     docker_api_version := docker_api_version c;
     alerting_mode := alerting_mode c;
     alerting_metric := alerting_metric c;
     docker_containers := docker_containers c;
     docker_container_uuid := docker_container_uuid c;
     thresholds := thresholds c; purged_metrics := purged_metrics c |}.

(** ['%s:%s' % (address, port_proto)]; an address [None] is rendered as
    the text [None]. *)
Definition listen_address (item : string * option string) : string :=
  default "None"%string item.2 +:+ ":" +:+ item.1.

(** The entry the agent computes for a service; [uuid] is the identifier
    the registry gave. *)
Definition service_entry (key : ServiceKey) (service_info : ServiceInfo)
  (addresses uuid : string) : ServiceEntry :=
  {| listen_addresses := addresses; label := key.1;
     exe_path := default ""%string (service_exe_path service_info);
     entry_instance := key.2; entry_uuid := uuid |}.

Definition service_payload (account_id agent : string) (key : ServiceKey)
  (service_info : ServiceInfo) (addresses : string) (uuid : option string)
  : ServicePayload :=
  {| sp_listen_addresses := addresses; sp_label := key.1;
     sp_exe_path := default ""%string (service_exe_path service_info);
     sp_instance := key.2; sp_uuid := uuid;
     sp_account := account_id; sp_agent := agent |}.

Section services.
Context {World : Type}.
Variable gethostbyname : string → option string.
Variable api : ServiceRequest → World → ServiceResponse * World.

(** [get_listen_addresses]; [gethostbyname] is [None] when the name does
    not resolve ([socket.gaierror]). *)
Definition get_listen_addresses (service_info : ServiceInfo)
  : result string :=
  let resolved := address service_info ≫= gethostbyname in
  match
    match port service_info, extra_ports service_info with
    | Some port, [] =>
        match protocol service_info with
        | None => Raise KeyError
        | Some protocol =>
            if protocol =? IPPROTO_TCP
            then Ok [(port +:+ "/tcp", resolved)]
            else if protocol =? IPPROTO_UDP
            then Ok [(port +:+ "/udp", resolved)]
            else Ok []
        end
    | _, extra_ports => Ok extra_ports
    end
  with
  | Raise e => Raise e
  | Ok extra_ports => Ok (String.concat "," (listen_address <$> extra_ports))
  end.

Definition service_request (r : ServiceRequest)
  (n : Log ServiceRequest World) : ServiceResponse * Log ServiceRequest World :=
  let '(response, w) := api r (log_world n) in
  (response, {| log_world := w; log_calls := log_calls n ++ [r] |}).

Definition get_services (r : ListRequest) (n : Log ServiceRequest World)
  : Listing string * Log ServiceRequest World :=
  let '(response, n) := service_request (ServiceList r) n in
  (service_listing response, n).

(** The request [_register_services] prepares for one service, with the
    status it expects; [None] when the stored entry is up to date. *)
Definition service_request_for (account_id : string) (c : Connector)
  (key : ServiceKey) (service_info : ServiceInfo) (addresses : string)
  : option (ServiceRequest * Z) :=
  match services_uuid c !! key with
  | Some stored =>
      if decide (stored
                 = service_entry key service_info addresses (entry_uuid stored))
      then None
      else Some (ServiceUpdate (entry_uuid stored)
                   (service_payload account_id (agent_uuid c) key
                      service_info addresses (Some (entry_uuid stored))),
                 200)
  | None =>
      Some (ServiceCreate
              (service_payload account_id (agent_uuid c) key service_info
                 addresses None),
            201)
  end.

(** [_register_services]; [services] is [core.services]. *)
Fixpoint _register_services (account_id : string)
  (services : dict ServiceKey ServiceInfo) (c : Connector)
  (n : Log ServiceRequest World)
  : flow * Connector * Log ServiceRequest World :=
  match services with
  | [] => (Next, c, n)
  | (key, service_info) :: services =>
      match get_listen_addresses service_info with
      | Raise e => (Raised e, c, n)
      | Ok addresses =>
          match service_request_for account_id c key service_info addresses with
          | None => _register_services account_id services c n
          | Some (r, expected_code) =>
              let '(response, n) := service_request r n in
              if negb (service_status response =? expected_code)
              then _register_services account_id services c n
              else
                _register_services account_id services
                  (set_services_uuid
                     (<[key := service_entry key service_info addresses
                                 (service_json_id response)]>
                        (services_uuid c)) c) n
          end
      end
  end.

(** The first loop of [_purge_deleted_services], over the services that
    are in the state and no longer in [core.services]. *)
Fixpoint purge_from_state (keys : list ServiceKey) (c : Connector)
  (n : Log ServiceRequest World)
  : flow * Connector * Log ServiceRequest World :=
  match keys with
  | [] => (Next, c, n)
  | key :: keys =>
      match services_uuid c !! key with
      | None => (Raised KeyError, c, n)
      | Some entry =>
          let '(response, n) :=
            service_request (ServiceDelete (entry_uuid entry)) n in
          if negb (bool_decide (service_status response ∈ [204; 404]))
          then purge_from_state keys c n
          else
            purge_from_state keys
              (set_services_uuid (delete key (services_uuid c)) c) n
      end
  end.

(** Its last loop, over the keys of [services_uuid]: the services the
    registry no longer lists are dropped and collected. *)
Fixpoint purge_unlisted (services_registred : list string)
  (keys : list ServiceKey) (c : Connector)
  : flow * Connector * list ServiceKey :=
  match keys with
  | [] => (Next, c, [])
  | key :: keys =>
      match services_uuid c !! key with
      | None => (Raised KeyError, c, [])
      | Some entry =>
          if bool_decide (entry_uuid entry ∈ services_registred)
          then purge_unlisted services_registred keys c
          else
            let '(f, c, deleted_services) :=
              purge_unlisted services_registred keys
                (set_services_uuid (delete key (services_uuid c)) c) in
            (f, c, key :: deleted_services)
      end
  end.

(** [_purge_deleted_services].  The set difference is iterated in the
    order of its elements, the keys of [services_uuid] in the order of the
    map; the third component is the list handed to
    [core.update_discovery] (no call when it is empty).  [None] when
    [fuel] links of the listing have been followed and another one is
    pending. *)
Definition _purge_deleted_services (fuel : nat)
  (services : dict ServiceKey ServiceInfo) (c : Connector)
  (n : Log ServiceRequest World)
  : option (flow * Connector * list ServiceKey * Log ServiceRequest World) :=
  let deleted_services_from_state :=
    elements (dom (services_uuid c)
              ∖ (list_to_set (dict_keys services) : gset ServiceKey)) in
  match purge_from_state deleted_services_from_state c n with
  | (Raised e, c, n) => Some (Raised e, c, [], n)
  | (_, c, n) =>
      match api_iterator get_services fuel "/v1/service/"
              [("agent"%string, agent_uuid c)] None n with
      | None => None
      | Some (_, Raised e, n) => Some (Raised e, c, [], n)
      | Some (services_registred, _, n) =>
          let '(f, c, deleted_services) :=
            purge_unlisted services_registred
              (map_to_list (services_uuid c)).*1 c in
          Some (f, c, deleted_services, n)
      end
  end.

(** One round of the loop of [_register_services]: the exception of
    [get_listen_addresses], or the state in which the loop goes on. *)
Definition register_service (account_id : string) (key : ServiceKey)
  (service_info : ServiceInfo) (c : Connector) (n : Log ServiceRequest World)
  : exn + Connector * Log ServiceRequest World :=
  match get_listen_addresses service_info with
  | Raise e => inl e
  | Ok addresses =>
      match service_request_for account_id c key service_info addresses with
      | None => inr (c, n)
      | Some (r, expected_code) =>
          let '(response, n) := service_request r n in
          if negb (service_status response =? expected_code)
          then inr (c, n)
          else
            inr (set_services_uuid
                   (<[key := service_entry key service_info addresses
                               (service_json_id response)]>
                      (services_uuid c)) c, n)
      end
  end.

End services.


(** The deletion [_purge_deleted_services] asks for the service [key] of
    the state [c]. *)
Definition deletion_of (c : Connector) (key : ServiceKey)
  : option ServiceRequest :=
  (λ entry, ServiceDelete (entry_uuid entry)) <$> services_uuid c !! key.

(** The state holds, for every discovered service, the entry computed
    from it. *)
Definition services_in_sync (gethostbyname : string → option string)
  (services : dict ServiceKey ServiceInfo) (c : Connector) : Prop :=
  ∀ key service_info,
    (key, service_info) ∈ services →
    ∃ addresses uuid,
      get_listen_addresses gethostbyname service_info = Ok addresses
      ∧ services_uuid c !! key
        = Some (service_entry key service_info addresses uuid).

Definition localhost (name : string) : option string :=
  if decide (name = "localhost"%string) then Some "127.0.0.1"%string else None.

Definition nginx : ServiceInfo :=
  {| address := Some "localhost"%string; extra_ports := [];
     port := Some "80"%string; protocol := Some IPPROTO_TCP;
     service_exe_path := Some "/usr/sbin/nginx"%string |}.

Definition mysql : ServiceInfo :=
  {| address := None; extra_ports := [];
     port := Some "3306"%string; protocol := Some IPPROTO_TCP;
     service_exe_path := None |}.

(** A registry that lists the services [listed], accepts every creation
    and update, and answers [delete_status] to a deletion. *)
Definition services_registry (listed : list string) (delete_status : Z)
  (r : ServiceRequest) (w : unit) : ServiceResponse * unit :=
  match r with
  | ServiceList _ =>
      ({| service_status := 200; service_json_id := "";
          service_listing := Page listed None |}, w)
  | ServiceCreate payload =>
      ({| service_status := 201;
          service_json_id := "s-" +:+ sp_label payload;
          service_listing := OldList [] |}, w)
  | ServiceUpdate service_uuid _ =>
      ({| service_status := 200; service_json_id := service_uuid;
          service_listing := OldList [] |}, w)
  | ServiceDelete _ =>
      ({| service_status := delete_status; service_json_id := "";
          service_listing := OldList [] |}, w)
  end.

(** A connector that knows [nginx], with the address it listened on
    before, and [redis], which is no longer discovered. *)
Definition two_services : Connector :=
  set_services_uuid
    (<[("nginx"%string, None) :=
         service_entry ("nginx"%string, None) nginx "127.0.0.1:8080/tcp"
           "s-nginx"]>
       (<[("redis"%string, None) :=
            {| listen_addresses := "127.0.0.1:6379/tcp"; label := "redis";
               exe_path := ""; entry_instance := None;
               entry_uuid := "s-redis" |}]> ∅))
    fresh.

Definition discovered : dict ServiceKey ServiceInfo :=
  [(("nginx"%string, None), nginx); (("mysql"%string, Some "db"%string), mysql)].

(** ** The configuration ([config.py]) *)

(** The values of a loaded configuration: dictionaries, texts, lists,
    [None] and the other scalars (numbers and booleans, by their text). *)
#[warnings="-register-all"]
Inductive value :=
  | VDict (d : dict string value)
  | VStr (s : string)
  | VList (l : list value)
  | VNone
  | VScalar (repr : string).

Inductive config_exn :=
  | ConfigKeyError
  | ConfigTypeError
  | ConfigValueError
  | ConfigAttributeError
  | StopIteration.

Inductive outcome (A : Type) :=
  | Done (a : A)
  | Fails (e : config_exn).
Arguments Done {A} a.
Arguments Fails {A} e.

(** [s.split(sep)] from a position of [s] on: [skip] characters of a
    separator just found remain to be passed over, [current] is the piece
    read so far. *)
Fixpoint split_from (sep : string) (skip : nat) (current : string)
  (s : string) : list string :=
  match s with
  | EmptyString => [current]
  | String a s' =>
      match skip with
      | S skip => split_from sep skip current s'
      | O =>
          if String.prefix sep s
          then current :: split_from sep (String.length sep - 1) "" s'
          else split_from sep 0 (current +:+ String a "") s'
      end
  end.

(** [name.split(separator)]; an empty separator is a [ValueError]. *)
Definition split (separator name : string) : outcome (list string) :=
  if decide (separator = ""%string) then Fails ConfigValueError
  else Done (split_from separator 0 "" name).

(** [path in s] for a text [s]. *)
Fixpoint contains (path s : string) : bool :=
  String.prefix path s
  || match s with
     | EmptyString => false
     | String _ s' => contains path s'
     end.

Definition is_text (path : string) (v : value) : bool :=
  match v with
  | VStr s => bool_decide (s = path)
  | _ => false
  end.

(** The loop of [Config.get].  On a text or a list, [path not in current]
    is a search and [current[path]] a [TypeError]; on [None] and the
    scalars the search itself is one. *)
Fixpoint get_path (paths : list string) (current default : value)
  : outcome value :=
  match paths with
  | [] => Done current
  | path :: paths =>
      match current with
      | VDict d =>
          match dict_get path d with
          | None => Done default
          | Some v => get_path paths v default
          end
      | VStr s =>
          if contains path s then Fails ConfigTypeError else Done default
      | VList l =>
          if existsb (is_text path) l then Fails ConfigTypeError
          else Done default
      | VNone | VScalar _ => Fails ConfigTypeError
      end
  end.

(** [Config.get] *)
Definition Config_get (self : dict string value) (name : string)
  (default : value) (separator : string) : outcome value :=
  match split separator name with
  | Fails e => Fails e
  | Done paths => get_path paths (VDict self) default
  end.

(** The loop of [Config.set] once [current] is a plain dictionary. *)
Fixpoint set_path (paths : list string) (last_name : string) (v : value)
  (current : dict string value) : dict string value :=
  match paths with
  | [] => dict_set last_name v current
  | path :: paths =>
      let sub :=
        match dict_get path current with
        | Some (VDict d) => d
        | _ => []
        end in
      dict_set path (VDict (set_path paths last_name v sub)) current
  end.

(** [Config.set].  In the first round of its loop [current] is the
    configuration itself, whose [get] is [Config.get] with the default
    separator. *)
Definition Config_set (self : dict string value) (name : string) (v : value)
  (separator : string) : outcome (dict string value) :=
  match split separator name with
  | Fails e => Fails e
  | Done splitted_name =>
      let paths := removelast splitted_name in
      let last_name := List.last splitted_name ""%string in
      match paths with
      | [] => Done (dict_set last_name v self)
      | path :: paths =>
          match Config_get self path VNone "." with
          | Fails e => Fails e
          | Done found =>
              let self :=
                match found with
                | VDict _ => self
                | _ => dict_set path (VDict []) self
                end in
              match dict_get path self with
              | None => Fails ConfigKeyError
              | Some (VDict d) =>
                  Done (dict_set path
                          (VDict (set_path paths last_name v d)) self)
              | Some _ =>
                  match paths with
                  | [] => Fails ConfigTypeError
                  | _ :: _ => Fails ConfigAttributeError
                  end
              end
          end
      end
  end.

(** No character of the text is a dot. *)
Fixpoint dotless (s : string) : bool :=
  match s with
  | EmptyString => true
  | String a s' => negb (bool_decide (a = "."%char)) && dotless s'
  end.

(** ** [check_config_requirement] *)

(** What happens after a [is_terminating.wait]: the agent is terminating,
    or [core.reload_config()] returns a configuration. *)
Inductive wake :=
  | Terminating
  | Reloaded (config : dict string value).

(** The condition of the [while] loop: the account or the registration
    key is undefined. *)
Definition undefined (config : dict string value) : outcome bool :=
  match Config_get config "bleemeo.account_id" VNone "." with
  | Fails e => Fails e
  | Done VNone => Done true
  | Done _ =>
      match Config_get config "bleemeo.registration_key" VNone "." with
      | Fails e => Fails e
      | Done VNone => Done true
      | Done _ => Done false
      end
  end.

(** The [while] loop; the result holds the delays waited, in order.
    [None] when the loop still waits after the last of [wakes]. *)
Fixpoint wait_for_config (wakes : list wake) (config : dict string value)
  (sleep_delay : Z) : option (list Z * outcome (dict string value)) :=
  match undefined config with
  | Fails e => Some ([], Fails e)
  | Done false => Some ([], Done config)
  | Done true =>
      match wakes with
      | [] => None
      | Terminating :: _ => Some ([sleep_delay], Fails StopIteration)
      | Reloaded config :: wakes =>
          match wait_for_config wakes config (Z.min (sleep_delay * 2) 600) with
          | Some (waits, r) => Some (sleep_delay :: waits, r)
          | None => None
          end
      end
  end.

(** [check_config_requirement]; [password] is the password of the state,
    [generated] what [generate_password()] returns.  The result holds the
    delays waited and, when the requirement is met, the configuration and
    the password of the state. *)
Definition check_config_requirement (wakes : list wake)
  (config : dict string value) (password : option string)
  (generated : string)
  : option (list Z * outcome (dict string value * option string)) :=
  match wait_for_config wakes config 10 with
  | None => None
  | Some (waits, Fails e) => Some (waits, Fails e)
  | Some (waits, Done config) =>
      Some (waits,
            Done (config,
                  match password with
                  | None => Some generated
                  | Some _ => password
                  end))
  end.

Definition configured : dict string value :=
  [("bleemeo"%string,
    VDict [("account_id"%string, VStr "acc");
           ("registration_key"%string, VStr "key")])].

(** ** [core.check_threshold] *)

(** A metric point as [core.emit_metric] receives it; the value is kept
    as an integer, like the bounds of a threshold. *)
Record CorePoint := {
  core_measurement : string;
  core_tag : option string;
  core_status : option string;
  core_service : option string;
  core_time : Z;
  core_value : option Z;
}.

Definition below (value : Z) (bound : option Z) : bool :=
  match bound with
  | Some bound => value <? bound
  | None => false
  end.

Definition above (value : Z) (bound : option Z) : bool :=
  match bound with
  | Some bound => bound <? value
  | None => false
  end.

(** [Core.check_threshold]; [thresholds] is [core.thresholds], keyed by
    measurement. *)
Definition check_threshold (thresholds : gmap string Threshold)
  (metric : CorePoint) : CorePoint :=
  match thresholds !! core_measurement metric with
  | None => metric
  | Some threshold =>
      match core_value metric with
      | None => metric
      | Some value =>
          let status :=
            if below value (low_critical threshold) then "critical"
            else if below value (low_warning threshold) then "warning"
            else if above value (high_critical threshold) then "critical"
            else if above value (high_warning threshold) then "warning"
            else "ok" in
          {| core_measurement := core_measurement metric;
             core_tag := core_tag metric;
             core_status := Some status%string;
             core_service := core_service metric;
             core_time := core_time metric;
             core_value := core_value metric |}
      end
  end.

(** A registry with three pages of numbers. *)
Definition three_pages (r : ListRequest) (w : nat) : Listing nat * nat :=
  match r with
  | FirstPage _ _ _ => (Page [1; 2]%nat (Some "/p2"%string), S w)
  | NextPage url =>
      if decide (url = "/p2"%string) then (Page [3]%nat (Some "/p3"%string), S w)
      else (Page [4; 5]%nat None, S w)
  end.

(** * Properties *)

(** ** Dictionaries *)

Section dict_facts.
Context {K V : Type} `{EqDecision K}.
Implicit Types (k : K) (v : V) (d : dict K V).

Lemma dict_mem_true k d : dict_mem k d = true ↔ is_Some (dict_get k d).
Proof.
  unfold dict_mem. destruct (dict_get k d); split; intros H'; eauto.
  - done.
  - by destruct H'.
Qed.

Lemma dict_mem_false k d : dict_mem k d = false ↔ dict_get k d = None.
Proof. unfold dict_mem. by destruct (dict_get k d). Qed.

Lemma dict_get_app k d1 d2 :
  dict_get k (d1 ++ d2) =
  match dict_get k d1 with Some v => Some v | None => dict_get k d2 end.
Proof.
  induction d1 as [|[k' v'] d1 IH]; simpl; [done|]. by case_decide.
Qed.

Lemma dict_get_setdefault k v d :
  dict_get k (dict_setdefault k v d) =
  Some (default v (dict_get k d)).
Proof.
  unfold dict_setdefault, dict_mem.
  destruct (dict_get k d) eqn:E; simpl; [done|].
  rewrite dict_get_app, E. simpl. by rewrite decide_True.
Qed.

Lemma dict_get_del_eq k d : dict_get k (dict_del k d) = None.
Proof.
  induction d as [|[k' v'] d IH]; simpl; [done|].
  case_decide; simpl; [done|]. by rewrite decide_False.
Qed.

Lemma dict_get_del_ne k k' d :
  k ≠ k' → dict_get k (dict_del k' d) = dict_get k d.
Proof.
  intros Hne. induction d as [|[k'' v''] d IH]; simpl; [done|].
  destruct (decide (k' = k'')) as [->|]; simpl.
  - by rewrite decide_False.
  - case_decide; [done|]. exact IH.
Qed.

Lemma dict_get_set_eq k v d : dict_get k (dict_set k v d) = Some v.
Proof.
  induction d as [|[k' v'] d IH]; simpl.
  - by rewrite decide_True.
  - destruct (decide (k = k')) as [->|]; simpl.
    + by rewrite decide_True.
    + by rewrite decide_False.
Qed.

Lemma dict_get_set_ne k k' v d :
  k ≠ k' → dict_get k (dict_set k' v d) = dict_get k d.
Proof.
  intros Hne. induction d as [|[k'' v''] d IH]; simpl.
  - by rewrite decide_False.
  - destruct (decide (k' = k'')) as [->|]; simpl.
    + by rewrite !decide_False.
    + case_decide; [done|]. exact IH.
Qed.

Lemma dict_get_None k d : dict_get k d = None ↔ k ∉ dict_keys d.
Proof.
  unfold dict_keys. induction d as [|[k' v'] d IH]; simpl.
  - split; [intros _; apply not_elem_of_nil | done].
  - rewrite not_elem_of_cons. case_decide as Hk.
    + split; [done | by intros [? _]].
    + rewrite IH. split; [by intros ? | by intros [_ ?]].
Qed.

Lemma dict_get_Some_elem k v d : dict_get k d = Some v → (k, v) ∈ d.
Proof.
  induction d as [|[k' v'] d IH]; simpl; [done|].
  case_decide; intros Hv.
  - injection Hv as ->. subst k'. left.
  - right. auto.
Qed.

Lemma dict_keys_set k v d :
  dict_keys (dict_set k v d) =
  if dict_mem k d then dict_keys d else dict_keys d ++ [k].
Proof.
  unfold dict_keys, dict_mem.
  induction d as [|[k' v'] d IH]; cbn [dict_set dict_get]; [done|].
  case_decide; rewrite !fmap_cons; [done|].
  rewrite IH. by destruct (dict_get k d).
Qed.

Lemma dict_keys_del k d :
  dict_keys (dict_del k d) = filter (λ k', k' ≠ k) (dict_keys d).
Proof.
  unfold dict_keys.
  induction d as [|[k' v'] d IH]; cbn [dict_del]; [done|].
  rewrite fmap_cons, filter_cons. cbn [fst].
  destruct (decide (k = k')) as [->|].
  - by rewrite decide_False by (by intros []).
  - rewrite decide_True by done. by rewrite fmap_cons, IH.
Qed.

End dict_facts.

(** ** Transport *)

Lemma publish_dropped t msg c :
  MQTT_QUEUE_MAX_SIZE < _mqtt_queue_size c → publish t msg false c = c.
Proof.
  intros Hfull. unfold publish.
  by rewrite (proj2 (Z.ltb_lt _ _) Hfull).
Qed.

Lemma publish_forced t msg c : publish t msg true c = mqtt_publish t msg c.
Proof. unfold publish. by rewrite andb_false_r. Qed.

(** [on_connect] publishes its announcement without [force]: over the
    ceiling nothing is handed to the MQTT client. *)
Lemma on_connect_over_ceiling rc c :
  MQTT_QUEUE_MAX_SIZE < _mqtt_queue_size c →
  mqtt_sent (on_connect rc c) = mqtt_sent c.
Proof.
  intros Hfull. unfold on_connect.
  destruct ((rc =? 0) && negb (is_terminating c)); [|done].
  rewrite publish_dropped by done. done.
Qed.

(** C7, as the code has it: once the in-flight counter exceeds
    [MQTT_QUEUE_MAX_SIZE], a message published without [force] is dropped
    (nothing is handed to the MQTT client, the counter is unchanged), while
    the clean-shutdown disconnect announcement, which [run] publishes with
    [force=True], is handed to the client all the same and counted. *)
Theorem publish_ceiling_bypassed_by_force (c : Connector) :
  MQTT_QUEUE_MAX_SIZE < _mqtt_queue_size c →
  (∀ t msg, publish t msg false c = c) ∧
  (connected c = true → upgrade_in_progress c = false →
   mqtt_sent (run_shutdown c) =
     mqtt_sent c ++ [(topic c "disconnect", DisconnectMsg "Clean shutdown")]
   ∧ _mqtt_queue_size (run_shutdown c) = _mqtt_queue_size c + 1).
Proof.
  intros Hfull. split.
  - intros t msg. by apply publish_dropped.
  - intros Hconn Hup. unfold run_shutdown. rewrite Hconn, Hup. simpl.
    by rewrite publish_forced.
Qed.

Lemma publish_ceiling_bypassed_by_force_witness :
  MQTT_QUEUE_MAX_SIZE < _mqtt_queue_size congested ∧
  (∀ t msg, publish t msg false congested = congested) ∧
  mqtt_sent (run_shutdown congested) =
    mqtt_sent congested
      ++ [(topic congested "disconnect", DisconnectMsg "Clean shutdown")] ∧
  _mqtt_queue_size (run_shutdown congested) = _mqtt_queue_size congested + 1.
Proof.
  split; [reflexivity|].
  destruct (publish_ceiling_bypassed_by_force congested) as [Hdrop Hforce];
    [reflexivity|].
  split; [exact Hdrop|]. apply Hforce; reflexivity.
Defined.

(** C7, as stated, fails for the connect announcement: with 2001 messages
    in flight, a successful [on_connect] marks the connector connected and
    subscribes, but hands no connect announcement to the MQTT client. *)
Lemma connect_announcement_dropped :
  MQTT_QUEUE_MAX_SIZE < _mqtt_queue_size (set_mqtt_queue_size 2001 fresh) ∧
  connected (on_connect 0 (set_mqtt_queue_size 2001 fresh)) = true ∧
  mqtt_subscribed (on_connect 0 (set_mqtt_queue_size 2001 fresh))
    = ["v1/agent/a1/notification"%string] ∧
  mqtt_sent (on_connect 0 (set_mqtt_queue_size 2001 fresh)) = [].
Proof. repeat split. Qed.

(** ** Producer side *)

Lemma sent_metric_total c wl name b :
  alerting_metric c = Some wl → ∃ sent, sent_metric c name b = Ok sent.
Proof.
  intros Hwl. unfold sent_metric. rewrite Hwl.
  destruct (alerting_mode c), b; simpl; eauto.
Qed.

Lemma emit_metric_unfold metric c :
  emit_metric metric c =
  match sent_metric c (measurement metric) (has_status metric) with
  | Ok true => Ok (record_metric metric c)
  | Ok false => Ok c
  | Raise e => Raise e
  end.
Proof.
  unfold emit_metric.
  destruct (sent_metric _ _ _) as [[]|]; reflexivity.
Qed.

Lemma record_metric_queue metric c :
  _metric_queue (record_metric metric c) =
  if Z.of_nat (length (_metric_queue c)) <? 100000
  then _metric_queue c ++ [metric] else _metric_queue c.
Proof.
  unfold record_metric, key_of.
  destruct (Z.of_nat _ <? _); simpl;
    destruct (metrics_info c !! _) eqn:E; simpl;
    destruct (dict_mem _ _); simpl; reflexivity.
Qed.

Lemma record_metric_info metric c :
  metrics_info (record_metric metric c) =
  match metrics_info c !! key_of metric with
  | None => <[key_of metric := info_of metric]> (metrics_info c)
  | Some _ => metrics_info c
  end.
Proof.
  unfold record_metric, key_of.
  destruct (Z.of_nat _ <? _); simpl;
    destruct (metrics_info c !! _) eqn:E; simpl;
    destruct (dict_mem _ _); simpl; reflexivity.
Qed.

Lemma record_metric_uuid metric c :
  metrics_uuid (record_metric metric c) =
  if dict_mem (key_of metric) (metrics_uuid c) then metrics_uuid c
  else dict_setdefault (key_of metric) None (metrics_uuid c).
Proof.
  unfold record_metric, key_of.
  destruct (Z.of_nat _ <? _); simpl;
    destruct (metrics_info c !! _) eqn:E; simpl;
    destruct (dict_mem _ _); simpl; reflexivity.
Qed.

Lemma record_metric_frame metric c :
  alerting_mode (record_metric metric c) = alerting_mode c ∧
  alerting_metric (record_metric metric c) = alerting_metric c ∧
  mqtt_sent (record_metric metric c) = mqtt_sent c ∧
  _mqtt_queue_size (record_metric metric c) = _mqtt_queue_size c.
Proof.
  unfold record_metric, key_of.
  destruct (Z.of_nat _ <? _); simpl;
    destruct (metrics_info c !! _) eqn:E; simpl;
    destruct (dict_mem _ _); simpl; done.
Qed.

Lemma sent_metric_frame c c' name b :
  alerting_mode c' = alerting_mode c →
  alerting_metric c' = alerting_metric c →
  sent_metric c' name b = sent_metric c name b.
Proof. intros Hm Hw. unfold sent_metric. by rewrite Hm, Hw. Qed.

Lemma record_metric_info_kept metric c k info :
  metrics_info c !! k = Some info →
  metrics_info (record_metric metric c) !! k = Some info.
Proof.
  intros Hk. rewrite record_metric_info.
  destruct (metrics_info c !! key_of metric) eqn:E; [done|].
  rewrite lookup_insert_ne; [done|]. intros <-. congruence.
Qed.

Lemma record_metric_twice metric metric' c :
  key_of metric' = key_of metric →
  metrics_info (record_metric metric' (record_metric metric c))
    = metrics_info (record_metric metric c) ∧
  metrics_uuid (record_metric metric' (record_metric metric c))
    = metrics_uuid (record_metric metric c).
Proof.
  intros Hkey. split.
  - rewrite (record_metric_info metric'), Hkey.
    rewrite (record_metric_info metric).
    destruct (metrics_info c !! key_of metric) eqn:E.
    + by rewrite E.
    + by rewrite lookup_insert_eq.
  - rewrite (record_metric_uuid metric'), Hkey.
    rewrite (record_metric_uuid metric).
    destruct (dict_mem (key_of metric) (metrics_uuid c)) eqn:E.
    + by rewrite E.
    + assert (dict_mem (key_of metric)
                (dict_setdefault (key_of metric) None (metrics_uuid c)) = true)
        as ->; [|done].
      apply dict_mem_true. rewrite dict_get_setdefault. eauto.
Qed.

Lemma after_emit_unfold metric c :
  after_emit metric c =
  match sent_metric c (measurement metric) (has_status metric) with
  | Ok true => record_metric metric c
  | _ => c
  end.
Proof.
  unfold after_emit. rewrite emit_metric_unfold.
  by destruct (sent_metric _ _ _) as [[]|].
Qed.

Lemma after_emit_sent metric c name b :
  sent_metric (after_emit metric c) name b = sent_metric c name b.
Proof.
  rewrite after_emit_unfold.
  destruct (sent_metric c (measurement metric) _) as [[]|]; try done.
  destruct (record_metric_frame metric c) as (Hm & Hw & _).
  by apply sent_metric_frame.
Qed.

Lemma after_emit_info_kept metric c k info :
  metrics_info c !! k = Some info →
  metrics_info (after_emit metric c) !! k = Some info.
Proof.
  intros Hk. rewrite after_emit_unfold.
  destruct (sent_metric _ _ _) as [[]|]; try done.
  by apply record_metric_info_kept.
Qed.

(** C6: recording metric info is first-write-wins and idempotent.  An
    emission that [sent_metric] lets through leaves under the point's
    identity the metadata that was recorded already, and the point's own
    only if there was none; whatever is recorded for the identity after a
    first emission is still there, unchanged, after the emission of any
    point [metric'] of the same identity, whatever its metadata; and a
    second emission of [metric] itself leaves [metrics_info] and
    [metrics_uuid] exactly as the first one left them. *)
Theorem emit_metric_first_write_wins (c : Connector)
  (metric metric' : Metric) :
  key_of metric' = key_of metric →
  (sent_metric c (measurement metric) (has_status metric) = Ok true →
   metrics_info (after_emit metric c) !! key_of metric
     = Some (default (info_of metric) (metrics_info c !! key_of metric))) ∧
  (∀ info,
     metrics_info (after_emit metric c) !! key_of metric = Some info →
     metrics_info (after_emit metric' (after_emit metric c)) !! key_of metric
       = Some info) ∧
  metrics_info (after_emit metric (after_emit metric c))
    = metrics_info (after_emit metric c) ∧
  metrics_uuid (after_emit metric (after_emit metric c))
    = metrics_uuid (after_emit metric c).
Proof.
  intros Hkey. split_and!.
  - intros Hsent. rewrite after_emit_unfold, Hsent, record_metric_info.
    destruct (metrics_info c !! key_of metric) eqn:E; simpl; [done|].
    by rewrite lookup_insert_eq.
  - intros info. apply after_emit_info_kept.
  - rewrite (after_emit_unfold metric (after_emit metric c)).
    rewrite after_emit_sent, after_emit_unfold.
    destruct (sent_metric c _ _) as [[]|] eqn:Hsent; try done.
    by destruct (record_metric_twice metric metric c eq_refl).
  - rewrite (after_emit_unfold metric (after_emit metric c)).
    rewrite after_emit_sent, after_emit_unfold.
    destruct (sent_metric c _ _) as [[]|] eqn:Hsent; try done.
    by destruct (record_metric_twice metric metric c eq_refl).
Qed.

Lemma emit_metric_first_write_wins_witness :
  key_of (container_point 1 "cpu_used" "web1")
    = key_of (plain_point 0 "cpu_used") ∧
  metrics_info (after_emit (plain_point 0 "cpu_used") fresh)
    !! key_of (plain_point 0 "cpu_used")
    = Some (info_of (plain_point 0 "cpu_used")) ∧
  metrics_info (after_emit (container_point 1 "cpu_used" "web1")
                  (after_emit (plain_point 0 "cpu_used") fresh))
    !! key_of (plain_point 0 "cpu_used")
    = Some (info_of (plain_point 0 "cpu_used")) ∧
  metrics_info (after_emit (plain_point 0 "cpu_used")
                  (after_emit (plain_point 0 "cpu_used") fresh))
    = metrics_info (after_emit (plain_point 0 "cpu_used") fresh) ∧
  metrics_uuid (after_emit (plain_point 0 "cpu_used")
                  (after_emit (plain_point 0 "cpu_used") fresh))
    = metrics_uuid (after_emit (plain_point 0 "cpu_used") fresh).
Proof.
  split; [reflexivity|].
  destruct (emit_metric_first_write_wins fresh (plain_point 0 "cpu_used")
              (container_point 1 "cpu_used" "web1") eq_refl)
    as (Hfirst & Hkept & Hinfo & Huuid).
  assert (metrics_info (after_emit (plain_point 0 "cpu_used") fresh)
            !! key_of (plain_point 0 "cpu_used")
          = Some (info_of (plain_point 0 "cpu_used"))) as Hrecorded
    by (apply Hfirst; reflexivity).
  split; [exact Hrecorded|]. split; [exact (Hkept _ Hrecorded)|].
  split; [exact Hinfo | exact Huuid].
Defined.

(** C10: in alerting mode, a point whose name is not whitelisted and that
    carries no status is discarded by [emit_metric] without a trace: the
    connector is returned as it was (nothing queued, nothing recorded in
    [metrics_info] or [metrics_uuid]).  Out of alerting mode no point is
    filtered: every point is recorded under its identity in both maps. *)
Theorem emit_metric_alerting_filter (c : Connector) (metric : Metric) :
  (∀ whitelist,
     alerting_mode c = true →
     alerting_metric c = Some whitelist →
     measurement metric ∉ whitelist →
     status metric = None →
     emit_metric metric c = Ok c) ∧
  (alerting_mode c = false →
   emit_metric metric c = Ok (record_metric metric c) ∧
   dict_mem (key_of metric) (metrics_uuid (record_metric metric c)) = true ∧
   is_Some (metrics_info (record_metric metric c) !! key_of metric)).
Proof.
  split.
  - intros whitelist Hmode Hwl Hnotin Hstatus.
    rewrite emit_metric_unfold. unfold sent_metric, has_status.
    rewrite Hmode, Hwl, Hstatus. simpl.
    by rewrite bool_decide_eq_false_2.
  - intros Hmode. rewrite emit_metric_unfold. unfold sent_metric.
    rewrite Hmode. simpl. split; [done|]. split.
    + rewrite record_metric_uuid.
      destruct (dict_mem (key_of metric) (metrics_uuid c)) eqn:E; [done|].
      apply dict_mem_true. rewrite dict_get_setdefault. eauto.
    + rewrite record_metric_info.
      destruct (metrics_info c !! key_of metric) eqn:E; [by rewrite E|].
      rewrite lookup_insert_eq. eauto.
Qed.

Lemma emit_metric_alerting_filter_witness :
  (alerting_mode (set_alerting true ["agent_status"%string] fresh) = true ∧
   alerting_metric (set_alerting true ["agent_status"%string] fresh)
     = Some ["agent_status"%string] ∧
   (measurement (plain_point 0 "cpu_used") ∉ ["agent_status"%string]) ∧
   status (plain_point 0 "cpu_used") = None ∧
   emit_metric (plain_point 0 "cpu_used")
     (set_alerting true ["agent_status"%string] fresh)
   = Ok (set_alerting true ["agent_status"%string] fresh)) ∧
  (alerting_mode fresh = false ∧
   emit_metric (plain_point 0 "cpu_used") fresh
     = Ok (record_metric (plain_point 0 "cpu_used") fresh) ∧
   dict_mem (key_of (plain_point 0 "cpu_used"))
     (metrics_uuid (record_metric (plain_point 0 "cpu_used") fresh)) = true ∧
   is_Some (metrics_info (record_metric (plain_point 0 "cpu_used") fresh)
              !! key_of (plain_point 0 "cpu_used"))).
Proof.
  assert (measurement (plain_point 0 "cpu_used") ∉ ["agent_status"%string])
    as Hnotin by (by intros ?%list_elem_of_singleton).
  split.
  - repeat (split; [done|]).
    apply (proj1 (emit_metric_alerting_filter
                    (set_alerting true ["agent_status"%string] fresh)
                    (plain_point 0 "cpu_used"))
             ["agent_status"%string]); [reflexivity|reflexivity|done|reflexivity].
  - split; [reflexivity|].
    apply (proj2 (emit_metric_alerting_filter fresh
                    (plain_point 0 "cpu_used"))).
    reflexivity.
Defined.

Lemma after_emit_queue metric c :
  mqtt_sent (after_emit metric c) = mqtt_sent c ∧
  _mqtt_queue_size (after_emit metric c) = _mqtt_queue_size c ∧
  (_metric_queue (after_emit metric c) = _metric_queue c
   ∨ Z.of_nat (length (_metric_queue c)) < 100000
     ∧ _metric_queue (after_emit metric c) = _metric_queue c ++ [metric]).
Proof.
  rewrite after_emit_unfold.
  destruct (sent_metric _ _ _) as [[]|]; try (split_and!; [done|done|by left]).
  destruct (record_metric_frame metric c) as (_ & _ & Hs & Hq).
  split_and!; [done|done|]. rewrite record_metric_queue.
  destruct (Z.ltb_spec (Z.of_nat (length (_metric_queue c))) 100000);
    [right|left]; done.
Qed.

(** C9: [emit_metric] returns at once — it is a function of the connector
    alone, it talks neither to the registry nor to the MQTT client — and
    keeps the queue bounded.  Whatever points a producer emits, nothing is
    handed to the MQTT client and at most [max(100000, initial length)]
    points are queued afterwards; and a point emitted while the queue
    holds 100000 points or more is not enqueued. *)
Theorem emit_metric_queue_bounded (c : Connector) (emitted : list Metric)
  (metric : Metric) :
  mqtt_sent (emit_metrics emitted c) = mqtt_sent c ∧
  _mqtt_queue_size (emit_metrics emitted c) = _mqtt_queue_size c ∧
  Z.of_nat (length (_metric_queue (emit_metrics emitted c)))
    ≤ Z.max 100000 (Z.of_nat (length (_metric_queue c))) ∧
  (100000 ≤ Z.of_nat (length (_metric_queue c)) →
   _metric_queue (after_emit metric c) = _metric_queue c).
Proof.
  split_and!.
  - revert c. induction emitted as [|m emitted IH]; intros c; simpl; [done|].
    rewrite IH. apply after_emit_queue.
  - revert c. induction emitted as [|m emitted IH]; intros c; simpl; [done|].
    rewrite IH. apply after_emit_queue.
  - revert c. induction emitted as [|m emitted IH]; intros c; simpl; [lia|].
    specialize (IH (after_emit m c)).
    destruct (after_emit_queue m c) as (_ & _ & [Heq | [Hlt Heq]]);
      rewrite Heq in IH; [done|].
    rewrite length_app in IH. simpl in IH. lia.
  - intros Hfull.
    destruct (after_emit_queue metric c) as (_ & _ & [Heq | [Hlt _]]);
      [done|lia].
Qed.

Lemma emit_metric_queue_bounded_witness :
  100000 ≤ Z.of_nat (length (_metric_queue (set_metric_queue full_queue fresh))) ∧
  _metric_queue (after_emit (plain_point 1 "mem_used")
                   (set_metric_queue full_queue fresh))
    = _metric_queue (set_metric_queue full_queue fresh).
Proof.
  assert (100000 ≤ Z.of_nat
            (length (_metric_queue (set_metric_queue full_queue fresh))))
    as Hfull by (by vm_compute).
  split; [exact Hfull|].
  destruct (emit_metric_queue_bounded (set_metric_queue full_queue fresh) []
              (plain_point 1 "mem_used")) as (_ & _ & _ & Hdrop).
  exact (Hdrop Hfull).
Defined.

(** ** Drain loop *)

Lemma loop_step_inv c0 c l :
  loop_inv c0 c l →
  loop_inv c0 (step_state (loop_step c l)).1 (step_state (loop_step c l)).2.
Proof.
  intros (Hu & Hs & Hq & Ha & Hbatch & Hkept & Hsub).
  unfold loop_step. destruct (_metric_queue c) as [|metric rest] eqn:Hqueue.
  { simpl. unfold loop_inv. rewrite Hqueue. done. }
  cbv zeta.
  change (measurement metric, service metric, item metric)
    with (key_of metric).
  cbn [metrics_uuid set_metric_queue _metric_queue]. rewrite Hu.
  assert (metric ∈ _metric_queue c0) as Hmetric by (apply Hsub; left).
  assert (∀ m, m ∈ rest → m ∈ _metric_queue c0) as Hrest
    by (intros m Hm; apply Hsub; by right).
  destruct (dict_get (key_of metric) (metrics_uuid c0))
    as [[metric_uuid|]|] eqn:Hget; unfold default; cbn [from_option id].
  - (* the cache holds an identifier *)
    case_decide as Hdel.
    + simpl. split_and!; try done.
      intros m Hm Hnone. pose proof (Hkept m Hm Hnone) as Hin;
        apply elem_of_cons in Hin as [->|?]; [congruence|done].
    + assert (loop_inv c0 (set_metric_queue rest c)
                {| metrics := metrics l
                     ++ [{| point := metric; uuid := metric_uuid |}];
                   repush_metric := repush_metric l |}) as Hinv.
      { split_and!; try done.
        - intros b [Hb|Hb%list_elem_of_singleton]%elem_of_app.
          + by apply Hbatch.
          + subst b. simpl. split_and!; [done|done|].
            intros ->. by apply Hdel.
        - intros m Hm Hnone. simpl.
          pose proof (Hkept m Hm Hnone) as Hin;
        apply elem_of_cons in Hin as [->|?]; [congruence|done]. }
      by case_match.
  - (* the cache holds [None]: the point goes back to the queue *)
    rewrite decide_False by done.
    assert (∀ l', metrics l' = metrics l →
              loop_inv c0
                (set_metric_queue (rest ++ [metric]) (set_metric_queue rest c))
                l') as Hinv.
    { intros l' Hl'. split_and!; try done.
      - intros b Hb. rewrite Hl' in Hb. by apply Hbatch.
      - intros m Hm Hnone. simpl. apply elem_of_app.
        pose proof (Hkept m Hm Hnone) as Hin;
        apply elem_of_cons in Hin as [->|?]; [right; left | by left].
      - intros m [Hm|Hm%list_elem_of_singleton]%elem_of_app;
          [by apply Hrest | by subst m]. }
    destruct (repush_metric l) as [repushed|]; [case_decide|];
      by apply Hinv.
  - (* the identity is not in the cache: the point is dropped *)
    rewrite decide_True by done. simpl. split_and!; try done.
    intros m Hm Hnone. pose proof (Hkept m Hm Hnone) as Hin;
        apply elem_of_cons in Hin as [->|?]; [congruence|done].
Qed.

Lemma loop_run_inv c0 fuel c l c' l' :
  loop_inv c0 c l → loop_run fuel c l = Some (c', l') → loop_inv c0 c' l'.
Proof.
  revert c l. induction fuel as [|fuel IH]; intros c l Hinv; simpl; [done|].
  pose proof (loop_step_inv c0 c l Hinv) as Hstep.
  destruct (loop_step c l) as [c1 l1|c1 l1]; simpl in Hstep.
  - by apply IH.
  - intros [= <- <-]. done.
Qed.

Lemma loop_inv_start c :
  loop_inv c c {| metrics := []; repush_metric := None |}.
Proof.
  unfold loop_inv. split_and!; try done. simpl. intros b Hb.
  by apply not_elem_of_nil in Hb.
Qed.

(** The batch never holds more than 1001 points: an iteration entered
    with at most 1000 points leaves the loop as soon as it has appended
    the 1001st. *)
Lemma loop_step_length c l :
  (length (metrics l) ≤ 1000)%nat →
  match loop_step c l with
  | Continue _ l' => (length (metrics l') ≤ 1000)%nat
  | Break _ l' => (length (metrics l') ≤ 1001)%nat
  end.
Proof.
  intros Hlen. unfold loop_step.
  destruct (_metric_queue c) as [|metric rest]; [lia|]. cbv zeta.
  case_decide; [done|].
  destruct (default _ _) as [metric_uuid|].
  - cbn [metrics]. rewrite length_app. cbn [length].
    destruct (Z.ltb_spec 1000 (Z.of_nat (length (metrics l) + 1)));
      cbn [metrics]; rewrite length_app; cbn [length]; lia.
  - destruct (repush_metric l); [case_decide|]; simpl; lia.
Qed.

Lemma loop_run_length fuel c l c' l' :
  (length (metrics l) ≤ 1000)%nat →
  loop_run fuel c l = Some (c', l') → (length (metrics l') ≤ 1001)%nat.
Proof.
  revert c l. induction fuel as [|fuel IH]; intros c l Hlen; simpl; [done|].
  pose proof (loop_step_length c l Hlen) as Hstep.
  destruct (loop_step c l) as [c1 l1|c1 l1].
  - by apply IH.
  - intros [= <- <-]. done.
Qed.

(** *** Termination *)

Lemma loop_run_S fuel c l :
  loop_run (S fuel) c l =
  match loop_step c l with
  | Break c l => Some (c, l)
  | Continue c l => loop_run fuel c l
  end.
Proof. reflexivity. Qed.

Lemma loop_run_more fuel fuel' c l r :
  (fuel ≤ fuel')%nat → loop_run fuel c l = Some r → loop_run fuel' c l = Some r.
Proof.
  revert fuel' c l. induction fuel as [|fuel IH]; intros fuel' c l Hle;
    simpl; [done|].
  destruct fuel' as [|fuel']; [lia|]. simpl.
  destruct (loop_step c l); [|done]. apply IH. lia.
Qed.

(** Once a point has been re-queued and remembered in [repush_metric],
    the loop ends at the latest when that point is read again. *)
Lemma loop_run_repushed before after metric repushed c l :
  repush_metric l = Some repushed →
  addr repushed = addr metric →
  dict_get (key_of metric) (metrics_uuid c) = Some None →
  _metric_queue c = before ++ metric :: after →
  ∃ r, loop_run (S (length before)) c l = Some r.
Proof.
  intros Hrepush Haddr Hnone.
  revert after c l Hrepush Hnone.
  induction before as [|other before IH]; intros after c l Hrepush Hnone Hqueue.
  - simpl. unfold loop_step. rewrite Hqueue. simpl. cbv zeta.
    change (measurement metric, service metric, item metric)
      with (key_of metric).
    cbn [metrics_uuid set_metric_queue]. rewrite Hnone.
    unfold default; cbn [from_option id].
    rewrite decide_False by done. rewrite Hrepush.
    rewrite decide_True by done. eauto.
  - cbn [length]. cbn [loop_run]. unfold loop_step. rewrite Hqueue.
    cbn [app]. cbv zeta.
    cbn [metrics_uuid set_metric_queue _metric_queue].
    case_decide.
    { apply IH with (after := after); [exact Hrepush|exact Hnone|reflexivity]. }
    destruct (default _ _) as [other_uuid|].
    + destruct (1000 <? _); [eauto|].
      apply IH with (after := after); [exact Hrepush|exact Hnone|reflexivity].
    + rewrite Hrepush. case_decide; [eauto|].
      apply IH with (after := after ++ [other]); [exact Hrepush|exact Hnone|].
      simpl. by rewrite <- app_assoc.
Qed.

Lemma loop_run_fresh queue c l :
  repush_metric l = None →
  _metric_queue c = queue →
  ∃ r, loop_run (2 * length queue + 1) c l = Some r.
Proof.
  revert c l. induction queue as [|metric rest IH]; intros c l Hrepush Hqueue.
  - simpl. unfold loop_step. rewrite Hqueue. eauto.
  - replace (2 * length (metric :: rest) + 1)%nat
      with (S (S (2 * length rest + 1))) by (simpl; lia).
    rewrite loop_run_S. unfold loop_step at 1. rewrite Hqueue. cbv zeta.
    change (measurement metric, service metric, item metric)
      with (key_of metric).
    cbn [metrics_uuid set_metric_queue _metric_queue].
    case_decide.
    { destruct (IH (set_metric_queue rest c) l Hrepush eq_refl) as [r Hr].
      exists r. revert Hr. apply loop_run_more. lia. }
    destruct (dict_get (key_of metric) (metrics_uuid c))
      as [[metric_uuid|]|] eqn:Hget; unfold default in *;
      cbn [from_option id] in *; [| |done].
    + destruct (1000 <? _); [eauto|].
      destruct (IH (set_metric_queue rest c)
                  {| metrics := metrics l
                       ++ [{| point := metric; uuid := metric_uuid |}];
                     repush_metric := repush_metric l |} Hrepush eq_refl)
        as [r Hr].
      exists r. revert Hr. apply loop_run_more. lia.
    + rewrite Hrepush.
      destruct (loop_run_repushed rest [] metric metric
                  (set_metric_queue (rest ++ [metric])
                     (set_metric_queue rest c))
                  {| metrics := metrics l; repush_metric := Some metric |}
                  eq_refl eq_refl Hget eq_refl) as [r Hr].
      exists r. revert Hr. apply loop_run_more. lia.
Qed.

(** [_loop] returns: the [while True] loop ends within [loop_fuel]
    iterations, whatever is queued and cached. *)
Lemma loop_run_terminates c :
  ∃ c' l', loop_run (loop_fuel c) c {| metrics := []; repush_metric := None |}
           = Some (c', l').
Proof.
  destruct (loop_run_fresh (_metric_queue c) c
              {| metrics := []; repush_metric := None |} eq_refl eq_refl)
    as [[c' l'] Hr].
  by exists c', l'.
Qed.

(** *** What [_loop] publishes *)

Lemma loop_step_unresolved c l metric rest :
  _metric_queue c = metric :: rest →
  dict_get (key_of metric) (metrics_uuid c) = Some None →
  metrics (step_state (loop_step c l)).2 = metrics l ∧
  _metric_queue (step_state (loop_step c l)).1 = rest ++ [metric].
Proof.
  intros Hqueue Hnone. unfold loop_step. rewrite Hqueue. cbv zeta.
  change (measurement metric, service metric, item metric)
    with (key_of metric).
  cbn [metrics_uuid set_metric_queue _metric_queue]. rewrite Hnone.
  unfold default; cbn [from_option id]. rewrite decide_False by done.
  destruct (repush_metric l); [case_decide|]; done.
Qed.

Lemma loop_outcome c :
  ∃ c' l',
    loop_inv c c' l' ∧
    (length (metrics l') ≤ 1001)%nat ∧
    _loop c =
      if negb (Z.of_nat (length (metrics l')) =? 0)
      then publish (topic c "data") (DataMsg (metrics l')) false c'
      else c'.
Proof.
  destruct (loop_run_terminates c) as (c' & l' & Hrun).
  exists c', l'.
  pose proof (loop_run_inv c _ _ _ _ _ (loop_inv_start c) Hrun) as Hinv.
  split; [done|]. split.
  - eapply loop_run_length; [|exact Hrun]. simpl. lia.
  - unfold _loop. rewrite Hrun. unfold topic.
    destruct Hinv as (_ & _ & _ & -> & _). done.
Qed.

Lemma publish_queue t msg force c :
  _metric_queue (publish t msg force c) = _metric_queue c.
Proof. unfold publish. by case_match. Qed.

Lemma publish_sent t msg force c :
  mqtt_sent (publish t msg force c) = mqtt_sent c ∨
  mqtt_sent (publish t msg force c) = mqtt_sent c ++ [(t, msg)].
Proof. unfold publish. case_match; [by left | by right]. Qed.

(** C1: a point whose identity the cache maps to [None] when the drain
    loop reads it is put back at the end of the queue and the batch is
    left as it was; a call of [_loop] hands the MQTT client at most one
    batch, every point of which was read from the queue and carries the
    remote identifier the cache holds for its identity; so a queued point
    with an unresolved identity is in no published batch and is still
    queued when [_loop] returns. *)
Theorem unresolved_point_requeued_not_published (c : Connector) :
  (∀ l metric rest,
     _metric_queue c = metric :: rest →
     dict_get (key_of metric) (metrics_uuid c) = Some None →
     metrics (step_state (loop_step c l)).2 = metrics l ∧
     _metric_queue (step_state (loop_step c l)).1 = rest ++ [metric]) ∧
  ∃ batch,
    (mqtt_sent (_loop c) = mqtt_sent c ∨
     mqtt_sent (_loop c) = mqtt_sent c ++ [(topic c "data", DataMsg batch)]) ∧
    (∀ b, b ∈ batch →
          point b ∈ _metric_queue c ∧
          dict_get (key_of (point b)) (metrics_uuid c)
            = Some (Some (uuid b))) ∧
    (∀ metric,
       metric ∈ _metric_queue c →
       dict_get (key_of metric) (metrics_uuid c) = Some None →
       metric ∈ _metric_queue (_loop c) ∧
       ∀ b, b ∈ batch → key_of (point b) ≠ key_of metric).
Proof.
  split; [intros l metric rest; apply loop_step_unresolved|].
  destruct (loop_outcome c) as (c' & l' & Hinv & _ & Hloop).
  destruct Hinv as (_ & Hsent & _ & _ & Hbatch & Hkept & _).
  exists (metrics l'). split_and!.
  - rewrite Hloop. case_match; [|by left].
    rewrite <- Hsent. apply publish_sent.
  - intros b Hb. destruct (Hbatch b Hb) as (? & ? & _). done.
  - intros metric Hmetric Hnone. split.
    + rewrite Hloop. case_match; [rewrite publish_queue|]; by apply Hkept.
    + intros b Hb Hkey. destruct (Hbatch b Hb) as (_ & Hsome & _).
      rewrite Hkey in Hsome. congruence.
Qed.

Lemma unresolved_point_requeued_not_published_witness :
  _metric_queue half_resolved
    = [plain_point 0 "mem_used"; plain_point 1 "cpu_used"] ∧
  dict_get (key_of (plain_point 0 "mem_used")) (metrics_uuid half_resolved)
    = Some None ∧
  (∀ l,
     metrics (step_state (loop_step half_resolved l)).2 = metrics l ∧
     _metric_queue (step_state (loop_step half_resolved l)).1
       = [plain_point 1 "cpu_used"] ++ [plain_point 0 "mem_used"]) ∧
  ∃ batch,
    (mqtt_sent (_loop half_resolved) = mqtt_sent half_resolved ∨
     mqtt_sent (_loop half_resolved)
       = mqtt_sent half_resolved
           ++ [(topic half_resolved "data", DataMsg batch)]) ∧
    plain_point 0 "mem_used" ∈ _metric_queue (_loop half_resolved) ∧
    ∀ b, b ∈ batch → key_of (point b) ≠ key_of (plain_point 0 "mem_used").
Proof.
  split; [reflexivity|]. split; [reflexivity|].
  destruct (unresolved_point_requeued_not_published half_resolved)
    as [Hstep (batch & Hsent & _ & Hkept)].
  split.
  - intros l. apply Hstep; reflexivity.
  - exists batch. split; [exact Hsent|].
    apply Hkept; [left|reflexivity].
Defined.

(** The run of [_loop] on [half_resolved]: the registered metric's point
    is published with its identifier, the other point stays queued. *)
Example loop_half_resolved :
  mqtt_sent (_loop half_resolved)
    = [("v1/agent/a1/data"%string,
        DataMsg [{| point := plain_point 1 "cpu_used"; uuid := "u1" |}])] ∧
  _metric_queue (_loop half_resolved) = [plain_point 0 "mem_used"].
Proof. split; reflexivity. Qed.

(** C4 fails on the code: [_loop] tests [len(metrics) > 1000] after the
    append, so with 1001 points of a registered metric queued it
    publishes all 1001 of them in one message. *)
Theorem loop_publishes_1001_points :
  ∃ batch,
    mqtt_sent (_loop (busy 1001)) = [("v1/agent/a1/data"%string, DataMsg batch)] ∧
    length batch = 1001%nat ∧
    _metric_queue (_loop (busy 1001)) = [].
Proof.
  exists (map (λ i, {| point := plain_point i "cpu_used"; uuid := "u1" |})
            (seq 0 1001)).
  split; [|split]; vm_compute; reflexivity.
Qed.

(** No batch is larger than that. *)
Lemma loop_batch_at_most_1001 c t batch :
  (t, DataMsg batch) ∈ mqtt_sent (_loop c) →
  (t, DataMsg batch) ∈ mqtt_sent c ∨ (length batch ≤ 1001)%nat.
Proof.
  destruct (loop_outcome c) as (c' & l' & Hinv & Hlen & ->).
  destruct Hinv as (_ & Hsent & _).
  case_match; [|rewrite Hsent; by left].
  destruct (publish_sent (topic c "data") (DataMsg (metrics l')) false c')
    as [->| ->]; rewrite Hsent; [by left|].
  intros [?|Hnew%list_elem_of_singleton]%elem_of_app; [by left|].
  injection Hnew as _ ->. by right.
Qed.

(** ** Metric registration *)

(** C2 fails on the code: [_register_metric] leaves the loop with
    [return] on the first refused registration.  With ["cpu_used"] and
    ["mem_used"] both unregistered and a registry that refuses
    ["cpu_used"] only, the pass posts ["cpu_used"], returns, and never
    attempts ["mem_used"], which stays unresolved although the registry
    would have created it. *)
Theorem refused_registration_ends_pass :
  metrics_uuid two_unregistered
    = [(("cpu_used"%string, None, None), None);
       (("mem_used"%string, None, None), None)] ∧
  _register_metric (registry_refusing "cpu_used") two_unregistered offline
    = (Return, two_unregistered,
       {| world := tt; calls := [post_metric "cpu_used"] |}) ∧
  (registry_refusing "cpu_used" (post_metric "mem_used") tt).1
    = response 201 "id-mem_used".
Proof. split; [|split]; vm_compute; reflexivity. Qed.

Section registration_facts.
Context {World : Type} (http : Request → World → Response * World).
Implicit Types (c : Connector) (n : Net World) (k : MetricKey).

(** An iteration of [_register_metric] touches the cache entry and the
    info of its own metric only. *)
Lemma register_one_cases metric_key c n :
  ∃ c',
    (register_one http metric_key c n).1.2 = c' ∧
    (c' = c ∨ c' = purge_metric metric_key c
     ∨ c' = set_metrics_uuid (dict_del metric_key (metrics_uuid c)) c
     ∨ ∃ id t, c' = set_thresholds t
                      (set_metrics_uuid
                         (dict_set metric_key (Some id) (metrics_uuid c)) c)).
Proof.
  unfold register_one, prepare_metric.
  destruct metric_key as [[metric_name service] item].
  repeat (case_match; simplify_eq; simpl; eauto 10).
Qed.

Lemma register_one_frame metric_key c n k :
  k ≠ metric_key →
  dict_get k (metrics_uuid (register_one http metric_key c n).1.2)
    = dict_get k (metrics_uuid c) ∧
  metrics_info (register_one http metric_key c n).1.2 !! k
    = metrics_info c !! k.
Proof.
  intros Hne.
  destruct (register_one_cases metric_key c n)
    as (c' & -> & [->|[->|[->|(id & t & ->)]]]); simpl.
  - done.
  - by rewrite dict_get_del_ne, lookup_delete_ne.
  - by rewrite dict_get_del_ne.
  - by rewrite dict_get_set_ne.
Qed.

Lemma register_metrics_frame list_metrics c n k :
  k ∉ list_metrics.*1 →
  dict_get k (metrics_uuid (register_metrics http list_metrics c n).1.2)
    = dict_get k (metrics_uuid c) ∧
  metrics_info (register_metrics http list_metrics c n).1.2 !! k
    = metrics_info c !! k.
Proof.
  revert c n.
  induction list_metrics as [|[metric_key metric_uuid] list_metrics IH];
    intros c n Hk; [done|].
  rewrite fmap_cons in Hk. apply not_elem_of_cons in Hk as [Hne Hk].
  simpl. destruct metric_uuid as [?|]; [by apply IH|].
  pose proof (register_one_frame metric_key c n k Hne) as Hone.
  destruct (register_one http metric_key c n) as [[[| |e] c1] n1];
    simpl in Hone; [|done|done].
  destruct (IH c1 n1 Hk) as [-> ->]. done.
Qed.

Lemma register_metrics_app l1 l2 c n :
  register_metrics http (l1 ++ l2) c n =
  match register_metrics http l1 c n with
  | (Next, c1, n1) => register_metrics http l2 c1 n1
  | stopped => stopped
  end.
Proof.
  revert c n. induction l1 as [|[metric_key metric_uuid] l1 IH];
    intros c n; simpl; [done|].
  destruct metric_uuid as [?|]; [by apply IH|].
  destruct (register_one http metric_key c n) as [[[| |e] c1] n1]; [|done|done].
  apply IH.
Qed.

(** A refused registration ends the pass at once. *)
Lemma register_metrics_refused metric_key list_metrics c n payload :
  prepare_metric metric_key c = Ready payload →
  status_code (http {| method := POST; url := "/v1/metric/";
                       body := MetricBody payload |} (world n)).1 ≠ 201 →
  ∃ n', register_metrics http ((metric_key, None) :: list_metrics) c n
        = (Return, c, n').
Proof.
  intros Hready Hcode. simpl. unfold register_one, request. rewrite Hready.
  destruct (http _ (world n)) as [response w]. simpl in *.
  rewrite (proj2 (Z.eqb_neq _ _) Hcode). simpl. eauto.
Qed.

(** The status-of cascade: the iteration of a metric whose parent is not
    in the cache deletes the metric and issues no request. *)
Lemma register_one_orphan metric_key c n info parent :
  metrics_info c !! metric_key = Some info →
  info_status_of info = Some parent →
  dict_mem (parent, metric_key.1.2, metric_key.2) (metrics_uuid c) = false →
  register_one http metric_key c n = (Next, purge_metric metric_key c, n).
Proof.
  intros Hinfo Hparent Habsent. unfold register_one, prepare_metric.
  destruct metric_key as [[metric_name service] item]. simpl in *.
  by rewrite Hinfo, Hparent, Habsent.
Qed.

End registration_facts.

(** The status-of cascade within a pass: let [A] be unresolved in the
    cache, with recorded info naming a status-of parent whose identity is
    not in the cache.  If the iterations of the pass for the identities
    that precede [A] in the cache do not end the pass, then the iteration
    for [A] deletes [A] from [metrics_uuid] and [metrics_info] and issues
    no request (the network is untouched), and [A] is in neither map when
    the pass is over. *)
Lemma orphan_status_metric_purged {World : Type}
  (http : Request → World → Response * World)
  (c c1 : Connector) (n n1 : Net World)
  (before after : list (MetricKey * option string))
  (A : MetricKey) (info : MetricInfo) (parent : string) :
  metrics_uuid c = before ++ (A, None) :: after →
  NoDup (dict_keys (metrics_uuid c)) →
  metrics_info c !! A = Some info →
  info_status_of info = Some parent →
  dict_mem (parent, A.1.2, A.2) (metrics_uuid c) = false →
  register_metrics http before c n = (Next, c1, n1) →
  register_one http A c1 n1 = (Next, purge_metric A c1, n1) ∧
  _register_metric http c n
    = register_metrics http after (purge_metric A c1) n1 ∧
  dict_mem A (metrics_uuid (_register_metric http c n).1.2) = false ∧
  metrics_info (_register_metric http c n).1.2 !! A = None.
Proof.
  intros Hcache Hnodup Hinfo Hparent Habsent Hbefore.
  unfold dict_keys in Hnodup. rewrite Hcache, fmap_app, fmap_cons in Hnodup.
  apply NoDup_app in Hnodup as (_ & Hfresh & [Hafter _]%NoDup_cons).
  assert (A ∉ before.*1) as HA.
  { intros HA. apply (Hfresh A HA). left. }
  assert ((parent, A.1.2, A.2) ∉ before.*1) as Hpk.
  { apply dict_mem_false, dict_get_None in Habsent. unfold dict_keys in Habsent.
    rewrite Hcache, fmap_app in Habsent. intros Hin. apply Habsent.
    apply elem_of_app. by left. }
  pose proof (register_metrics_frame http before c n _ HA) as [_ HinfoA].
  pose proof (register_metrics_frame http before c n _ Hpk) as [Hparent1 _].
  rewrite Hbefore in HinfoA, Hparent1. simpl in HinfoA, Hparent1.
  assert (register_one http A c1 n1 = (Next, purge_metric A c1, n1)) as Hone.
  { apply register_one_orphan with info parent; [congruence|done|].
    apply dict_mem_false. rewrite Hparent1. by apply dict_mem_false. }
  assert (_register_metric http c n
          = register_metrics http after (purge_metric A c1) n1) as Hpass.
  { unfold _register_metric. rewrite Hcache, register_metrics_app, Hbefore.
    simpl. by rewrite Hone. }
  split; [done|]. split; [done|]. rewrite Hpass.
  destruct (register_metrics_frame http after (purge_metric A c1) n1 A Hafter)
    as [Hcache' Hinfo'].
  split.
  - apply dict_mem_false. rewrite Hcache'. apply dict_get_del_eq.
  - rewrite Hinfo'. apply lookup_delete_eq.
Qed.

Lemma orphan_status_metric_purged_witness :
  metrics_uuid orphan_status_registered
    = [(("cpu_used"%string, None, None), Some "u1"%string)]
        ++ (("cpu_status"%string, None, None), None) :: [] ∧
  register_one (registry_refusing "") ("cpu_status"%string, None, None)
    orphan_status_registered offline
    = (Next,
       purge_metric ("cpu_status"%string, None, None) orphan_status_registered,
       offline) ∧
  _register_metric (registry_refusing "") orphan_status_registered offline
    = register_metrics (registry_refusing "") []
        (purge_metric ("cpu_status"%string, None, None)
           orphan_status_registered) offline ∧
  dict_mem ("cpu_status"%string, None, None)
    (metrics_uuid
       (_register_metric (registry_refusing "") orphan_status_registered
          offline).1.2) = false ∧
  metrics_info
    (_register_metric (registry_refusing "") orphan_status_registered
       offline).1.2 !! ("cpu_status"%string, None, None) = None.
Proof.
  split; [reflexivity|].
  apply (orphan_status_metric_purged (registry_refusing "")
           orphan_status_registered orphan_status_registered offline offline
           [(("cpu_used"%string, None, None), Some "u1"%string)] []
           ("cpu_status"%string, None, None)
           {| info_status_of := Some "cpu_load"%string;
              info_instance := None; info_container := None |}
           "cpu_load").
  - reflexivity.
  - apply (bool_decide_unpack _). vm_compute. exact I.
  - vm_compute. reflexivity.
  - reflexivity.
  - vm_compute. reflexivity.
  - reflexivity.
Defined.

(** C8 fails on the code: the purge of a status metric whose parent is
    gone is an iteration of the registration loop, and the loop is left
    with [return] on the first refused registration.  ["cpu_status"] is
    unresolved and its parent ["cpu_load"] is not in the cache, but the
    registration of ["cpu_used"], which comes first, is refused: the pass
    returns after that one request and ["cpu_status"] is still in both
    maps, although its own iteration, run where the pass stopped, purges
    it without a request. *)
Theorem orphan_survives_ended_pass :
  metrics_uuid orphan_status
    = [(("cpu_used"%string, None, None), None);
       (("cpu_status"%string, None, None), None)] ∧
  metrics_info orphan_status !! ("cpu_status"%string, None, None)
    = Some {| info_status_of := Some "cpu_load"%string;
              info_instance := None; info_container := None |} ∧
  dict_mem ("cpu_load"%string, None, None) (metrics_uuid orphan_status)
    = false ∧
  _register_metric (registry_refusing "cpu_used") orphan_status offline
    = (Return, orphan_status,
       {| world := tt; calls := [post_metric "cpu_used"] |}) ∧
  register_one (registry_refusing "cpu_used")
    ("cpu_status"%string, None, None) orphan_status
    {| world := tt; calls := [post_metric "cpu_used"] |}
    = (Next, purge_metric ("cpu_status"%string, None, None) orphan_status,
       {| world := tt; calls := [post_metric "cpu_used"] |}).
Proof. split_and!; vm_compute; reflexivity. Qed.

(** ** Threshold refresh *)

Section refresh_facts.
Context {World : Type} (http : Request → World → Response * World).
Implicit Types (c : Connector) (n : Net World) (k : MetricKey).

(** [metrics_registered] holds identifiers of listed metrics only. *)
Lemma scan_registered c l registered thresholds n x :
  x ∈ (scan_remote_metrics http c l registered thresholds n).1.2.1 →
  x ∈ registered ∨ x ∈ r_id <$> l.
Proof.
  revert registered thresholds n.
  induction l as [|data l IH]; intros registered thresholds n; simpl.
  { by left. }
  destruct (sent_metric c _ _) as [[]|e]; simpl.
  - intros [Hx|Hx]%IH.
    + apply elem_of_union in Hx as [->%elem_of_singleton|Hx].
      * right. left.
      * by left.
    + right. by right.
  - destruct (request http _ n) as [response n1].
    destruct (negb _); simpl; [by left|].
    intros [Hx|Hx]%IH; [by left|right; by right].
  - by left.
Qed.

(** Out of alerting mode the first loop deletes nothing and runs to its
    end. *)
Lemma scan_completes c l registered thresholds n :
  alerting_mode c = false →
  (scan_remote_metrics http c l registered thresholds n).1.1 = Next.
Proof.
  intros Hmode. revert registered thresholds n.
  induction l as [|data l IH]; intros registered thresholds n; simpl; [done|].
  unfold sent_metric. rewrite Hmode. simpl. apply IH.
Qed.

End refresh_facts.

(** The second loop only deletes. *)
Lemma remove_deleted_monotone keys registered c deleted k :
  dict_get k (metrics_uuid
                (remove_deleted_metrics keys registered c deleted).1.2) = None
  ∨ dict_get k (metrics_uuid
                  (remove_deleted_metrics keys registered c deleted).1.2)
    = dict_get k (metrics_uuid c).
Proof.
  revert c deleted.
  induction keys as [|[[metric_name service_name] item] keys IH];
    intros c deleted; simpl; [by right|].
  destruct (dict_get _ (metrics_uuid c)) as [[value|]|]; simpl;
    [|by apply IH|by right].
  case_bool_decide; [by apply IH|].
  edestruct IH as [Hk|Hk]; [left; exact Hk|]. rewrite Hk. simpl.
  destruct (decide (k = (metric_name, service_name, item))) as [->|Hne].
  - left. apply dict_get_del_eq.
  - right. by apply dict_get_del_ne.
Qed.

(** When it runs to its end, no key it went over is left with an
    identifier that the registry did not list. *)
Lemma remove_deleted_complete keys registered c deleted k value :
  (remove_deleted_metrics keys registered c deleted).1.1 = Next →
  k ∈ keys →
  dict_get k (metrics_uuid
                (remove_deleted_metrics keys registered c deleted).1.2)
    = Some (Some value) →
  value ∈ registered.
Proof.
  revert c deleted.
  induction keys as [|[[metric_name service_name] item] keys IH];
    intros c deleted Hflow Hk; [by apply elem_of_nil in Hk|].
  apply elem_of_cons in Hk as [->|Hk]; revert Hflow; simpl.
  - destruct (dict_get _ (metrics_uuid c)) as [[value'|]|] eqn:Hget; simpl;
      [| |done].
    + case_bool_decide as Hreg.
      * intros _ Hfinal.
        destruct (remove_deleted_monotone keys registered c deleted
                    (metric_name, service_name, item)) as [Hm|Hm];
          rewrite Hm in Hfinal; congruence.
      * intros _ Hfinal.
        edestruct remove_deleted_monotone as [Hm|Hm];
          rewrite Hm in Hfinal; [done|].
        simpl in Hfinal. by rewrite dict_get_del_eq in Hfinal.
    + intros _ Hfinal.
      destruct (remove_deleted_monotone keys registered c deleted
                  (metric_name, service_name, item)) as [Hm|Hm];
        rewrite Hm in Hfinal; congruence.
  - destruct (dict_get _ (metrics_uuid c)) as [[value'|]|]; simpl;
      [|intros; by eapply IH|done].
    case_bool_decide; intros; by eapply IH.
Qed.

(** Over the keys of a well-formed cache it raises no [KeyError]. *)
Lemma remove_deleted_runs keys registered c deleted :
  NoDup keys →
  (∀ k, k ∈ keys → is_Some (dict_get k (metrics_uuid c))) →
  (remove_deleted_metrics keys registered c deleted).1.1 = Next.
Proof.
  revert c deleted.
  induction keys as [|[[metric_name service_name] item] keys IH];
    intros c deleted Hnodup Hkeys; simpl; [done|].
  apply NoDup_cons in Hnodup as [Hfresh Hnodup].
  destruct (Hkeys (metric_name, service_name, item)) as [value Hget];
    [left|]. rewrite Hget.
  assert (∀ k, k ∈ keys → is_Some (dict_get k (metrics_uuid c))) as Hrest
    by (intros k Hk; apply Hkeys; by right).
  destruct value as [value|]; [|by apply IH].
  case_bool_decide; [by apply IH|]. apply IH; [done|].
  intros k Hk. simpl. rewrite dict_get_del_ne; [by apply Hrest|].
  intros ->. done.
Qed.

Lemma remove_deleted_NoDup keys registered c deleted :
  NoDup (dict_keys (metrics_uuid c)) →
  NoDup (dict_keys (metrics_uuid
                      (remove_deleted_metrics keys registered c deleted).1.2)).
Proof.
  revert c deleted.
  induction keys as [|[[metric_name service_name] item] keys IH];
    intros c deleted Hnodup; simpl; [done|].
  destruct (dict_get _ (metrics_uuid c)) as [[value|]|]; simpl;
    [|by apply IH|done].
  case_bool_decide; [by apply IH|].
  apply IH. simpl. rewrite dict_keys_del. by apply NoDup_filter.
Qed.

Section listing_facts.
Context {World : Type} (http : Request → World → Response * World).
Implicit Types (c : Connector) (n : Net World) (k : MetricKey).

Lemma get_page_calls r n :
  calls (get_page http r n).2 = calls n ++ [page_request r].
Proof. unfold get_page, request. by destruct (http _ (world n)). Qed.

(** The links followed cost one [GET] each; the only exception is that of
    a page without ['results']. *)
Lemma follow_pages_net fuel next n items f n' :
  follow_pages (get_page http) fuel next n = Some (items, f, n') →
  (f = Next ∨ f = Raised TypeError) ∧
  ∃ links, calls n' = calls n ++ (page_request <$> (NextPage <$> links)).
Proof.
  revert next n items f n'. induction fuel as [|fuel IH];
    intros next n items f n'; destruct next as [url|]; simpl;
    try (intros [= <- <- <-]; split; [by left|];
         exists []; by rewrite app_nil_r).
  - case_decide; [|done]. intros [= <- <- <-]. split; [by left|].
    exists []. by rewrite app_nil_r.
  - case_decide.
    { intros [= <- <- <-]. split; [by left|]. exists [].
      by rewrite app_nil_r. }
    pose proof (get_page_calls (NextPage url) n) as Hlog.
    destruct (get_page http (NextPage url) n) as [data n1]. simpl in Hlog.
    destruct data as [old|results next'].
    + intros [= <- <- <-]. split; [by right|]. by exists [url].
    + destruct (follow_pages _ fuel next' n1) as [[[items' f'] n2]|]
        eqn:Hrec; [|done].
      intros [= <- <- <-].
      destruct (IH _ _ _ _ _ Hrec) as (Hf & links & Hcalls).
      split; [done|]. exists (url :: links).
      rewrite Hcalls, Hlog, <- app_assoc. done.
Qed.

(** The listing of the metrics costs the [GET] of the first page, which
    asks for pages of 100, and one [GET] for each link followed. *)
Lemma list_metrics_net fuel c n metrics f n1 :
  list_metrics http fuel c n = Some (metrics, f, n1) →
  (f = Next ∨ f = Raised TypeError) ∧
  ∃ links,
    calls n1
    = calls n
        ++ page_request
             (FirstPage "/v1/metric/"
                [("agent"%string, agent_uuid c);
                 ("page_size"%string, "100"%string)] None)
           :: (page_request <$> (NextPage <$> links)).
Proof.
  unfold list_metrics, api_iterator.
  change (if dict_mem "page_size"%string [("agent"%string, agent_uuid c)]
          then [("agent"%string, agent_uuid c)]
          else dict_set "page_size"%string "100"%string
                 [("agent"%string, agent_uuid c)])
    with [("agent"%string, agent_uuid c); ("page_size"%string, "100"%string)].
  set (first := FirstPage _ _ _).
  pose proof (get_page_calls first n) as Hlog.
  destruct (get_page http first n) as [data n0]. simpl in Hlog.
  destruct data as [old|results next].
  - intros [= <- <- <-]. split; [by left|]. exists []. by rewrite Hlog.
  - destruct (follow_pages _ fuel next n0) as [[[items' f'] n2]|] eqn:Hrec;
      [|done].
    intros [= <- <- <-].
    destruct (follow_pages_net _ _ _ _ _ _ Hrec) as (Hf & links & Hcalls).
    split; [done|]. exists links.
    rewrite Hcalls, Hlog, <- app_assoc. done.
Qed.

(** [_retrive_threshold] is the listing followed, unless the listing
    raised, by the two loops. *)
Lemma retrive_threshold_cases fuel c n f c' n' :
  _retrive_threshold http fuel c n = Some (f, c', n') →
  ∃ metrics fl n1,
    list_metrics http fuel c n = Some (metrics, fl, n1) ∧
    ((fl = Raised TypeError ∧ f = Raised TypeError ∧ c' = c ∧ n' = n1)
     ∨ (fl = Next ∧ refresh_from http metrics c n1 = (f, c', n'))).
Proof.
  unfold _retrive_threshold.
  destruct (list_metrics http fuel c n) as [[[metrics fl] n1]|] eqn:Hlist;
    [|done].
  destruct (list_metrics_net _ _ _ _ _ _ Hlist) as [[->| ->] _].
  - intros [= Hrefresh]. exists metrics, Next, n1. split; [done|]. by right.
  - intros [= <- <- <-]. exists metrics, (Raised TypeError), n1.
    split; [done|]. by left.
Qed.

Lemma refresh_from_cache metrics c n k value :
  (refresh_from http metrics c n).1.1 = Next →
  dict_get k (metrics_uuid c) = Some (Some value) →
  value ∉ r_id <$> metrics →
  dict_get k (metrics_uuid (refresh_from http metrics c n).1.2) = None.
Proof.
  unfold refresh_from.
  pose proof (scan_registered http c metrics ∅ ∅ n value) as Hreg.
  destruct (scan_remote_metrics _ _ _ _ _ _)
    as [[[| |e] [registered thresholds]] n1]; simpl in *; [|done|done].
  pose proof (remove_deleted_monotone
                (dict_keys (metrics_uuid (set_thresholds thresholds c)))
                registered (set_thresholds thresholds c) [] k) as Hmono.
  pose proof (remove_deleted_complete
                (dict_keys (metrics_uuid (set_thresholds thresholds c)))
                registered (set_thresholds thresholds c) [] k value) as Hcompl.
  destruct (remove_deleted_metrics _ _ _ _) as [[[| |e] c2] deleted];
    simpl in *; [|done|done].
  intros _ Hget Hnotin.
  assert (dict_get k (metrics_uuid c2) = None) as Hnone.
  { destruct Hmono as [Hm|Hm]; [done|]. rewrite Hget in Hm.
    destruct Hreg as [Hin|Hin].
    - apply Hcompl; [done| |done].
      apply dict_get_Some_elem in Hget.
      unfold dict_keys. by apply (list_elem_of_fmap_2 fst) in Hget.
    - by apply elem_of_empty in Hin.
    - done. }
  by destruct deleted.
Qed.

(** The two loops run to their end when the connector is not in alerting
    mode and the cache has no duplicate key. *)
Lemma refresh_from_completes metrics c n :
  alerting_mode c = false →
  NoDup (dict_keys (metrics_uuid c)) →
  (refresh_from http metrics c n).1.1 = Next.
Proof.
  intros Hmode Hnodup. unfold refresh_from.
  pose proof (scan_completes http c metrics ∅ ∅ n Hmode) as Hscan.
  destruct (scan_remote_metrics _ _ _ _ _ _)
    as [[f [registered thresholds]] n1]; simpl in Hscan; subst f.
  pose proof (remove_deleted_runs
                (dict_keys (metrics_uuid (set_thresholds thresholds c)))
                registered (set_thresholds thresholds c) [] Hnodup) as Hrun.
  destruct (remove_deleted_metrics _ _ _ _) as [[f c2] deleted]; simpl in *.
  rewrite Hrun; [by destruct deleted|].
  intros k Hk. destruct (dict_get k (metrics_uuid c)) eqn:Hget; [eauto|].
  by apply dict_get_None in Hget.
Qed.

Lemma refresh_from_NoDup metrics c n :
  NoDup (dict_keys (metrics_uuid c)) →
  NoDup (dict_keys (metrics_uuid (refresh_from http metrics c n).1.2)).
Proof.
  intros Hnodup. unfold refresh_from.
  destruct (scan_remote_metrics _ _ _ _ _ _)
    as [[[| |e] [registered thresholds]] n1]; simpl; [|done|done].
  pose proof (remove_deleted_NoDup
                (dict_keys (metrics_uuid (set_thresholds thresholds c)))
                registered (set_thresholds thresholds c) [] Hnodup) as Hkeep.
  destruct (remove_deleted_metrics _ _ _ _) as [[[| |e] c2] deleted];
    simpl in *; [by destruct deleted|done|done].
Qed.

End listing_facts.

(** ** Container reconciliation *)

Section container_facts.
Context {World : Type} (http : Request → World → Response * World).
Context (sha1_hexdigest : string → string).
Implicit Types (c : Connector) (n : Net World) (name : string).

Lemma register_containers_frame l c n :
  docker_containers (register_containers http sha1_hexdigest l c n).1
    = docker_containers c ∧
  (∀ name, name ∉ l.*1 →
     dict_get name (docker_container_uuid
                      (register_containers http sha1_hexdigest l c n).1)
       = dict_get name (docker_container_uuid c)) ∧
  (NoDup (dict_keys (docker_container_uuid c)) →
   NoDup (dict_keys (docker_container_uuid
                       (register_containers http sha1_hexdigest l c n).1))) ∧
  (identified (docker_container_uuid c) →
   identified (docker_container_uuid
                 (register_containers http sha1_hexdigest l c n).1)).
Proof.
  revert c n. induction l as [|[name' inspect] l IH]; intros c n.
  { simpl. split_and!; done. }
  cbn [register_containers]. rewrite fmap_cons. cbn [fst].
  assert (∀ c' n',
    docker_containers c' = docker_containers c →
    (∀ name, name ≠ name' →
       dict_get name (docker_container_uuid c')
         = dict_get name (docker_container_uuid c)) →
    (NoDup (dict_keys (docker_container_uuid c)) →
     NoDup (dict_keys (docker_container_uuid c'))) →
    (identified (docker_container_uuid c) →
     identified (docker_container_uuid c')) →
    docker_containers (register_containers http sha1_hexdigest l c' n').1
      = docker_containers c ∧
    (∀ name, name ∉ name' :: l.*1 →
       dict_get name (docker_container_uuid
                        (register_containers http sha1_hexdigest l c' n').1)
         = dict_get name (docker_container_uuid c)) ∧
    (NoDup (dict_keys (docker_container_uuid c)) →
     NoDup (dict_keys (docker_container_uuid
                         (register_containers http sha1_hexdigest l c' n').1))) ∧
    (identified (docker_container_uuid c) →
     identified (docker_container_uuid
                   (register_containers http sha1_hexdigest l c' n').1)))
    as Hnext.
  { intros c' n' Hd Hget Hnodup Hid.
    destruct (IH c' n') as (Hd' & Hget' & Hnodup' & Hid').
    split_and!.
    - congruence.
    - intros name [Hne Hname]%not_elem_of_cons.
      rewrite Hget' by done. by apply Hget.
    - auto.
    - auto. }
  destruct (default (None, None) (dict_get name' (docker_container_uuid c)))
    as [old_hash obj_uuid].
  case_decide; [by apply Hnext|].
  destruct (match obj_uuid with
            | Some _ => _
            | None => _
            end) as [method url].
  destruct (request http _ n) as [response n1].
  destruct (negb _); [by apply Hnext|].
  apply Hnext; simpl.
  - done.
  - intros name Hne. by apply dict_get_set_ne.
  - intros Hnodup. rewrite dict_keys_set.
    destruct (dict_mem name' (docker_container_uuid c)) eqn:Hmem; [done|].
    apply NoDup_app. split_and!; [done| |apply NoDup_singleton].
    intros x Hx ->%list_elem_of_singleton.
    by apply dict_mem_false, dict_get_None in Hmem.
  - intros Hid name entry.
    destruct (decide (name = name')) as [->|Hne].
    + rewrite dict_get_set_eq. intros [= <-]. simpl. eauto.
    + rewrite dict_get_set_ne by done. apply Hid.
Qed.

Lemma delete_containers_monotone names now c n :
  (∀ r, r ∈ calls n →
        r ∈ calls (delete_containers http names now c n).2) ∧
  (∀ name, dict_get name (docker_container_uuid c) = None →
           dict_get name
             (docker_container_uuid
                (delete_containers http names now c n).1.2) = None) ∧
  (last_containers_removed c = now →
   last_containers_removed (delete_containers http names now c n).1.2 = now).
Proof.
  revert c n. induction names as [|name' names IH]; intros c n; simpl.
  { done. }
  destruct (dict_get name' (docker_container_uuid c))
    as [[old_hash [obj_uuid|]]|]; simpl; [|done|done].
  unfold request. destruct (http _ (world n)) as [response w].
  destruct (negb _).
  - destruct (IH c {| world := w;
                      calls := calls n ++ [delete_container obj_uuid] |})
      as (Hcalls & Hnone & Htime).
    split_and!; [|done|done].
    intros r Hr. apply Hcalls. simpl. apply elem_of_app. by left.
  - destruct (IH (set_last_containers_removed now
                    (set_docker_container_uuid
                       (dict_del name' (docker_container_uuid c)) c))
                {| world := w;
                   calls := calls n ++ [delete_container obj_uuid] |})
      as (Hcalls & Hnone & Htime).
    split_and!.
    + intros r Hr. apply Hcalls. simpl. apply elem_of_app. by left.
    + intros name Hname. apply Hnone. simpl.
      destruct (decide (name = name')) as [->|Hne].
      * apply dict_get_del_eq.
      * by rewrite dict_get_del_ne.
    + intros _. by apply Htime.
Qed.

(** Against a registry that answers every [DELETE] with 204 or 404, the
    second loop deletes every container it is given, remotely and from
    the cache. *)
Lemma delete_containers_deletes names now c n :
  (∀ r w, method r = DELETE →
          status_code (http r w).1 = 204 ∨ status_code (http r w).1 = 404) →
  NoDup names →
  (∀ name, name ∈ names →
     ∃ old_hash obj_uuid,
       dict_get name (docker_container_uuid c)
         = Some (old_hash, Some obj_uuid)) →
  (delete_containers http names now c n).1.1 = Next ∧
  ∀ name old_hash obj_uuid,
    name ∈ names →
    dict_get name (docker_container_uuid c) = Some (old_hash, Some obj_uuid) →
    delete_container obj_uuid
      ∈ calls (delete_containers http names now c n).2 ∧
    dict_get name
      (docker_container_uuid (delete_containers http names now c n).1.2)
      = None ∧
    last_containers_removed (delete_containers http names now c n).1.2 = now.
Proof.
  intros Haccept. revert c n.
  induction names as [|name' names IH]; intros c n Hnodup Hnames.
  { split; [done|]. intros name ? ? Hin. by apply elem_of_nil in Hin. }
  apply NoDup_cons in Hnodup as [Hfresh Hnodup].
  destruct (Hnames name') as (old_hash' & obj_uuid' & Hget'); [left|].
  simpl. rewrite Hget'. unfold request.
  pose proof (Haccept (delete_container obj_uuid') (world n) eq_refl) as Hcode.
  fold (delete_container obj_uuid').
  destruct (http (delete_container obj_uuid') (world n)) as [response w].
  simpl in Hcode.
  assert (negb ((status_code response =? 204)
                || (status_code response =? 404)) = false) as ->.
  { destruct Hcode as [-> | ->]; reflexivity. }
  set (c1 := set_last_containers_removed now
               (set_docker_container_uuid
                  (dict_del name' (docker_container_uuid c)) c)).
  set (n1 := {| world := w;
                calls := calls n ++ [delete_container obj_uuid'] |}).
  assert (∀ name, name ∈ names →
            dict_get name (docker_container_uuid c1)
              = dict_get name (docker_container_uuid c)) as Hsame.
  { intros name Hin. simpl. apply dict_get_del_ne. by intros ->. }
  destruct (IH c1 n1 Hnodup) as [Hflow Hdel].
  { intros name Hin. rewrite Hsame by done. apply Hnames. by right. }
  split; [done|].
  destruct (delete_containers_monotone names now c1 n1)
    as (Hcalls & Hnone & Htime).
  intros name old_hash obj_uuid [->|Hin]%elem_of_cons Hget.
  - rewrite Hget' in Hget. injection Hget as <- <-. split_and!.
    + apply Hcalls. simpl. apply elem_of_app. right. left.
    + apply Hnone. simpl. apply dict_get_del_eq.
    + by apply Htime.
  - apply (Hdel name old_hash obj_uuid Hin). by rewrite Hsame.
Qed.

End container_facts.

Section container_deletion.
Context {World : Type} (http : Request → World → Response * World).
Implicit Types (c : Connector) (n : Net World) (name : string).



End container_deletion.




(** * Further properties *)

(** ** Drain loop and transport *)

Lemma loop_run_returns (c : Connector) :
  ∃ c' l',
    loop_run (2 * length (_metric_queue c) + 1) c
      {| metrics := []; repush_metric := None |} = Some (c', l') ∧
    _loop c =
      if negb (Z.of_nat (length (metrics l')) =? 0)
      then publish (topic c' "data") (DataMsg (metrics l')) false c'
      else c'.
Proof.
  destruct (loop_run_terminates c) as (c' & l' & Hrun).
  exists c', l'. split; [exact Hrun|].
  unfold _loop. unfold loop_fuel in Hrun. unfold loop_fuel. by rewrite Hrun.
Qed.

(** X1: a call of [_loop] during which no other thread touches the
    queue or the identity cache returns.  Whatever is queued and cached
    when it starts, its [while True] loop is then left after at most
    [2 * len(queue) + 1] iterations: a point of an unresolved identity is
    read at most twice.  (The bound is about the call on its own: points
    emitted or identities registered while it runs are outside of it.) *)
Theorem loop_returns (c : Connector) :
  ∃ c' l',
    loop_run (2 * length (_metric_queue c) + 1) c
      {| metrics := []; repush_metric := None |} = Some (c', l') ∧
    _loop c =
      if negb (Z.of_nat (length (metrics l')) =? 0)
      then publish (topic c' "data") (DataMsg (metrics l')) false c'
      else c'.
Proof. apply loop_run_returns. Qed.

Lemma set_metric_queue_idem q q' c :
  set_metric_queue q (set_metric_queue q' c) = set_metric_queue q c.
Proof. reflexivity. Qed.

Lemma set_metric_queue_id c : set_metric_queue (_metric_queue c) c = c.
Proof. by destruct c. Qed.

Lemma loop_step_frame c l :
  ∃ q, (step_state (loop_step c l)).1 = set_metric_queue q c ∧
       (length q ≤ length (_metric_queue c))%nat.
Proof.
  unfold loop_step. destruct (_metric_queue c) as [|metric rest] eqn:Hqueue.
  { exists []. simpl. split; [|done]. by rewrite <- Hqueue, set_metric_queue_id. }
  cbv zeta. cbn [metrics_uuid set_metric_queue _metric_queue].
  case_decide.
  { exists rest. simpl. split; [done|lia]. }
  destruct (default _ _) as [metric_uuid|].
  - exists rest. destruct (1000 <? _); simpl; (split; [done|lia]).
  - exists (rest ++ [metric]).
    destruct (repush_metric l); [case_decide|]; simpl;
      (split; [done|rewrite length_app; simpl; lia]).
Qed.

Lemma loop_run_frame fuel c l c' l' :
  loop_run fuel c l = Some (c', l') →
  ∃ q, c' = set_metric_queue q c ∧
       (length q ≤ length (_metric_queue c))%nat.
Proof.
  revert c l. induction fuel as [|fuel IH]; intros c l; simpl; [done|].
  destruct (loop_step_frame c l) as (q & Hq & Hlen).
  destruct (loop_step c l) as [c1 l1|c1 l1]; simpl in Hq; subst c1.
  - intros Hrun. destruct (IH _ _ Hrun) as (q' & -> & Hlen').
    exists q'. split; [done|]. simpl in Hlen'. lia.
  - intros [= <- <-]. eauto.
Qed.

(** X2: [_loop] changes nothing but the queue and what is handed to the
    MQTT client.  The connector it returns is the one it was given with a
    queue that is no longer than before, and at most one more message,
    a batch on the agent's data topic, handed to the client and counted
    in flight. *)
Theorem loop_touches_queue_and_transport_only (c : Connector) :
  ∃ q,
    (length q ≤ length (_metric_queue c))%nat ∧
    (_loop c = set_metric_queue q c ∨
     ∃ batch, _loop c = mqtt_publish (topic c "data") (DataMsg batch)
                          (set_metric_queue q c)).
Proof.
  destruct (loop_run_returns c) as (c' & l' & Hrun & ->).
  destruct (loop_run_frame _ _ _ _ _ Hrun) as (q & -> & Hlen).
  exists q. split; [done|].
  destruct (negb _); [|by left].
  unfold publish. destruct (_ && _); [by left|right]. eauto.
Qed.

Lemma bleemeo_metric_of_queue q c metric :
  bleemeo_metric_of (set_metric_queue q c) metric = bleemeo_metric_of c metric.
Proof. reflexivity. Qed.

Lemma loop_run_known q fuel c l :
  _metric_queue c = q →
  (∀ metric, metric ∈ q →
     dict_get (key_of metric) (metrics_uuid c) ≠ Some None) →
  (length (metrics l) + length (omap (bleemeo_metric_of c) q) ≤ 1000)%nat →
  (length q < fuel)%nat →
  loop_run fuel c l =
  Some (set_metric_queue [] c,
        {| metrics := metrics l ++ omap (bleemeo_metric_of c) q;
           repush_metric := repush_metric l |}).
Proof.
  revert fuel c l. induction q as [|metric rest IH];
    intros fuel c l Hqueue Hknown Hlen Hfuel;
    (destruct fuel as [|fuel]; [simpl in Hfuel; lia|]);
    rewrite loop_run_S; unfold loop_step; rewrite Hqueue.
  { simpl. rewrite app_nil_r. rewrite <- Hqueue, set_metric_queue_id.
    by destruct l. }
  cbv zeta.
  change (measurement metric, service metric, item metric)
    with (key_of metric).
  cbn [metrics_uuid set_metric_queue _metric_queue].
  assert (dict_get (key_of metric) (metrics_uuid c) ≠ Some None) as Hmetric
    by (apply Hknown; left).
  assert (∀ m, m ∈ rest →
            dict_get (key_of m) (metrics_uuid (set_metric_queue rest c))
              ≠ Some None) as Hrest
    by (intros m Hm; apply Hknown; by right).
  assert (length rest < fuel)%nat as Hfuel' by (simpl in Hfuel; lia).
  assert (omap (bleemeo_metric_of c) (metric :: rest) =
          match bleemeo_metric_of c metric with
          | Some b => b :: omap (bleemeo_metric_of c) rest
          | None => omap (bleemeo_metric_of c) rest
          end) as Homap by reflexivity.
  rewrite Homap in *. clear Homap.
  assert (bleemeo_metric_of c metric =
          match dict_get (key_of metric) (metrics_uuid c) with
          | Some (Some metric_uuid) =>
              if decide (metric_uuid = "deleted"%string) then None
              else Some {| point := metric; uuid := metric_uuid |}
          | _ => None
          end) as Hbm by reflexivity.
  destruct (dict_get (key_of metric) (metrics_uuid c))
    as [[metric_uuid|]|] eqn:Hget; [| done |];
    unfold default; cbn [from_option id].
  - destruct (decide (metric_uuid = "deleted"%string)) as [->|Hne].
    + rewrite decide_True by done. rewrite Hbm in *.
      by rewrite (IH fuel (set_metric_queue rest c) l eq_refl Hrest).
    + rewrite decide_False by congruence. rewrite Hbm in *.
      simpl in Hlen.
      cbn [metrics]. rewrite length_app. cbn [length].
      destruct (Z.ltb_spec 1000 (Z.of_nat (length (metrics l) + 1))) as [Hgt|_];
        [exfalso; clear -Hlen Hgt; lia|].
      rewrite (IH fuel (set_metric_queue rest c) _ eq_refl Hrest);
        cbn [metrics repush_metric];
        [|rewrite length_app; cbn [length];
          change (bleemeo_metric_of (set_metric_queue rest c))
            with (bleemeo_metric_of c); clear -Hlen; lia|done].
      by rewrite <- app_assoc.
  - rewrite decide_True by done. rewrite Hbm in *.
    by rewrite (IH fuel (set_metric_queue rest c) l eq_refl Hrest).
Qed.

(** X3: with no unresolved identity among the queued points and at most
    1000 of them publishable, [_loop] empties the queue and hands the MQTT
    client, as one batch and in queue order, every queued point whose
    identity has a remote identifier, carrying that identifier; points of
    identities that are unknown to the cache are dropped, and nothing is
    published when the batch is empty. *)
Theorem loop_publishes_known_points_in_order (c : Connector) :
  (∀ metric, metric ∈ _metric_queue c →
     dict_get (key_of metric) (metrics_uuid c) ≠ Some None) →
  (length (omap (bleemeo_metric_of c) (_metric_queue c)) ≤ 1000)%nat →
  _loop c =
  match omap (bleemeo_metric_of c) (_metric_queue c) with
  | [] => set_metric_queue [] c
  | batch => publish (topic c "data") (DataMsg batch) false
               (set_metric_queue [] c)
  end.
Proof.
  intros Hknown Hlen. unfold _loop.
  rewrite (loop_run_known (_metric_queue c) (loop_fuel c) c
             {| metrics := []; repush_metric := None |} eq_refl Hknown);
    [|simpl; lia|unfold loop_fuel; lia].
  cbn [metrics app].
  by destruct (omap (bleemeo_metric_of c) (_metric_queue c)).
Qed.

Lemma loop_publishes_known_points_in_order_witness :
  _loop (busy 3) =
  publish (topic (busy 3) "data")
    (DataMsg [{| point := plain_point 0 "cpu_used"; uuid := "u1" |};
              {| point := plain_point 1 "cpu_used"; uuid := "u1" |};
              {| point := plain_point 2 "cpu_used"; uuid := "u1" |}])
    false (set_metric_queue [] (busy 3)).
Proof.
  apply (loop_publishes_known_points_in_order (busy 3)).
  - intros metric Hin. simpl in Hin.
    repeat (apply elem_of_cons in Hin as [->|Hin]; [by vm_compute|]).
    by apply elem_of_nil in Hin.
  - vm_compute. lia.
Defined.

(** X4: the in-flight counter has a bound.  Starting at or below
    [MQTT_QUEUE_MAX_SIZE + 1], no sequence of publications without
    [force] and of deliveries takes [_mqtt_queue_size] above
    [MQTT_QUEUE_MAX_SIZE + 1]: [publish] still accepts a message when the
    counter equals the ceiling. *)
Theorem mqtt_queue_size_bounded (c : Connector) (events : list mqtt_event) :
  _mqtt_queue_size c ≤ MQTT_QUEUE_MAX_SIZE + 1 →
  _mqtt_queue_size (foldl mqtt_step c events) ≤ MQTT_QUEUE_MAX_SIZE + 1.
Proof.
  revert c. induction events as [|e events IH]; intros c Hc; [done|].
  simpl. apply IH. destruct e as [t msg|]; simpl.
  - unfold publish. rewrite andb_true_r.
    destruct (Z.ltb_spec MQTT_QUEUE_MAX_SIZE (_mqtt_queue_size c));
      simpl; lia.
  - lia.
Qed.

Lemma mqtt_queue_size_bounded_witness :
  _mqtt_queue_size
    (foldl mqtt_step (set_mqtt_queue_size 2000 fresh)
       [Published "v1/agent/a1/data" (DataMsg []);
        Published "v1/agent/a1/data" (DataMsg []);
        Delivered;
        Published "v1/agent/a1/data" (DataMsg [])])
    ≤ MQTT_QUEUE_MAX_SIZE + 1 ∧
  _mqtt_queue_size
    (foldl mqtt_step (set_mqtt_queue_size 2000 fresh)
       [Published "v1/agent/a1/data" (DataMsg [])])
    = MQTT_QUEUE_MAX_SIZE + 1.
Proof.
  split; [|reflexivity].
  apply (mqtt_queue_size_bounded (set_mqtt_queue_size 2000 fresh)).
  vm_compute. discriminate.
Defined.

Lemma after_emit_cache_kept metric c k value :
  dict_get k (metrics_uuid c) = Some value →
  dict_get k (metrics_uuid (after_emit metric c)) = Some value.
Proof.
  intros Hk. rewrite after_emit_unfold.
  destruct (sent_metric _ _ _) as [[]|]; try done.
  rewrite record_metric_uuid. case_match; [done|].
  unfold dict_setdefault. case_match; [done|].
  by rewrite dict_get_app, Hk.
Qed.

(** X5: emitting points never loses what the registry has told the
    agent.  Across any sequence of emissions, whatever the identities
    and metadata of the points, an identity that is in [metrics_uuid]
    keeps the value it has there (a remote identifier stays that
    identifier) and an identity that has info in [metrics_info] keeps
    that info. *)
Theorem emit_metrics_keep_cache_and_info (c : Connector)
  (emitted : list Metric) (k : MetricKey) :
  (∀ value, dict_get k (metrics_uuid c) = Some value →
            dict_get k (metrics_uuid (emit_metrics emitted c)) = Some value) ∧
  (∀ info, metrics_info c !! k = Some info →
           metrics_info (emit_metrics emitted c) !! k = Some info).
Proof.
  revert c. induction emitted as [|metric emitted IH]; intros c; [done|].
  simpl. destruct (IH (after_emit metric c)) as [Hcache Hinfo]. split.
  - intros value Hk. by apply Hcache, after_emit_cache_kept.
  - intros info Hk. by apply Hinfo, after_emit_info_kept.
Qed.

Lemma emit_metrics_keep_cache_and_info_witness :
  dict_get ("cpu_used"%string, None, None)
    (metrics_uuid
       (emit_metrics [container_point 7 "cpu_used" "web1";
                      plain_point 8 "mem_used"] one_registered))
    = Some (Some "u1"%string) ∧
  metrics_info
    (emit_metrics [container_point 7 "cpu_used" "web1";
                   plain_point 8 "mem_used"] one_registered)
    !! ("cpu_used"%string, None, None)
    = Some (info_of (plain_point 0 "cpu_used")).
Proof.
  destruct (emit_metrics_keep_cache_and_info one_registered
              [container_point 7 "cpu_used" "web1"; plain_point 8 "mem_used"]
              ("cpu_used"%string, None, None)) as [Hcache Hinfo].
  split; [apply Hcache | apply Hinfo]; vm_compute; reflexivity.
Defined.

(** ** Metric registration pass *)

Section pass_facts.
Context {World : Type} (http : Request → World → Response * World).
Implicit Types (c : Connector) (n : Net World) (k : MetricKey).

(** What an iteration never touches. *)
Lemma register_one_static metric_key c n :
  services_uuid (register_one http metric_key c n).1.2 = services_uuid c ∧
  docker_containers (register_one http metric_key c n).1.2
    = docker_containers c ∧
  docker_container_uuid (register_one http metric_key c n).1.2
    = docker_container_uuid c ∧
  agent_uuid (register_one http metric_key c n).1.2 = agent_uuid c ∧
  _metric_queue (register_one http metric_key c n).1.2 = _metric_queue c.
Proof.
  destruct (register_one_cases http metric_key c n)
    as (c' & -> & [->|[->|[->|(id & t & ->)]]]); done.
Qed.

Lemma register_one_calls metric_key c n :
  calls (register_one http metric_key c n).2 = calls n ∨
  ∃ r, calls (register_one http metric_key c n).2 = calls n ++ [r].
Proof.
  unfold register_one. destruct (prepare_metric metric_key c); [by left..|].
  unfold request. destruct (http _ (world n)) as [response w].
  right. eexists. by destruct (negb _).
Qed.

(** Only the entries that the snapshot holds as unresolved are worked
    on. *)
Lemma register_metrics_frame_resolved list_metrics c n k :
  (k, None) ∉ list_metrics →
  dict_get k (metrics_uuid (register_metrics http list_metrics c n).1.2)
    = dict_get k (metrics_uuid c) ∧
  metrics_info (register_metrics http list_metrics c n).1.2 !! k
    = metrics_info c !! k.
Proof.
  revert c n.
  induction list_metrics as [|[metric_key metric_uuid] list_metrics IH];
    intros c n Hk; [done|].
  apply not_elem_of_cons in Hk as [Hne Hk].
  simpl. destruct metric_uuid as [?|]; [by apply IH|].
  assert (k ≠ metric_key) as Hne' by congruence.
  pose proof (register_one_frame http metric_key c n k Hne') as Hone.
  destruct (register_one http metric_key c n) as [[[| |e] c1] n1];
    simpl in Hone; [|done|done].
  destruct (IH c1 n1 Hk) as [-> ->]. done.
Qed.

(** In a pass that runs to its end, every unresolved entry of the
    snapshot has had its iteration, in a state that differs from the
    initial one only by what earlier iterations did to their own
    entries. *)
Lemma register_metrics_visit list_metrics c n k :
  NoDup list_metrics.*1 →
  (k, None) ∈ list_metrics →
  (register_metrics http list_metrics c n).1.1 = Next →
  ∃ ck nk,
    services_uuid ck = services_uuid c ∧
    docker_containers ck = docker_containers c ∧
    docker_container_uuid ck = docker_container_uuid c ∧
    agent_uuid ck = agent_uuid c ∧
    metrics_info ck !! k = metrics_info c !! k ∧
    (register_one http k ck nk).1.1 = Next ∧
    dict_get k (metrics_uuid (register_metrics http list_metrics c n).1.2)
      = dict_get k (metrics_uuid (register_one http k ck nk).1.2) ∧
    metrics_info (register_metrics http list_metrics c n).1.2 !! k
      = metrics_info (register_one http k ck nk).1.2 !! k.
Proof.
  revert c n.
  induction list_metrics as [|[metric_key metric_uuid] list_metrics IH];
    intros c n Hnodup Hin; [by apply elem_of_nil in Hin|].
  rewrite fmap_cons in Hnodup. apply NoDup_cons in Hnodup as [Hfresh Hnodup].
  cbn [fst] in Hfresh.
  apply elem_of_cons in Hin as [[= <- <-]|Hin].
  - simpl.
    pose proof (register_metrics_frame http list_metrics
                  (register_one http k c n).1.2 (register_one http k c n).2
                  k Hfresh) as [Hcache Hinfo].
    destruct (register_one http k c n) as [[[| |e] c1] n1] eqn:Hone;
      simpl in *; [|done|done].
    intros _. exists c, n. rewrite Hone. simpl. split_and!; done.
  - assert (k ≠ metric_key) as Hne.
    { intros ->. apply Hfresh.
      by apply (list_elem_of_fmap_2 fst) in Hin. }
    simpl. destruct metric_uuid as [?|]; [by apply IH|].
    pose proof (register_one_frame http metric_key c n k Hne) as [_ Hinfo1].
    pose proof (register_one_static metric_key c n)
      as (Hs & Hd & Hu & Ha & _).
    destruct (register_one http metric_key c n) as [[[| |e] c1] n1];
      simpl in *; [|done|done].
    intros Hflow.
    destruct (IH c1 n1 Hnodup Hin Hflow)
      as (ck & nk & ? & ? & ? & ? & ? & ? & ? & ?).
    exists ck, nk. split_and!; congruence.
Qed.

Lemma register_metrics_calls list_metrics c n :
  (length (calls (register_metrics http list_metrics c n).2)
   ≤ length (calls n)
     + length (filter (λ entry, entry.2 = None) list_metrics))%nat.
Proof.
  revert c n.
  induction list_metrics as [|[metric_key metric_uuid] list_metrics IH];
    intros c n; [simpl; lia|].
  rewrite filter_cons. simpl.
  destruct metric_uuid as [?|].
  { rewrite decide_False by done. apply IH. }
  rewrite decide_True by done. simpl.
  pose proof (register_one_calls metric_key c n) as Hcalls.
  destruct (register_one http metric_key c n) as [[[| |e] c1] n1];
    simpl in Hcalls.
  - specialize (IH c1 n1).
    destruct Hcalls as [Heq|[r Heq]]; rewrite Heq in IH;
      [|rewrite length_app in IH; simpl in IH]; lia.
  - simpl. destruct Hcalls as [->|[r ->]];
      [|rewrite length_app; simpl]; lia.
  - simpl. destruct Hcalls as [->|[r ->]];
      [|rewrite length_app; simpl]; lia.
Qed.

End pass_facts.

Lemma dict_get_NoDup {K V : Type} `{EqDecision K} (k : K) (v : V)
  (d : dict K V) :
  NoDup (dict_keys d) → (k, v) ∈ d → dict_get k d = Some v.
Proof.
  unfold dict_keys. induction d as [|[k' v'] d IH]; intros Hnodup Hin.
  { by apply elem_of_nil in Hin. }
  rewrite fmap_cons in Hnodup. apply NoDup_cons in Hnodup as [Hfresh Hnodup].
  simpl. apply elem_of_cons in Hin as [[= <- <-]|Hin].
  - by rewrite decide_True.
  - rewrite decide_False; [by apply IH|].
    intros ->. apply Hfresh. by apply (list_elem_of_fmap_2 fst) in Hin.
Qed.

(** X6: a pass that runs to its end clears the stale entries.  An
    identity that the cache holds as unresolved and that has no info
    (cached by a previous run, not seen since startup) is no longer in
    the cache after the pass. *)
Theorem stale_entry_purged {World : Type}
  (http : Request → World → Response * World) (c : Connector) (n : Net World)
  (k : MetricKey) :
  NoDup (dict_keys (metrics_uuid c)) →
  dict_get k (metrics_uuid c) = Some None →
  metrics_info c !! k = None →
  (_register_metric http c n).1.1 = Next →
  dict_mem k (metrics_uuid (_register_metric http c n).1.2) = false.
Proof.
  intros Hnodup Hget Hinfo Hflow. unfold _register_metric in *.
  destruct (register_metrics_visit http (metrics_uuid c) c n k Hnodup
              (dict_get_Some_elem _ _ _ Hget) Hflow)
    as (ck & nk & _ & _ & _ & _ & Hinfok & _ & Hfinal & _).
  apply dict_mem_false. rewrite Hfinal.
  unfold register_one, prepare_metric. destruct k as [[metric_name service] item].
  rewrite Hinfok, Hinfo. simpl. apply dict_get_del_eq.
Qed.

Lemma stale_entry_purged_witness :
  dict_get ("old_metric"%string, None, None) (metrics_uuid stale_entry)
    = Some None ∧
  metrics_info stale_entry !! ("old_metric"%string, None, None) = None ∧
  dict_mem ("old_metric"%string, None, None)
    (metrics_uuid (_register_metric (registry_refusing "") stale_entry
                     offline).1.2) = false.
Proof.
  split; [reflexivity|]. split; [reflexivity|].
  apply (stale_entry_purged (registry_refusing "") stale_entry offline).
  - apply (bool_decide_unpack _). vm_compute. exact I.
  - reflexivity.
  - reflexivity.
  - vm_compute. reflexivity.
Defined.

Lemma register_metric_resolves_independent {World : Type}
  (http : Request → World → Response * World) (c : Connector) (n : Net World)
  (k : MetricKey) (info : MetricInfo) :
  NoDup (dict_keys (metrics_uuid c)) →
  dict_get k (metrics_uuid c) = Some None →
  metrics_info c !! k = Some info →
  info_status_of info = None →
  info_container info = None →
  k.1.2 = None →
  (_register_metric http c n).1.1 = Next →
  ∃ metric_uuid,
    dict_get k (metrics_uuid (_register_metric http c n).1.2)
      = Some (Some metric_uuid).
Proof.
  intros Hnodup Hget Hinfo Hstatus Hcontainer Hservice Hflow.
  unfold _register_metric in *.
  destruct (register_metrics_visit http (metrics_uuid c) c n k Hnodup
              (dict_get_Some_elem _ _ _ Hget) Hflow)
    as (ck & nk & _ & _ & _ & _ & Hinfok & Hone & Hfinal & _).
  rewrite Hfinal. revert Hone. unfold register_one, prepare_metric.
  destruct k as [[metric_name service] item]. simpl in Hservice. subst service.
  rewrite Hinfok, Hinfo, Hstatus, Hcontainer.
  destruct (request http _ nk) as [response n1].
  destruct (negb _); simpl; [done|]. intros _.
  exists (json_id response). apply dict_get_set_eq.
Qed.

(** X7: a pass that runs to its end has registered every metric that
    depends on nothing.  An unresolved identity with info, without
    status-of parent, container or service, is cached with a remote
    identifier after the pass. *)
Theorem independent_metric_registered {World : Type}
  (http : Request → World → Response * World) (c : Connector) (n : Net World)
  (k : MetricKey) (info : MetricInfo) :
  NoDup (dict_keys (metrics_uuid c)) →
  dict_get k (metrics_uuid c) = Some None →
  metrics_info c !! k = Some info →
  info_status_of info = None →
  info_container info = None →
  k.1.2 = None →
  (_register_metric http c n).1.1 = Next →
  ∃ metric_uuid,
    dict_get k (metrics_uuid (_register_metric http c n).1.2)
      = Some (Some metric_uuid).
Proof. apply register_metric_resolves_independent. Qed.

Lemma independent_metric_registered_witness :
  dict_get ("mem_used"%string, None, None) (metrics_uuid two_unregistered)
    = Some None ∧
  (_register_metric (registry_refusing "") two_unregistered offline).1.1
    = Next ∧
  ∃ metric_uuid,
    dict_get ("mem_used"%string, None, None)
      (metrics_uuid (_register_metric (registry_refusing "") two_unregistered
                       offline).1.2) = Some (Some metric_uuid).
Proof.
  split; [reflexivity|]. split; [vm_compute; reflexivity|].
  apply (independent_metric_registered (registry_refusing "")
           two_unregistered offline ("mem_used"%string, None, None)
           (info_of (plain_point 1 "mem_used"))).
  - apply (bool_decide_unpack _). vm_compute. exact I.
  - reflexivity.
  - vm_compute. reflexivity.
  - reflexivity.
  - reflexivity.
  - reflexivity.
  - vm_compute. reflexivity.
Defined.

Lemma register_metrics_blocked {World : Type}
  (http : Request → World → Response * World)
  (list_metrics : list (MetricKey * option string))
  (c : Connector) (n : Net World) (k : MetricKey) (info : MetricInfo)
  (service_name : string) :
  NoDup list_metrics.*1 →
  (k, None) ∈ list_metrics →
  metrics_info c !! k = Some info →
  info_status_of info = None →
  info_container info = None →
  k.1.2 = Some service_name →
  services_uuid c !! (service_name, info_instance info) = None →
  (register_metrics http list_metrics c n).1.1 ≠ Next ∧
  dict_get k (metrics_uuid (register_metrics http list_metrics c n).1.2)
    = dict_get k (metrics_uuid c).
Proof.
  intros Hnodup Hin Hinfo Hstatus Hcontainer Hservice.
  revert c n Hnodup Hin Hinfo.
  induction list_metrics as [|[metric_key metric_uuid] list_metrics IH];
    intros c n Hnodup Hin Hinfo Hmissing; [by apply elem_of_nil in Hin|].
  rewrite fmap_cons in Hnodup. apply NoDup_cons in Hnodup as [Hfresh Hnodup].
  cbn [fst] in Hfresh.
  apply elem_of_cons in Hin as [[= <- <-]|Hin].
  - simpl. unfold register_one, prepare_metric.
    destruct k as [[metric_name service] item]. simpl in Hservice.
    subst service. rewrite Hinfo, Hstatus, Hcontainer, Hmissing. done.
  - assert (k ≠ metric_key) as Hne.
    { intros ->. apply Hfresh.
      by apply (list_elem_of_fmap_2 fst) in Hin. }
    simpl. destruct metric_uuid as [?|]; [by apply IH|].
    pose proof (register_one_frame http metric_key c n k Hne)
      as [Hcache1 Hinfo1].
    pose proof (register_one_static http metric_key c n) as (Hs & _).
    destruct (register_one http metric_key c n) as [[[| |e] c1] n1];
      simpl in *; [|done|done].
    destruct (IH c1 n1 Hnodup Hin) as [Hflow Hcache];
      [congruence|congruence|].
    split; [done|congruence].
Qed.

(** X8: an unresolved metric of a service that is not in [services_uuid]
    stops every pass.  If such a metric has info and neither status-of
    parent nor container, the pass does not run to its end — reading
    [services_uuid[(service, instance)]] raises [KeyError], unless the
    pass has ended before — and the metric is still unresolved
    afterwards. *)
Theorem unregistered_service_stops_pass {World : Type}
  (http : Request → World → Response * World) (c : Connector) (n : Net World)
  (k : MetricKey) (info : MetricInfo) (service_name : string) :
  NoDup (dict_keys (metrics_uuid c)) →
  dict_get k (metrics_uuid c) = Some None →
  metrics_info c !! k = Some info →
  info_status_of info = None →
  info_container info = None →
  k.1.2 = Some service_name →
  services_uuid c !! (service_name, info_instance info) = None →
  (_register_metric http c n).1.1 ≠ Next ∧
  dict_get k (metrics_uuid (_register_metric http c n).1.2) = Some None.
Proof.
  intros Hnodup Hget Hinfo Hstatus Hcontainer Hservice Hmissing.
  unfold _register_metric.
  destruct (register_metrics_blocked http (metrics_uuid c) c n k info
              service_name Hnodup (dict_get_Some_elem _ _ _ Hget) Hinfo
              Hstatus Hcontainer Hservice Hmissing) as [Hflow Hcache].
  split; [done|congruence].
Qed.

Lemma unregistered_service_stops_pass_witness :
  (_register_metric (registry_refusing "") unregistered_service offline)
    = (Raised KeyError, unregistered_service, offline) ∧
  (_register_metric (registry_refusing "") unregistered_service offline).1.1
    ≠ Next ∧
  dict_get ("mysql_queries"%string, Some "mysql"%string, None)
    (metrics_uuid (_register_metric (registry_refusing "")
                     unregistered_service offline).1.2) = Some None.
Proof.
  split; [vm_compute; reflexivity|].
  apply (unregistered_service_stops_pass (registry_refusing "")
           unregistered_service offline
           ("mysql_queries"%string, Some "mysql"%string, None)
           (info_of (service_point 0 "mysql_queries" "mysql")) "mysql").
  - apply (bool_decide_unpack _). vm_compute. exact I.
  - reflexivity.
  - vm_compute. reflexivity.
  - reflexivity.
  - reflexivity.
  - reflexivity.
  - vm_compute. reflexivity.
Defined.

Lemma register_metric_keeps_resolved {World : Type}
  (http : Request → World → Response * World) (c : Connector) (n : Net World)
  (k : MetricKey) (metric_uuid : string) :
  NoDup (dict_keys (metrics_uuid c)) →
  dict_get k (metrics_uuid c) = Some (Some metric_uuid) →
  dict_get k (metrics_uuid (_register_metric http c n).1.2)
    = Some (Some metric_uuid) ∧
  metrics_info (_register_metric http c n).1.2 !! k = metrics_info c !! k.
Proof.
  intros Hnodup Hget. unfold _register_metric.
  destruct (register_metrics_frame_resolved http (metrics_uuid c) c n k)
    as [Hcache Hinfo].
  - intros Hin. apply (dict_get_NoDup _ _ _ Hnodup) in Hin. congruence.
  - split; [congruence|done].
Qed.

(** X9: a pass never touches an identity that is resolved.  Whatever
    the registry answers and however the pass ends, an identity cached
    with a remote identifier keeps that identifier and its info. *)
Theorem resolved_metric_untouched {World : Type}
  (http : Request → World → Response * World) (c : Connector) (n : Net World)
  (k : MetricKey) (metric_uuid : string) :
  NoDup (dict_keys (metrics_uuid c)) →
  dict_get k (metrics_uuid c) = Some (Some metric_uuid) →
  dict_get k (metrics_uuid (_register_metric http c n).1.2)
    = Some (Some metric_uuid) ∧
  metrics_info (_register_metric http c n).1.2 !! k = metrics_info c !! k.
Proof. apply register_metric_keeps_resolved. Qed.

Lemma resolved_metric_untouched_witness :
  dict_get ("cpu_used"%string, None, None)
    (metrics_uuid (_register_metric (registry_refusing "")
                     orphan_status_registered offline).1.2)
    = Some (Some "u1"%string) ∧
  metrics_info (_register_metric (registry_refusing "")
                  orphan_status_registered offline).1.2
    !! ("cpu_used"%string, None, None)
    = metrics_info orphan_status_registered !! ("cpu_used"%string, None, None).
Proof.
  apply (resolved_metric_untouched (registry_refusing "")
           orphan_status_registered offline).
  - apply (bool_decide_unpack _). vm_compute. exact I.
  - reflexivity.
Defined.

Section pass_requests.
Context {World : Type} (http : Request → World → Response * World).
Implicit Types (c : Connector) (n : Net World) (k : MetricKey).

Lemma prepare_metric_payload k c payload :
  prepare_metric k c = Ready payload →
  p_label payload = k.1.1 ∧ p_item payload = k.2
  ∧ p_agent payload = agent_uuid c.
Proof.
  unfold prepare_metric. destruct k as [[metric_name service] item].
  repeat (case_match; simplify_eq; simpl; try done); by intros [= <-].
Qed.

(** An iteration issues no request, or the registration of its own
    identity. *)
Lemma register_one_posts k c n :
  calls (register_one http k c n).2 = calls n
  ∨ ∃ payload,
      prepare_metric k c = Ready payload
      ∧ calls (register_one http k c n).2
        = calls n ++ [metric_registration payload].
Proof.
  unfold register_one.
  destruct (prepare_metric k c) as [c1|e|payload]; [by left..|].
  unfold request. fold (metric_registration payload).
  destruct (http _ (world n)) as [response w].
  right. exists payload. split; [done|]. by destruct (negb _).
Qed.

Lemma register_metrics_posts list_metrics c n :
  ∃ posted : list (MetricKey * MetricPayload),
    calls (register_metrics http list_metrics c n).2
    = calls n ++ (metric_registration <$> posted.*2) ∧
    posted.*1 `sublist_of`
      (filter (λ entry, entry.2 = None) list_metrics).*1 ∧
    ∀ k payload,
      (k, payload) ∈ posted →
      p_label payload = k.1.1 ∧ p_item payload = k.2
      ∧ p_agent payload = agent_uuid c.
Proof.
  revert c n.
  induction list_metrics as [|[metric_key metric_uuid] list_metrics IH];
    intros c n.
  { exists []. simpl. rewrite app_nil_r. split_and!; [done|done|].
    intros k payload Hin. by apply elem_of_nil in Hin. }
  rewrite filter_cons. simpl. destruct metric_uuid as [?|].
  { rewrite decide_False by done. apply IH. }
  rewrite decide_True by done. rewrite fmap_cons. cbn [fst].
  pose proof (register_one_posts metric_key c n) as Hone.
  pose proof (register_one_static http metric_key c n)
    as (_ & _ & _ & Hagent & _).
  destruct (register_one http metric_key c n) as [[f c1] n1].
  simpl in Hone, Hagent.
  assert (∃ posted1 : list (MetricKey * MetricPayload),
            calls n1 = calls n ++ (metric_registration <$> posted1.*2)
            ∧ posted1.*1 `sublist_of` [metric_key]
            ∧ ∀ k payload,
                (k, payload) ∈ posted1 →
                p_label payload = k.1.1 ∧ p_item payload = k.2
                ∧ p_agent payload = agent_uuid c) as (posted1 & H1 & S1 & P1).
  { destruct Hone as [->|(payload & Hready & ->)].
    - exists []. simpl. rewrite app_nil_r. split_and!; [done| |].
      + apply sublist_nil_l.
      + intros k payload Hin. by apply elem_of_nil in Hin.
    - exists [(metric_key, payload)]. simpl. split_and!; [done|done|].
      intros k payload' [= -> ->]%list_elem_of_singleton.
      by apply prepare_metric_payload. }
  assert (∀ posted2 : list (MetricKey * MetricPayload),
            posted2.*1 `sublist_of`
              (filter (λ entry, entry.2 = None) list_metrics).*1 →
            (posted1 ++ posted2).*1 `sublist_of`
              metric_key
              :: (filter (λ entry, entry.2 = None) list_metrics).*1) as Hsub.
  { intros posted2 S2. rewrite fmap_app.
    change (metric_key :: ?l) with ([metric_key] ++ l).
    by apply sublist_app. }
  destruct f as [| |e].
  - destruct (IH c1 n1) as (posted2 & H2 & S2 & P2).
    exists (posted1 ++ posted2). split_and!.
    + rewrite H2, H1, !fmap_app, <- app_assoc. done.
    + by apply Hsub.
    + intros k payload [Hin|Hin]%elem_of_app; [by apply P1|].
      rewrite <- Hagent. by apply P2.
  - exists posted1. simpl. split_and!; [done| |done].
    rewrite <- (app_nil_r posted1). apply Hsub, sublist_nil_l.
  - exists posted1. simpl. split_and!; [done| |done].
    rewrite <- (app_nil_r posted1). apply Hsub, sublist_nil_l.
Qed.

(** X10: the requests of a pass are registrations of unresolved
    identities.  Whatever the registry answers, the pass issues only
    [POST]s to [/v1/metric/], each carrying the agent and the label and
    item of an identity that the cache holds as unresolved, in cache order
    and at most one for each such entry; nothing is requested for the
    other entries. *)
Theorem register_metric_requests (c : Connector) (n : Net World) :
  ∃ posted : list (MetricKey * MetricPayload),
    calls (_register_metric http c n).2
    = calls n ++ (metric_registration <$> posted.*2) ∧
    posted.*1 `sublist_of`
      (filter (λ entry, entry.2 = None) (metrics_uuid c)).*1 ∧
    ∀ k payload,
      (k, payload) ∈ posted →
      p_label payload = k.1.1 ∧ p_item payload = k.2
      ∧ p_agent payload = agent_uuid c.
Proof. unfold _register_metric. apply register_metrics_posts. Qed.

End pass_requests.

(** ** Threshold refresh *)

Lemma remove_deleted_keeps keys registered c deleted k :
  (dict_get k (metrics_uuid c) = Some None
   ∨ ∃ value, dict_get k (metrics_uuid c) = Some (Some value)
              ∧ value ∈ registered) →
  dict_get k (metrics_uuid
                (remove_deleted_metrics keys registered c deleted).1.2)
    = dict_get k (metrics_uuid c).
Proof.
  revert c deleted.
  induction keys as [|[[metric_name service_name] item] keys IH];
    intros c deleted Hk; simpl; [done|].
  destruct (dict_get (metric_name, service_name, item) (metrics_uuid c))
    as [[value|]|] eqn:Hget; simpl; [|by apply IH|done].
  case_bool_decide as Hreg; [by apply IH|].
  assert (k ≠ (metric_name, service_name, item)) as Hne.
  { intros ->. rewrite Hget in Hk.
    destruct Hk as [?|(v & [= <-] & ?)]; done. }
  rewrite IH; simpl; by rewrite dict_get_del_ne.
Qed.

Lemma remove_deleted_no_return keys registered c deleted :
  (remove_deleted_metrics keys registered c deleted).1.1 ≠ Return.
Proof.
  revert c deleted.
  induction keys as [|[[metric_name service_name] item] keys IH];
    intros c deleted; simpl; [done|].
  destruct (dict_get _ (metrics_uuid c)) as [[value|]|]; simpl;
    [|by apply IH|done].
  case_bool_decide; by apply IH.
Qed.

Section refresh_more.
Context {World : Type} (http : Request → World → Response * World).
Implicit Types (c : Connector) (n : Net World).

(** Out of alerting mode the first loop registers every listed
    identifier, records every listed threshold and nothing else, and
    issues no request. *)
Lemma scan_plain c l registered thresholds n :
  alerting_mode c = false →
  scan_remote_metrics http c l registered thresholds n =
  (Next,
   (foldl (λ acc data, {[r_id data]} ∪ acc) registered l,
    foldl (λ acc data, <[threshold_key data := r_threshold data]> acc)
      thresholds l),
   n).
Proof.
  intros Hmode. revert registered thresholds.
  induction l as [|data l IH]; intros registered thresholds; simpl; [done|].
  unfold sent_metric. rewrite Hmode. simpl. apply IH.
Qed.

Lemma scan_return c l registered thresholds n :
  (scan_remote_metrics http c l registered thresholds n).1.1 = Return →
  ∃ data,
    data ∈ l ∧
    last (calls (scan_remote_metrics http c l registered thresholds n).2)
      = Some {| method := DELETE;
                url := "/v1/metric/" +:+ r_id data +:+ "/";
                body := NoBody |}.
Proof.
  revert registered thresholds n.
  induction l as [|data l IH]; intros registered thresholds n; simpl; [done|].
  destruct (sent_metric c _ _) as [[]|e]; simpl; [| |done].
  - intros (data' & Hin & Hlast)%IH. exists data'. split; [by right|done].
  - unfold request. destruct (http _ (world n)) as [response w].
    destruct (negb _); simpl.
    + intros _. exists data. split; [left|]. by rewrite last_snoc.
    + intros (data' & Hin & Hlast)%IH. exists data'. split; [by right|done].
Qed.

End refresh_more.

Lemma foldl_registered (l : list RemoteMetric) (registered : gset string)
  (x : string) :
  x ∈ foldl (λ acc data, {[r_id data]} ∪ acc) registered l ↔
  x ∈ registered ∨ x ∈ r_id <$> l.
Proof.
  revert registered. induction l as [|data l IH]; intros registered; simpl.
  { split; [by left|]. intros [?|Hx]; [done|]. by apply elem_of_nil in Hx. }
  rewrite IH, elem_of_union, elem_of_singleton, elem_of_cons. tauto.
Qed.

Lemma foldl_thresholds (l : list RemoteMetric)
  (thresholds : gmap (string * option string) Threshold)
  (key : string * option string) :
  (key ∉ threshold_key <$> l →
   foldl (λ acc data, <[threshold_key data := r_threshold data]> acc)
     thresholds l !! key = thresholds !! key) ∧
  (key ∈ threshold_key <$> l →
   is_Some (foldl (λ acc data, <[threshold_key data := r_threshold data]> acc)
              thresholds l !! key)).
Proof.
  revert thresholds. induction l as [|data l IH]; intros thresholds; simpl.
  { split; [done|]. intros Hin. by apply elem_of_nil in Hin. }
  destruct (IH (<[threshold_key data := r_threshold data]> thresholds))
    as [Hout Hin].
  split.
  - intros [Hne Hnotin]%not_elem_of_cons.
    rewrite Hout by done. by rewrite lookup_insert_ne.
  - intros [->|Hin']%elem_of_cons; [|by apply Hin].
    destruct (decide (threshold_key data ∈ threshold_key <$> l));
      [by apply Hin|].
    rewrite Hout by done. rewrite lookup_insert_eq. eauto.
Qed.

Section refresh_properties.
Context {World : Type} (http : Request → World → Response * World).
Implicit Types (c : Connector) (n : Net World) (k : MetricKey).

Lemma refresh_from_keeps metrics c n k :
  (dict_get k (metrics_uuid c) = Some None →
   dict_get k (metrics_uuid (refresh_from http metrics c n).1.2) = Some None) ∧
  (∀ value,
     alerting_mode c = false →
     dict_get k (metrics_uuid c) = Some (Some value) →
     value ∈ r_id <$> metrics →
     dict_get k (metrics_uuid (refresh_from http metrics c n).1.2)
       = Some (Some value)).
Proof.
  unfold refresh_from. split.
  - intros Hget.
    destruct (scan_remote_metrics _ _ _ _ _ _)
      as [[[| |e] [registered thresholds]] n1]; simpl; [|done|done].
    pose proof (remove_deleted_keeps
                  (dict_keys (metrics_uuid (set_thresholds thresholds c)))
                  registered (set_thresholds thresholds c) [] k
                  (or_introl Hget)) as Hkeep.
    destruct (remove_deleted_metrics _ _ _ _) as [[[| |e] c2] deleted];
      simpl in *; try congruence.
    destruct deleted; simpl; congruence.
  - intros value Hmode Hget Hlisted. rewrite scan_plain by done.
    set (registered := foldl (λ acc data, {[r_id data]} ∪ acc) ∅ metrics).
    set (thresholds := foldl _ ∅ metrics).
    assert (value ∈ registered) as Hreg
      by (apply foldl_registered; by right).
    pose proof (remove_deleted_keeps
                  (dict_keys (metrics_uuid (set_thresholds thresholds c)))
                  registered (set_thresholds thresholds c) [] k
                  (or_intror (ex_intro _ value (conj Hget Hreg)))) as Hkeep.
    destruct (remove_deleted_metrics _ _ _ _) as [[[| |e] c2] deleted];
      simpl in *; try congruence.
    destruct deleted; simpl; congruence.
Qed.

Lemma refresh_from_return metrics c n :
  (refresh_from http metrics c n).1.1 = Return →
  (refresh_from http metrics c n).1.2 = c ∧
  ∃ data,
    data ∈ metrics ∧
    last (calls (refresh_from http metrics c n).2)
      = Some {| method := DELETE; url := "/v1/metric/" +:+ r_id data +:+ "/";
                body := NoBody |}.
Proof.
  unfold refresh_from.
  pose proof (scan_return http c metrics ∅ ∅ n) as Hscan.
  destruct (scan_remote_metrics _ _ _ _ _ _)
    as [[[| |e] [registered thresholds]] n1]; simpl in *; [|auto|done].
  pose proof (remove_deleted_no_return
                (dict_keys (metrics_uuid (set_thresholds thresholds c)))
                registered (set_thresholds thresholds c) []) as Hno.
  destruct (remove_deleted_metrics _ _ _ _) as [[[| |e] c2] deleted];
    simpl in *; [by destruct deleted|done|done].
Qed.

Lemma refresh_from_plain metrics c n :
  alerting_mode c = false →
  (refresh_from http metrics c n).2 = n ∧
  ∀ key,
    is_Some (thresholds (refresh_from http metrics c n).1.2 !! key) ↔
    key ∈ threshold_key <$> metrics.
Proof.
  intros Hmode. unfold refresh_from. rewrite scan_plain by done.
  set (registered := foldl (λ acc data, {[r_id data]} ∪ acc) ∅ metrics).
  set (new_thresholds := foldl _ ∅ metrics).
  assert (∀ keys c0 deleted,
            thresholds (remove_deleted_metrics keys registered c0 deleted).1.2
            = thresholds c0) as Hthr.
  { induction keys as [|[[? ?] ?] keys IH]; intros c0 deleted; simpl; [done|].
    destruct (dict_get _ _) as [[?|]|]; simpl; [|by apply IH|done].
    case_bool_decide; [by apply IH|]. by rewrite IH. }
  specialize (Hthr (dict_keys (metrics_uuid (set_thresholds new_thresholds c)))
                (set_thresholds new_thresholds c) []).
  destruct (remove_deleted_metrics _ _ _ _) as [[flow c2] deleted].
  simpl in Hthr.
  split.
  - destruct flow; [destruct deleted|..]; done.
  - intros key.
    match goal with |- is_Some (thresholds ?x !! key) ↔ _ =>
      assert (thresholds x = new_thresholds) as ->
        by (destruct flow; [destruct deleted|..]; done)
    end.
    destruct (foldl_thresholds metrics ∅ key) as [Hout Hin].
    split; [|exact Hin].
    intros Hsome.
    destruct (decide (key ∈ threshold_key <$> metrics))
      as [|Hnotin]; [done|].
    unfold new_thresholds in Hsome. rewrite (Hout Hnotin) in Hsome.
    rewrite lookup_empty in Hsome. by destruct Hsome.
Qed.

(** X11: a threshold refresh keeps what is not deleted remotely.  An
    unresolved identity is still unresolved after the refresh, however
    it ends; and, out of alerting mode, an identity whose remote
    identifier is on one of the pages the registry lists keeps that
    identifier. *)
Theorem refresh_keeps_live_metrics (fuel : nat) c n k (f : flow) c' n' :
  _retrive_threshold http fuel c n = Some (f, c', n') →
  (dict_get k (metrics_uuid c) = Some None →
   dict_get k (metrics_uuid c') = Some None) ∧
  (∀ value metrics fl n1,
     alerting_mode c = false →
     dict_get k (metrics_uuid c) = Some (Some value) →
     list_metrics http fuel c n = Some (metrics, fl, n1) →
     value ∈ r_id <$> metrics →
     dict_get k (metrics_uuid c') = Some (Some value)).
Proof.
  intros (metrics & fl & n1 & Hlist & Hcases)%retrive_threshold_cases.
  destruct Hcases as [(-> & -> & -> & ->)|[-> Hrefresh]]; [done|].
  pose proof (refresh_from_keeps metrics c n1 k) as [Hnone Hsome].
  rewrite Hrefresh in Hnone, Hsome. simpl in Hnone, Hsome.
  split; [done|].
  intros value metrics' fl' n1' Hmode Hget Hlist' Hin.
  rewrite Hlist in Hlist'. injection Hlist' as <- <- <-. by apply Hsome.
Qed.

(** X12: a refresh that ends with its [return] has changed nothing.
    That [return] follows a [DELETE] of a listed metric that the registry
    did not answer with 204; the connector — thresholds and cache — is as
    it was before the refresh. *)
Theorem refused_deletion_aborts_refresh (fuel : nat) c n c' n' :
  _retrive_threshold http fuel c n = Some (Return, c', n') →
  c' = c ∧
  ∃ metrics n1 data,
    list_metrics http fuel c n = Some (metrics, Next, n1) ∧
    data ∈ metrics ∧
    last (calls n')
      = Some {| method := DELETE; url := "/v1/metric/" +:+ r_id data +:+ "/";
                body := NoBody |}.
Proof.
  intros (metrics & fl & n1 & Hlist & Hcases)%retrive_threshold_cases.
  destruct Hcases as [(_ & [=] & _)|[-> Hrefresh]].
  destruct (refresh_from_return metrics c n1) as (Hsame & data & Hin & Hlast);
    [by rewrite Hrefresh|].
  rewrite Hrefresh in Hsame, Hlast. simpl in Hsame, Hlast.
  split; [done|]. by exists metrics, n1, data.
Qed.

(** X13: out of alerting mode a refresh only reads the registry and
    replaces the thresholds.  When the listing is read to its end, the
    refresh returns (it runs to its end when the cache has no duplicate
    key) having issued the listing's requests and no other —
    the [GET] of the first page, which asks for pages of 100, and one
    [GET] for each link followed — and afterwards a threshold is stored
    for every listed metric and for no other key: thresholds of metrics
    that are no longer listed are forgotten. *)
Theorem plain_refresh_replaces_thresholds (fuel : nat) c n
  (metrics : list RemoteMetric) n1 :
  alerting_mode c = false →
  list_metrics http fuel c n = Some (metrics, Next, n1) →
  ∃ (f : flow) c',
    _retrive_threshold http fuel c n = Some (f, c', n1) ∧
    (NoDup (dict_keys (metrics_uuid c)) → f = Next) ∧
    (∃ links,
       calls n1
       = calls n
           ++ {| method := GET; url := "/v1/metric/";
                 body := Params [("agent"%string, agent_uuid c);
                                 ("page_size"%string, "100"%string)] |}
              :: ((λ link, {| method := GET; url := link; body := NoBody |})
                    <$> links)) ∧
    ∀ key,
      is_Some (thresholds c' !! key) ↔ key ∈ threshold_key <$> metrics.
Proof.
  intros Hmode Hlist.
  destruct (refresh_from_plain metrics c n1 Hmode) as [Hnet Hthresholds].
  destruct (list_metrics_net http _ _ _ _ _ _ Hlist) as [_ (links & Hcalls)].
  pose proof (refresh_from_completes http metrics c n1 Hmode) as Hflow.
  unfold _retrive_threshold. rewrite Hlist.
  destruct (refresh_from http metrics c n1) as [[f c'] n'].
  simpl in Hnet, Hthresholds, Hflow. subst n'.
  exists f, c'. split_and!; [done|done| |done].
  exists links. rewrite Hcalls. simpl. by rewrite <- list_fmap_compose.
Qed.

End refresh_properties.

Lemma refresh_keeps_live_metrics_witness :
  ∃ f c' n',
    _retrive_threshold (registry_paging [remote_metric "u0" "mem_used"]
                          [remote_metric "u1" "cpu_used"])
      1 one_registered offline = Some (f, c', n') ∧
    (dict_get ("cpu_used"%string, None, None) (metrics_uuid one_registered)
       = Some None →
     dict_get ("cpu_used"%string, None, None) (metrics_uuid c') = Some None) ∧
    (∀ value metrics fl n1,
       alerting_mode one_registered = false →
       dict_get ("cpu_used"%string, None, None) (metrics_uuid one_registered)
         = Some (Some value) →
       list_metrics (registry_paging [remote_metric "u0" "mem_used"]
                       [remote_metric "u1" "cpu_used"])
         1 one_registered offline = Some (metrics, fl, n1) →
       value ∈ r_id <$> metrics →
       dict_get ("cpu_used"%string, None, None) (metrics_uuid c')
         = Some (Some value)).
Proof.
  eexists _, _, _. split; [vm_compute; reflexivity|].
  eapply (refresh_keeps_live_metrics
           (registry_paging [remote_metric "u0" "mem_used"]
              [remote_metric "u1" "cpu_used"])
           1 one_registered offline ("cpu_used"%string, None, None)).
  vm_compute. reflexivity.
Defined.

Lemma refused_deletion_aborts_refresh_witness :
  ∃ c' n',
    _retrive_threshold (registry_listing [remote_metric "u1" "cpu_used"])
      1 (set_alerting true [] one_registered) offline
      = Some (Return, c', n') ∧
    c' = set_alerting true [] one_registered ∧
    ∃ metrics n1 data,
      list_metrics (registry_listing [remote_metric "u1" "cpu_used"])
        1 (set_alerting true [] one_registered) offline
        = Some (metrics, Next, n1) ∧
      data ∈ metrics ∧
      last (calls n')
        = Some {| method := DELETE;
                  url := "/v1/metric/" +:+ r_id data +:+ "/";
                  body := NoBody |}.
Proof.
  eexists _, _. split; [vm_compute; reflexivity|].
  apply (refused_deletion_aborts_refresh
           (registry_listing [remote_metric "u1" "cpu_used"])
           1 (set_alerting true [] one_registered) offline).
  vm_compute. reflexivity.
Defined.

Lemma plain_refresh_replaces_thresholds_witness :
  ∃ f c',
    _retrive_threshold (registry_paging [remote_metric "u0" "mem_used"]
                          [remote_metric "u1" "cpu_used"])
      1 one_registered offline
      = Some (f, c',
              {| world := tt;
                 calls := [get_metrics;
                           {| method := GET; url := "/v1/metric/?page=2";
                              body := NoBody |}] |}) ∧
    (NoDup (dict_keys (metrics_uuid one_registered)) → f = Next) ∧
    (∃ links,
       [get_metrics;
        {| method := GET; url := "/v1/metric/?page=2"; body := NoBody |}]
       = calls offline
           ++ {| method := GET; url := "/v1/metric/";
                 body := Params [("agent"%string, agent_uuid one_registered);
                                 ("page_size"%string, "100"%string)] |}
              :: ((λ link, {| method := GET; url := link; body := NoBody |})
                    <$> links)) ∧
    ∀ key,
      is_Some (thresholds c' !! key) ↔
      key ∈ threshold_key <$> [remote_metric "u0" "mem_used";
                               remote_metric "u1" "cpu_used"].
Proof.
  apply (plain_refresh_replaces_thresholds
           (registry_paging [remote_metric "u0" "mem_used"]
              [remote_metric "u1" "cpu_used"])
           1 one_registered offline
           [remote_metric "u0" "mem_used"; remote_metric "u1" "cpu_used"]
           {| world := tt;
              calls := [get_metrics;
                        {| method := GET; url := "/v1/metric/?page=2";
                           body := NoBody |}] |}).
  - reflexivity.
  - vm_compute. reflexivity.
Defined.

(** ** Container reconciliation *)

Section container_more.
Context {World : Type} (http : Request → World → Response * World).
Context (sha1_hexdigest : string → string).
Implicit Types (c : Connector) (n : Net World) (name : string).

Lemma register_containers_in_sync l c n :
  (∀ name inspect, (name, inspect) ∈ l →
     ∃ obj_uuid,
       dict_get name (docker_container_uuid c)
         = Some (Some (sha1_hexdigest (inspect_sorted_json inspect)),
                 obj_uuid)) →
  register_containers http sha1_hexdigest l c n = (c, n).
Proof.
  induction l as [|[name inspect] l IH]; intros Hsync; simpl; [done|].
  destruct (Hsync name inspect) as [obj_uuid ->]; [left|]. simpl.
  rewrite decide_True by done. apply IH.
  intros name' inspect' Hin. apply Hsync. by right.
Qed.

Lemma register_containers_keeps l c n name :
  is_Some (dict_get name (docker_container_uuid c)) →
  is_Some (dict_get name
             (docker_container_uuid
                (register_containers http sha1_hexdigest l c n).1)).
Proof.
  revert c n. induction l as [|[name' inspect] l IH]; intros c n Hsome;
    cbn [register_containers]; [done|].
  destruct (default (None, None) (dict_get name' (docker_container_uuid c)))
    as [old_hash obj_uuid].
  case_decide; [by apply IH|].
  destruct (match obj_uuid with Some _ => _ | None => _ end) as [method url].
  destruct (request http _ n) as [response n1].
  destruct (negb _); [by apply IH|].
  apply IH. simpl. destruct (decide (name = name')) as [->|Hne].
  - rewrite dict_get_set_eq. eauto.
  - by rewrite dict_get_set_ne.
Qed.

(** When the registry accepts every creation and update, the first loop
    leaves every discovered container cached under the hash of its
    current inspect data. *)
Lemma register_containers_converges l c n name inspect :
  (∀ r w, method r = POST ∨ method r = PUT →
          status_code (http r w).1 = 200 ∨ status_code (http r w).1 = 201) →
  NoDup l.*1 →
  (name, inspect) ∈ l →
  ∃ obj_uuid,
    dict_get name (docker_container_uuid
                     (register_containers http sha1_hexdigest l c n).1)
      = Some (Some (sha1_hexdigest (inspect_sorted_json inspect)), obj_uuid).
Proof.
  intros Haccept. revert c n.
  induction l as [|[name' inspect'] l IH]; intros c n Hnodup Hin.
  { by apply elem_of_nil in Hin. }
  rewrite fmap_cons in Hnodup. apply NoDup_cons in Hnodup as [Hfresh Hnodup].
  cbn [fst] in Hfresh.
  apply elem_of_cons in Hin as [[= <- <-]|Hin].
  - cbn [register_containers].
    destruct (dict_get name (docker_container_uuid c))
      as [[old_hash obj_uuid]|] eqn:Hget; simpl.
    + case_decide as Hhash.
      * destruct (register_containers_frame http sha1_hexdigest l c n)
          as (_ & Hsame & _).
        rewrite Hsame by done. rewrite Hget, Hhash. eauto.
      * assert (∃ r, (match obj_uuid with
                      | Some obj_uuid0 =>
                          (PUT, "/v1/container/" +:+ obj_uuid0 +:+ "/")
                      | None => (POST, "/v1/container/"%string)
                      end) = (method r, url r)
                     ∧ (method r = POST ∨ method r = PUT)
                     ∧ body r = ContainerBody
                                  (container_payload c name inspect))
          as (r & Hr & Hmethod & Hbody).
        { destruct obj_uuid as [u|].
          - exists {| method := PUT; url := "/v1/container/" +:+ u +:+ "/";
                      body := ContainerBody
                                (container_payload c name inspect) |}.
            simpl. auto.
          - exists {| method := POST; url := "/v1/container/";
                      body := ContainerBody
                                (container_payload c name inspect) |}.
            simpl. auto. }
        rewrite Hr. unfold request.
        pose proof (Haccept r (world n) Hmethod) as Hcode.
        rewrite <- Hbody.
        replace {| method := method r; url := url r; body := body r |}
          with r by (by destruct r).
        destruct (http r (world n)) as [response w]. simpl in Hcode.
        assert (negb ((status_code response =? 200)
                      || (status_code response =? 201)) = false) as ->
          by (destruct Hcode as [-> | ->]; reflexivity).
        destruct (register_containers_frame http sha1_hexdigest l
                    (set_docker_container_uuid
                       (dict_set name
                          (Some (sha1_hexdigest (inspect_sorted_json inspect)),
                           Some (json_id response))
                          (docker_container_uuid c)) c)
                    {| world := w; calls := calls n ++ [r] |})
          as (_ & Hsame & _).
        rewrite Hsame by done. simpl. rewrite dict_get_set_eq. eauto.
    + unfold request.
      pose proof (Haccept {| method := POST; url := "/v1/container/";
                             body := ContainerBody
                                       (container_payload c name inspect) |}
                    (world n) (or_introl eq_refl)) as Hcode.
      destruct (http _ (world n)) as [response w]. simpl in Hcode.
      assert (negb ((status_code response =? 200)
                    || (status_code response =? 201)) = false) as ->
        by (destruct Hcode as [-> | ->]; reflexivity).
      match goal with
      | |- context [register_containers _ _ l ?c1 ?n1] =>
          destruct (register_containers_frame http sha1_hexdigest l c1 n1)
            as (_ & Hsame & _)
      end.
      rewrite Hsame by done. simpl. rewrite dict_get_set_eq. eauto.
  - cbn [register_containers].
    destruct (default (None, None) (dict_get name' (docker_container_uuid c)))
      as [old_hash obj_uuid].
    case_decide; [by apply IH|].
    destruct (match obj_uuid with Some _ => _ | None => _ end)
      as [method url].
    destruct (request http _ n) as [response n1].
    destruct (negb _); by apply IH.
Qed.

Lemma delete_containers_frame names now c n name :
  name ∉ names →
  dict_get name (docker_container_uuid
                   (delete_containers http names now c n).1.2)
    = dict_get name (docker_container_uuid c).
Proof.
  revert c n. induction names as [|name' names IH]; intros c n Hnotin;
    simpl; [done|].
  apply not_elem_of_cons in Hnotin as [Hne Hnotin].
  destruct (dict_get name' (docker_container_uuid c))
    as [[old_hash [obj_uuid|]]|]; simpl; [|done|done].
  destruct (request http _ n) as [response n1].
  destruct (negb _); [by apply IH|].
  rewrite IH by done. simpl. by apply dict_get_del_ne.
Qed.

End container_more.

Lemma filter_none {A : Type} (P : A → Prop) `{∀ x, Decision (P x)}
  (l : list A) :
  (∀ x, x ∈ l → ¬ P x) → filter P l = [].
Proof.
  induction l as [|x l IH]; intros Hnone; [done|].
  rewrite filter_cons, decide_False by (apply Hnone; left).
  apply IH. intros y Hy. apply Hnone. by right.
Qed.

(** X14: a pass over containers that are in sync does nothing.  When
    every discovered container is cached under the hash of its current
    inspect data and every cached container is discovered,
    [_register_containers] issues no request and leaves the connector as
    it was. *)
Theorem containers_in_sync_untouched {World : Type}
  (http : Request → World → Response * World)
  (sha1_hexdigest : string → string) (now : Z)
  (c : Connector) (n : Net World) :
  (∀ name inspect, (name, inspect) ∈ docker_containers c →
     ∃ obj_uuid,
       dict_get name (docker_container_uuid c)
         = Some (Some (sha1_hexdigest (inspect_sorted_json inspect)),
                 obj_uuid)) →
  (∀ name, name ∈ dict_keys (docker_container_uuid c) →
           dict_mem name (docker_containers c) = true) →
  _register_containers http sha1_hexdigest now c n = (Next, c, n).
Proof.
  intros Hsync Hall. unfold _register_containers.
  rewrite register_containers_in_sync by done.
  unfold deleted_containers. rewrite filter_none; [done|].
  intros name Hin Hgone. rewrite (Hall name Hin) in Hgone. done.
Qed.

Lemma containers_in_sync_untouched_witness :
  _register_containers (registry_refusing "") id 42 synced_container offline
    = (Next, synced_container, offline).
Proof.
  apply (containers_in_sync_untouched (registry_refusing "") id 42
           synced_container offline).
  - intros name inspect Hin. simpl in Hin.
    apply list_elem_of_singleton in Hin as [= -> ->].
    exists (Some "c-1"%string). reflexivity.
  - intros name Hin. simpl in Hin.
    apply list_elem_of_singleton in Hin as ->. reflexivity.
Defined.

(** X15: when the registry accepts every creation and update, a pass
    leaves every discovered container in the cache under the hash of its
    current inspect data, whether it was new, changed or unchanged. *)
Theorem discovered_containers_cached {World : Type}
  (http : Request → World → Response * World)
  (sha1_hexdigest : string → string) (now : Z)
  (c : Connector) (n : Net World) (name : string) (inspect : Inspect) :
  (∀ r w, method r = POST ∨ method r = PUT →
          status_code (http r w).1 = 200 ∨ status_code (http r w).1 = 201) →
  NoDup (dict_keys (docker_containers c)) →
  (name, inspect) ∈ docker_containers c →
  ∃ obj_uuid,
    dict_get name
      (docker_container_uuid
         (_register_containers http sha1_hexdigest now c n).1.2)
      = Some (Some (sha1_hexdigest (inspect_sorted_json inspect)), obj_uuid).
Proof.
  intros Haccept Hnodup Hin. unfold _register_containers.
  destruct (register_containers_converges http sha1_hexdigest
              (docker_containers c) c n name inspect Haccept Hnodup Hin)
    as [obj_uuid Hget].
  destruct (register_containers_frame http sha1_hexdigest
              (docker_containers c) c n) as (Hd & _).
  destruct (register_containers http sha1_hexdigest (docker_containers c) c n)
    as [c1 n1]. simpl in *.
  exists obj_uuid. rewrite delete_containers_frame; [done|].
  unfold deleted_containers. rewrite list_elem_of_filter, Hd.
  intros [Hgone _]. apply dict_mem_false, dict_get_None in Hgone.
  apply Hgone. unfold dict_keys. by apply (list_elem_of_fmap_2 fst) in Hin.
Qed.

Lemma discovered_containers_cached_witness :
  calls (_register_containers registry_accepting id 42 changed_container
           offline).2
    = [{| method := PUT; url := "/v1/container/c-1/";
          body := ContainerBody
                    (container_payload changed_container "web1"
                       (inspect_of "H2")) |}] ∧
  ∃ obj_uuid,
    dict_get "web1"%string
      (docker_container_uuid
         (_register_containers registry_accepting id 42 changed_container
            offline).1.2) = Some (Some "H2"%string, obj_uuid).
Proof.
  split; [vm_compute; reflexivity|].
  apply (discovered_containers_cached registry_accepting id 42
           changed_container offline "web1" (inspect_of "H2")).
  - intros r w [Hm|Hm]; unfold registry_accepting; rewrite Hm.
    + right. reflexivity.
    + left. reflexivity.
  - apply (bool_decide_unpack _). vm_compute. exact I.
  - left.
Defined.

(** X16: a pass never drops a container that is still discovered.
    Whatever the registry answers to the creations, updates and
    deletions, a container that local discovery lists and that is in the
    cache is still in the cache after [_register_containers]. *)
Theorem discovered_container_never_removed {World : Type}
  (http : Request → World → Response * World)
  (sha1_hexdigest : string → string) (now : Z)
  (c : Connector) (n : Net World) (name : string) :
  dict_mem name (docker_containers c) = true →
  is_Some (dict_get name (docker_container_uuid c)) →
  is_Some (dict_get name
             (docker_container_uuid
                (_register_containers http sha1_hexdigest now c n).1.2)).
Proof.
  intros Hfound Hcached. unfold _register_containers.
  pose proof (register_containers_keeps http sha1_hexdigest
                (docker_containers c) c n name Hcached) as Hkept.
  destruct (register_containers_frame http sha1_hexdigest
              (docker_containers c) c n) as (Hd & _).
  destruct (register_containers http sha1_hexdigest (docker_containers c) c n)
    as [c1 n1]. simpl in *.
  rewrite delete_containers_frame; [done|].
  unfold deleted_containers. rewrite list_elem_of_filter, Hd.
  intros [Hgone _]. congruence.
Qed.

Lemma discovered_container_never_removed_witness :
  is_Some (dict_get "web1"%string
             (docker_container_uuid
                (_register_containers (registry_listing []) id 42
                   changed_container offline).1.2)).
Proof.
  apply (discovered_container_never_removed (registry_listing []) id 42
           changed_container offline "web1").
  - reflexivity.
  - simpl. eauto.
Defined.

(** ** Start-up *)

Lemma dict_get_setdefault_other {K V : Type} `{EqDecision K} (k k' : K)
  (v : V) (d : dict K V) :
  k ≠ k' → dict_get k (dict_setdefault k' v d) = dict_get k d.
Proof.
  intros Hne. unfold dict_setdefault. case_match; [done|].
  rewrite dict_get_app. destruct (dict_get k d); [done|].
  simpl. by rewrite decide_False.
Qed.

Lemma upgrade_keys_spec keys c :
  NoDup keys →
  (∀ k, k ∈ keys → is_Some (dict_get k (metrics_uuid c))) →
  (upgrade_keys keys c).1 = Next ∧
  (∀ item, legacy_key item ∈ keys →
     dict_get (legacy_key item) (metrics_uuid (upgrade_keys keys c).2)
       = None) ∧
  (∀ k, (k ∉ keys ∨ ∀ item, k ≠ legacy_key item) →
        (∀ item, k ≠ moved_key item) →
        dict_get k (metrics_uuid (upgrade_keys keys c).2)
          = dict_get k (metrics_uuid c)) ∧
  (∀ item,
     dict_get (moved_key item) (metrics_uuid (upgrade_keys keys c).2) =
     match dict_get (moved_key item) (metrics_uuid c) with
     | Some value => Some value
     | None =>
         if decide (legacy_key item ∈ keys)
         then dict_get (legacy_key item) (metrics_uuid c) else None
     end).
Proof.

  revert c. induction keys as [|[[metric_name service] item0] keys IH];
    intros c Hnodup Hpresent.
  { simpl. split_and!; try done.
    - intros item Hin. by apply elem_of_nil in Hin.
    - intros item. by destruct (dict_get _ _). }
  apply NoDup_cons in Hnodup as [Hfresh Hnodup].
  assert (∀ k, k ∈ keys → is_Some (dict_get k (metrics_uuid c))) as Hrest
    by (intros k Hk; apply Hpresent; by right).
  cbn [upgrade_keys].
  destruct (decide (metric_name = "elasticsearch_search_time"%string))
    as [->|Hname]; [destruct service as [service|]|].
  - (* another service's metric of that name *)
    destruct (IH c Hnodup Hrest) as (Hflow & Hlegacy & Hother & Hmoved).
    split_and!; [done| | |].
    + intros item [Heq|Hin]%elem_of_cons; [done|by apply Hlegacy].
    + intros k Hk Hnm. apply Hother; [|done].
      destruct Hk as [Hk|Hk]; [left|by right].
      by apply not_elem_of_cons in Hk as [_ ?].
    + intros item. rewrite Hmoved. destruct (dict_get _ _); [done|].
      destruct (decide (legacy_key item ∈ keys)) as [Hin|Hnotin].
      * rewrite decide_True; [done|by right].
      * rewrite decide_False; [done|].
        intros [Heq|Hin]%elem_of_cons; done.
  - (* the legacy key *)
    fold (legacy_key item0) in *. fold (moved_key item0).
    destruct (Hpresent (legacy_key item0)) as [value Hvalue]; [left|].
    rewrite Hvalue.
    set (c1 := set_metrics_uuid
                 (dict_del (legacy_key item0)
                    (dict_setdefault (moved_key item0) value (metrics_uuid c)))
                 c).
    assert (∀ k, k ≠ legacy_key item0 → k ≠ moved_key item0 →
              dict_get k (metrics_uuid c1) = dict_get k (metrics_uuid c))
      as Hc1.
    { intros k Hk1 Hk2. simpl.
      by rewrite dict_get_del_ne, dict_get_setdefault_other. }
    assert (dict_get (moved_key item0) (metrics_uuid c1)
            = Some (default value
                      (dict_get (moved_key item0) (metrics_uuid c))))
      as Hc1moved.
    { simpl. rewrite dict_get_del_ne by done. apply dict_get_setdefault. }
    destruct (IH c1 Hnodup) as (Hflow & Hlegacy & Hother & Hmoved).
    { intros k Hk. simpl. rewrite dict_get_del_ne by (by intros ->).
      destruct (decide (k = moved_key item0)) as [->|Hne].
      - rewrite dict_get_setdefault. eauto.
      - rewrite dict_get_setdefault_other by done. by apply Hrest. }
    split_and!; [done| | |].
    + intros item [Heq|Hin]%elem_of_cons; [|by apply Hlegacy].
      injection Heq as <-. rewrite Hother; [|by left|done].
      simpl. apply dict_get_del_eq.
    + intros k Hk Hnm. rewrite Hother; [|..|done].
      * apply Hc1; [|done]. destruct Hk as [Hk|Hk]; [|done].
        by apply not_elem_of_cons in Hk as [? _].
      * destruct Hk as [Hk|Hk]; [left|by right].
        by apply not_elem_of_cons in Hk as [_ ?].
    + intros item. rewrite Hmoved.
      destruct (decide (item = item0)) as [->|Hitem].
      * rewrite Hc1moved.
        destruct (dict_get (moved_key item0) (metrics_uuid c)); [done|].
        simpl. rewrite decide_True; [done|left].
      * assert (moved_key item ≠ moved_key item0)
          by (unfold moved_key; congruence).
        assert (legacy_key item ≠ legacy_key item0)
          by (unfold legacy_key; congruence).
        rewrite !Hc1 by done.
        destruct (dict_get (moved_key item) (metrics_uuid c)); [done|].
        destruct (decide (legacy_key item ∈ keys)) as [Hin|Hnotin].
        -- rewrite decide_True by (by right). done.
        -- rewrite decide_False; [done|].
           intros [Heq|Hin]%elem_of_cons; done.
  - (* any other metric *)
    destruct (IH c Hnodup Hrest) as (Hflow & Hlegacy & Hother & Hmoved).
    split_and!; [done| | |].
    + intros item [Heq|Hin]%elem_of_cons; [|by apply Hlegacy].
      injection Heq as <- _ _. done.
    + intros k Hk Hnm. apply Hother; [|done].
      destruct Hk as [Hk|Hk]; [left|by right].
      by apply not_elem_of_cons in Hk as [_ ?].
    + intros item. rewrite Hmoved. destruct (dict_get _ _); [done|].
      destruct (decide (legacy_key item ∈ keys)) as [Hin|Hnotin].
      * rewrite decide_True; [done|by right].
      * rewrite decide_False; [done|].
        intros [Heq|Hin]%elem_of_cons; [|done].
        injection Heq as <- _ _. done.
Qed.

Lemma upgrade_keys_frame keys c :
  (upgrade_keys keys c).2
  = set_metrics_uuid (metrics_uuid (upgrade_keys keys c).2) c.
Proof.
  revert c. induction keys as [|[[metric_name service] item] keys IH];
    intros c; cbn [upgrade_keys].
  { by destruct c. }
  destruct (decide _) as [->|]; [destruct service|]; try apply IH.
  destruct (dict_get _ _); [|by destruct c].
  rewrite IH at 1. done.
Qed.

Lemma upgrade_keys_noop keys c :
  (∀ item, legacy_key item ∉ keys) → upgrade_keys keys c = (Next, c).
Proof.
  induction keys as [|[[metric_name service] item] keys IH]; intros Hnone;
    cbn [upgrade_keys]; [done|].
  assert (∀ item', legacy_key item' ∉ keys) as Hrest.
  { intros item' Hin. apply (Hnone item'). by right. }
  destruct (decide _) as [->|]; [destruct service|]; try by apply IH.
  exfalso. apply (Hnone item). left.
Qed.

Lemma dict_keys_setdefault {K V : Type} `{EqDecision K} (k : K) (v : V)
  (d : dict K V) :
  NoDup (dict_keys d) → NoDup (dict_keys (dict_setdefault k v d)).
Proof.
  intros Hnodup. unfold dict_setdefault, dict_keys.
  destruct (dict_mem k d) eqn:Hmem; [done|].
  rewrite fmap_app. apply NoDup_app. split_and!; [done| |apply NoDup_singleton].
  intros x Hx ->%list_elem_of_singleton.
  by apply dict_mem_false, dict_get_None in Hmem.
Qed.

Lemma upgrade_keys_NoDup keys c :
  NoDup (dict_keys (metrics_uuid c)) →
  NoDup (dict_keys (metrics_uuid (upgrade_keys keys c).2)).
Proof.
  revert c. induction keys as [|[[metric_name service] item] keys IH];
    intros c Hnodup; cbn [upgrade_keys]; [done|].
  destruct (decide _) as [->|]; [destruct service|]; try by apply IH.
  destruct (dict_get _ _); [|done].
  apply IH. simpl. rewrite dict_keys_del. apply NoDup_filter.
  by apply dict_keys_setdefault.
Qed.

Lemma upgrade_spec_legacy_entries (c : Connector) :
  NoDup (dict_keys (metrics_uuid c)) →
  (_apply_upgrade c).1 = Next ∧
  (∀ item,
     dict_get (legacy_key item) (metrics_uuid (_apply_upgrade c).2) = None) ∧
  (∀ item,
     dict_get (moved_key item) (metrics_uuid (_apply_upgrade c).2) =
     match dict_get (moved_key item) (metrics_uuid c) with
     | Some value => Some value
     | None => dict_get (legacy_key item) (metrics_uuid c)
     end) ∧
  (∀ k, (∀ item, k ≠ legacy_key item) → (∀ item, k ≠ moved_key item) →
        dict_get k (metrics_uuid (_apply_upgrade c).2)
          = dict_get k (metrics_uuid c)) ∧
  _apply_upgrade (_apply_upgrade c).2 = (Next, (_apply_upgrade c).2).
Proof.
  intros Hnodup. unfold _apply_upgrade at 1 2 3 4.
  destruct (upgrade_keys_spec (dict_keys (metrics_uuid c)) c Hnodup)
    as (Hflow & Hlegacy & Hother & Hmoved).
  { intros k Hk. destruct (dict_get k (metrics_uuid c)) eqn:Hget; [eauto|].
    by apply dict_get_None in Hget. }
  assert (∀ item,
            dict_get (legacy_key item)
              (metrics_uuid
                 (upgrade_keys (dict_keys (metrics_uuid c)) c).2) = None)
    as Hgone.
  { intros item.
    destruct (decide (legacy_key item ∈ dict_keys (metrics_uuid c)))
      as [Hin|Hnotin]; [by apply Hlegacy|].
    rewrite Hother; [by apply dict_get_None|by left|done]. }
  split_and!; [done|done| | |].
  - intros item. rewrite Hmoved. destruct (dict_get (moved_key item) _); [done|].
    case_decide as Hin; [done|]. symmetry. by apply dict_get_None.
  - intros k Hk1 Hk2. apply Hother; [by right|done].
  - unfold _apply_upgrade. apply upgrade_keys_noop.
    intros item Hin. apply dict_get_None in Hin; [done|]. apply Hgone.
Qed.

(** X17: [_apply_upgrade] moves every
    [('elasticsearch_search_time', None, item)] entry of the cache to
    [('elasticsearch_search_time', 'elasticsearch', item)].  Afterwards no
    entry is left under the old key; the new key holds the value it had
    already, if any, and the old key's value otherwise; every other entry
    is as it was; and applying the upgrade again changes nothing. *)
Theorem apply_upgrade_moves_legacy_entries (c : Connector) :
  NoDup (dict_keys (metrics_uuid c)) →
  (_apply_upgrade c).1 = Next ∧
  (∀ item,
     dict_get (legacy_key item) (metrics_uuid (_apply_upgrade c).2) = None) ∧
  (∀ item,
     dict_get (moved_key item) (metrics_uuid (_apply_upgrade c).2) =
     match dict_get (moved_key item) (metrics_uuid c) with
     | Some value => Some value
     | None => dict_get (legacy_key item) (metrics_uuid c)
     end) ∧
  (∀ k, (∀ item, k ≠ legacy_key item) → (∀ item, k ≠ moved_key item) →
        dict_get k (metrics_uuid (_apply_upgrade c).2)
          = dict_get k (metrics_uuid c)) ∧
  _apply_upgrade (_apply_upgrade c).2 = (Next, (_apply_upgrade c).2).
Proof. apply upgrade_spec_legacy_entries. Qed.

Lemma apply_upgrade_moves_legacy_entries_witness :
  _apply_upgrade before_upgrade
    = (Next,
       set_metrics_uuid
         [(("cpu_used"%string, None, None), Some "u1"%string);
          (("elasticsearch_search_time"%string, Some "elasticsearch"%string,
            None), Some "u-es"%string)]
         before_upgrade) ∧
  dict_get (legacy_key None) (metrics_uuid (_apply_upgrade before_upgrade).2)
    = None ∧
  dict_get (moved_key None) (metrics_uuid (_apply_upgrade before_upgrade).2)
    = Some (Some "u-es"%string).
Proof.
  split; [vm_compute; reflexivity|].
  destruct (apply_upgrade_moves_legacy_entries before_upgrade)
    as (_ & Hlegacy & Hmoved & _).
  { apply (bool_decide_unpack _). vm_compute. exact I. }
  split; [apply Hlegacy|]. rewrite Hmoved. reflexivity.
Defined.

(** X18: after [__init__] the connector has nothing queued, the identity
    of [agent_status] is in the cache — with the stored identifier if
    there is one, unresolved otherwise — and has an (empty) info, so that
    it is not purged as stale: a registration pass that runs to its end
    leaves [agent_status] with a remote identifier. *)
Theorem init_prepares_agent_status {World : Type}
  (http : Request → World → Response * World) (core : Connector)
  (n : Net World) :
  NoDup (dict_keys (metrics_uuid core)) →
  (__init__ core).1 = Next ∧
  _metric_queue (__init__ core).2 = [] ∧
  dict_get ("agent_status"%string, None, None)
    (metrics_uuid (__init__ core).2)
    = Some (default None
              (dict_get ("agent_status"%string, None, None)
                 (metrics_uuid core))) ∧
  is_Some (metrics_info (__init__ core).2
             !! ("agent_status"%string, None, None)) ∧
  ((_register_metric http (__init__ core).2 n).1.1 = Next →
   ∃ metric_uuid,
     dict_get ("agent_status"%string, None, None)
       (metrics_uuid (_register_metric http (__init__ core).2 n).1.2)
       = Some (Some metric_uuid)).
Proof.
  intros Hnodup. unfold __init__. cbv zeta.
  cbn [metrics_info set_metrics_uuid]. rewrite lookup_empty.
  set (c0 := set_metrics_info _ _).
  assert (NoDup (dict_keys (metrics_uuid c0))) as Hnodup0
    by (simpl; by apply dict_keys_setdefault).
  destruct (upgrade_spec_legacy_entries c0 Hnodup0)
    as (Hflow & _ & _ & Hother & _).
  pose proof (upgrade_keys_frame (dict_keys (metrics_uuid c0)) c0) as Hframe.
  pose proof (upgrade_keys_NoDup (dict_keys (metrics_uuid c0)) c0 Hnodup0)
    as Hnodup1.
  fold (_apply_upgrade c0) in Hframe, Hnodup1.
  assert (dict_get ("agent_status"%string, None, None)
            (metrics_uuid (_apply_upgrade c0).2)
          = Some (default None
                    (dict_get ("agent_status"%string, None, None)
                       (metrics_uuid core)))) as Hcache.
  { rewrite Hother by done. simpl. apply dict_get_setdefault. }
  assert (metrics_info (_apply_upgrade c0).2
            !! ("agent_status"%string, None, None)
          = Some {| info_status_of := None; info_instance := None;
                    info_container := None |}) as Hinfo.
  { rewrite Hframe. simpl. apply lookup_insert_eq. }
  split_and!; [done| |done| |].
  - by rewrite Hframe.
  - rewrite Hinfo. eauto.
  - intros Hpass.
    destruct (dict_get ("agent_status"%string, None, None) (metrics_uuid core))
      as [[metric_uuid|]|] eqn:Hstored; simpl in Hcache.
    + exists metric_uuid.
      by apply (register_metric_keeps_resolved http _ n _ _ Hnodup1 Hcache).
    + by apply (register_metric_resolves_independent http _ n _ _ Hnodup1 Hcache
                  Hinfo eq_refl eq_refl eq_refl Hpass).
    + by apply (register_metric_resolves_independent http _ n _ _ Hnodup1 Hcache
                  Hinfo eq_refl eq_refl eq_refl Hpass).
Qed.

Lemma init_prepares_agent_status_witness :
  (__init__ before_upgrade).1 = Next ∧
  dict_get ("agent_status"%string, None, None)
    (metrics_uuid (__init__ before_upgrade).2) = Some None ∧
  (_register_metric registry_accepting (__init__ before_upgrade).2
     offline).1.1 = Next ∧
  ∃ metric_uuid,
    dict_get ("agent_status"%string, None, None)
      (metrics_uuid (_register_metric registry_accepting
                       (__init__ before_upgrade).2 offline).1.2)
      = Some (Some metric_uuid).
Proof.
  destruct (init_prepares_agent_status registry_accepting before_upgrade
              offline) as (Hflow & _ & Hcache & _ & Hpass).
  { apply (bool_decide_unpack _). vm_compute. exact I. }
  assert ((_register_metric registry_accepting (__init__ before_upgrade).2
             offline).1.1 = Next) as Hnext by (vm_compute; reflexivity).
  split; [exact Hflow|]. split; [exact Hcache|].
  split; [exact Hnext | exact (Hpass Hnext)].
Defined.

(** ** Paginated listings *)

Section api_iterator_facts.
Context {A World : Type} (get : ListRequest → World → Listing A * World).

Lemma follow_pages_serves fuel next w pages w' :
  serves get next w pages w' →
  (length pages ≤ fuel)%nat →
  follow_pages get fuel next w = Some (concat pages, Next, w').
Proof.
  intros Hserves. revert fuel.
  induction Hserves as [w|w|url w results next w1 pages w' Hurl Hget _ IH];
    intros fuel Hfuel.
  - by destruct fuel.
  - by destruct fuel.
  - destruct fuel as [|fuel]; [simpl in Hfuel; lia|].
    simpl. rewrite decide_False by done. rewrite Hget.
    rewrite IH by (simpl in Hfuel; lia). done.
Qed.

(** X19: [api_iterator] drains a paginated listing.  When the first
    answer is a page and the registry serves, from its [next] link on, a
    chain of pages that ends (a missing or empty link), the iterator
    yields the results of all the pages, in order, and leaves the
    registry where the last page left it; a caller's [page_size] is
    passed on, and 100 is asked for when there is none. *)
Theorem api_iterator_drains_pages (fuel : nat) (url : string)
  (params : dict string string) (headers : option (dict string string))
  (w w1 w' : World) (results : list A) (next : option string)
  (pages : list (list A)) :
  get (FirstPage url
         (if dict_mem "page_size"%string params then params
          else dict_set "page_size"%string "100"%string params) headers) w
    = (Page results next, w1) →
  serves get next w1 pages w' →
  (length pages ≤ fuel)%nat →
  api_iterator get fuel url params headers w
    = Some (results ++ concat pages, Next, w').
Proof.
  intros Hfirst Hserves Hfuel. unfold api_iterator. rewrite Hfirst.
  by rewrite (follow_pages_serves fuel next w1 pages w').
Qed.

Lemma api_iterator_old_list fuel url params headers w w1 items :
  get (FirstPage url
         (if dict_mem "page_size"%string params then params
          else dict_set "page_size"%string "100"%string params) headers) w
    = (OldList items, w1) →
  api_iterator get fuel url params headers w = Some (items, Next, w1).
Proof. intros Hfirst. unfold api_iterator. by rewrite Hfirst. Qed.

End api_iterator_facts.

Lemma api_iterator_drains_pages_witness :
  api_iterator three_pages 2 "/v1/metric/" [("agent"%string, "a1"%string)]
    None 0%nat
  = Some ([1; 2] ++ concat [[3]; [4; 5]], Next, 3)%nat.
Proof.
  apply (api_iterator_drains_pages three_pages 2 "/v1/metric/"
           [("agent"%string, "a1"%string)] None 0%nat 1%nat 3%nat
           [1; 2]%nat (Some "/p2"%string) [[3]; [4; 5]]%nat).
  - reflexivity.
  - apply serves_page with (Some "/p3"%string) 2%nat; [done|reflexivity|].
    apply serves_page with None 3%nat; [done|reflexivity|].
    apply serves_end.
  - simpl. lia.
Defined.

(** ** Facts *)

Section send_facts_facts.
Context {World : Type} (api : FactRequest → World → FactResponse * World).
Implicit Types (n : Log FactRequest World).

Lemma follow_facts_calls fuel next n items f n' :
  follow_pages (get_facts api) fuel next n = Some (items, f, n') →
  ∃ lists, log_calls n' = log_calls n ++ lists ∧
           ∀ r, r ∈ lists → ∃ lr, r = FactList lr.
Proof.
  revert next n items f n'. induction fuel as [|fuel IH];
    intros next n items f n'; destruct next as [url|]; simpl.
  - case_decide; [|done]. intros [= <- <- <-]. exists [].
    rewrite app_nil_r. split; [done|]. intros r Hr. by apply elem_of_nil in Hr.
  - intros [= <- <- <-]. exists [].
    rewrite app_nil_r. split; [done|]. intros r Hr. by apply elem_of_nil in Hr.
  - case_decide.
    { intros [= <- <- <-]. exists []. rewrite app_nil_r.
      split; [done|]. intros r Hr. by apply elem_of_nil in Hr. }
    unfold get_facts, fact_request.
    destruct (api _ (log_world n)) as [response w].
    destruct (fact_listing response) as [old|results next'].
    + intros [= <- <- <-]. exists [FactList (NextPage url)]. simpl.
      split; [done|]. intros r ->%list_elem_of_singleton. eauto.
    + destruct (follow_pages _ fuel next' _) as [[[items' f'] n1]|] eqn:Hrec;
        [|done].
      intros [= <- <- <-].
      destruct (IH _ _ _ _ _ Hrec) as (lists & Hcalls & Hlists).
      exists (FactList (NextPage url) :: lists). simpl in Hcalls.
      rewrite Hcalls, <- app_assoc. split; [done|].
      intros r [->|Hr]%elem_of_cons; [eauto|by apply Hlists].
  - intros [= <- <- <-]. exists [].
    rewrite app_nil_r. split; [done|]. intros r Hr. by apply elem_of_nil in Hr.
Qed.

Lemma list_facts_calls fuel url params headers n items f n' :
  api_iterator (get_facts api) fuel url params headers n
    = Some (items, f, n') →
  (f = Next ∨ ∃ e, f = Raised e) ∧
  ∃ lists, log_calls n' = log_calls n ++ lists ∧
           ∀ r, r ∈ lists → ∃ lr, r = FactList lr.
Proof.
  unfold api_iterator. set (params' := if dict_mem _ _ then _ else _).
  unfold get_facts at 1, fact_request.
  destruct (api _ (log_world n)) as [response w].
  destruct (fact_listing response) as [old|results next].
  - intros [= <- <- <-]. split; [by left|].
    exists [FactList (FirstPage url params' headers)]. simpl.
    split; [done|]. intros r ->%list_elem_of_singleton. eauto.
  - destruct (follow_pages _ fuel next _) as [[[items' f'] n1]|] eqn:Hrec;
      [|done].
    intros [= <- <- <-].
    destruct (follow_facts_calls _ _ _ _ _ _ Hrec) as (lists & Hcalls & Hlists).
    split.
    + clear -Hrec. revert next w items' f' n1 Hrec.
      generalize (log_calls n ++ [FactList (FirstPage url params' headers)]).
      induction fuel as [|fuel IH]; intros calls0 next w items' f' n1;
        destruct next as [url'|]; simpl;
        try (intros [= <- <- <-]; by left);
        (case_decide; [intros [= <- <- <-]; by left|]); [done|].
      unfold get_facts, fact_request. simpl.
      destruct (api _ w) as [response' w'].
      destruct (fact_listing response') as [old|results' next'].
      * intros [= <- <- <-]. right. eauto.
      * destruct (follow_pages _ fuel next' _) as [[[items2 f2] n2]|] eqn:Hrec2;
          [|done].
        intros [= <- <- <-]. eapply IH. exact Hrec2.
    + exists (FactList (FirstPage url params' headers) :: lists).
      simpl in Hcalls. rewrite Hcalls, <- app_assoc. split; [done|].
      intros r [->|Hr]%elem_of_cons; [eauto|by apply Hlists].
Qed.

Lemma create_facts_calls agent facts n :
  ∃ creates,
    log_calls (create_facts api agent facts n).2 = log_calls n ++ creates ∧
    creates `prefix_of` create_request agent <$> facts ∧
    ((create_facts api agent facts n).1 = Next →
     creates = create_request agent <$> facts) ∧
    ((create_facts api agent facts n).1 = Next
     ∨ (create_facts api agent facts n).1 = Return).
Proof.
  revert n. induction facts as [|[fact_name value] facts IH]; intros n; simpl.
  { exists []. rewrite app_nil_r. split_and!; [done|done|done|by left]. }
  unfold fact_request. destruct (api _ (log_world n)) as [response w].
  destruct (fact_status response =? 201).
  - destruct (IH {| log_world := w;
                    log_calls := log_calls n
                      ++ [FactCreate agent fact_name value] |})
      as (creates & Hcalls & Hprefix & Hall & Hflow).
    exists (FactCreate agent fact_name value :: creates). simpl in Hcalls.
    rewrite Hcalls, <- app_assoc. split_and!; [done| | |done].
    + by apply prefix_cons.
    + intros Hnext. by rewrite (Hall Hnext).
  - exists [FactCreate agent fact_name value]. simpl.
    split_and!; [done| |done|by right].
    apply prefix_cons, prefix_nil.
Qed.

Lemma delete_facts_calls old_facts n :
  ∃ deletes,
    log_calls (delete_facts api old_facts n).2 = log_calls n ++ deletes ∧
    deletes `prefix_of` delete_request <$> old_facts ∧
    ((delete_facts api old_facts n).1 = Next →
     deletes = delete_request <$> old_facts) ∧
    ((delete_facts api old_facts n).1 = Next
     ∨ (delete_facts api old_facts n).1 = Return).
Proof.
  revert n. induction old_facts as [|fact old_facts IH]; intros n; simpl.
  { exists []. rewrite app_nil_r. split_and!; [done|done|done|by left]. }
  unfold fact_request. destruct (api _ (log_world n)) as [response w].
  destruct (negb _).
  - exists [FactDelete (fact_id fact)]. simpl.
    split_and!; [done| |done|by right].
    apply prefix_cons, prefix_nil.
  - destruct (IH {| log_world := w;
                    log_calls := log_calls n ++ [FactDelete (fact_id fact)] |})
      as (deletes & Hcalls & Hprefix & Hall & Hflow).
    exists (FactDelete (fact_id fact) :: deletes). simpl in Hcalls.
    rewrite Hcalls, <- app_assoc. split_and!; [done| | |done].
    + by apply prefix_cons.
    + intros Hnext. by rewrite (Hall Hnext).
Qed.

End send_facts_facts.

Section send_facts_properties.
Context {World : Type} (api : FactRequest → World → FactResponse * World).
Implicit Types (n : Log FactRequest World).

(** X20: Every run of [send_facts] issues its requests in three
    stages: list requests, then creations of the current facts in their
    order, then deletions.  A deletion is issued only after every current
    fact has been sent for creation, and unless the run reaches its end the
    time of the last sending stays what it was. *)
Theorem send_facts_deletes_only_after_creations fuel now agent s n f s' n' :
  send_facts api fuel now agent s n = Some (f, s', n') →
  ∃ lists creates deletes,
    log_calls n' = log_calls n ++ lists ++ creates ++ deletes ∧
    (∀ r, r ∈ lists → ∃ lr, r = FactList lr) ∧
    creates `prefix_of` create_request agent <$> last_facts s ∧
    (∀ r, r ∈ deletes → ∃ id, r = FactDelete id) ∧
    (deletes ≠ [] → creates = create_request agent <$> last_facts s) ∧
    (f ≠ Next → _last_facts_sent s' = _last_facts_sent s).
Proof.
  unfold send_facts. cbn [last_facts _last_facts_sent facts_uuid].
  destruct (api_iterator _ _ _ _ _ _) as [[[old_facts fl] n0]|] eqn:Hlist;
    [|done].
  destruct (list_facts_calls _ _ _ _ _ _ _ _ _ Hlist)
    as (Hfl & lists & Hcalls0 & Hlists).
  assert (Hdel : ∀ (l : list Fact) (ds : list FactRequest),
            ds `prefix_of` delete_request <$> l →
            ∀ r, r ∈ ds → ∃ id, r = FactDelete id).
  { intros l ds [k Hk] r Hr.
    assert (Hin : r ∈ delete_request <$> l)
      by (rewrite Hk; apply elem_of_app; by left).
    apply list_elem_of_fmap in Hin as (fact & -> & _). by eexists. }
  assert (Hstop : ∀ e,
    Some (Raised e,
          {| last_facts := last_facts s;
             _last_facts_sent := _last_facts_sent s;
             facts_uuid := None |}, n0) = Some (f, s', n') →
    ∃ lists creates deletes,
      log_calls n' = log_calls n ++ lists ++ creates ++ deletes ∧
      (∀ r, r ∈ lists → ∃ lr, r = FactList lr) ∧
      creates `prefix_of` create_request agent <$> last_facts s ∧
      (∀ r, r ∈ deletes → ∃ id, r = FactDelete id) ∧
      (deletes ≠ [] → creates = create_request agent <$> last_facts s) ∧
      (f ≠ Next → _last_facts_sent s' = _last_facts_sent s)).
  { intros e [= <- <- <-]. exists lists, [], [].
    rewrite !app_nil_r. split_and!; [done|done|apply prefix_nil| |done|done].
    intros r Hr. by apply elem_of_nil in Hr. }
  destruct Hfl as [->|[e ->]]; [|by apply (Hstop e)]. clear Hstop.
  destruct (create_facts_calls api agent (last_facts s) n0)
    as (creates & Hcalls1 & Hprefix1 & Hall1 & Hflow1).
  destruct (create_facts api agent (last_facts s) n0) as [f1 n1].
  simpl in Hcalls1, Hall1, Hflow1.
  destruct Hflow1 as [->| ->].
  - destruct (delete_facts_calls api old_facts n1)
      as (deletes & Hcalls2 & Hprefix2 & Hall2 & Hflow2).
    destruct (delete_facts api old_facts n1) as [f2 n2].
    simpl in Hcalls2, Hall2, Hflow2.
    assert (Hlog : log_calls n2
                   = log_calls n ++ lists ++ creates ++ deletes).
    { rewrite Hcalls2, Hcalls1, Hcalls0. by rewrite <- !app_assoc. }
    destruct Hflow2 as [->| ->]; intros [= <- <- <-];
      exists lists, creates, deletes;
      (split_and!; [done|done|done|by eapply Hdel|by intros _; apply Hall1|done]).
  - intros [= <- <- <-]. exists lists, creates, [].
    rewrite app_nil_r.
    split_and!; [by rewrite Hcalls1, Hcalls0, <- app_assoc|done|done| |done|done].
    intros r Hr. by apply elem_of_nil in Hr.
Qed.

(** X21: When [send_facts] reaches its end, it has asked the registry
    to create every current fact and then to delete exactly the facts the
    listing returned, in the listing's order; the time of the last sending
    is the clock's, the facts themselves are unchanged and the legacy
    [facts_uuid] entry is gone. *)
Theorem send_facts_complete fuel now agent s n s' n' :
  send_facts api fuel now agent s n = Some (Next, s', n') →
  ∃ old_facts n0,
    api_iterator (get_facts api) fuel "/v1/agentfact/"
      [("agent"%string, agent); ("page_size"%string, "100"%string)]
      (Some [("X-Requested-With"%string, "XMLHttpRequest"%string)]) n
      = Some (old_facts, Next, n0) ∧
    log_calls n' = log_calls n0 ++ (create_request agent <$> last_facts s)
                     ++ (delete_request <$> old_facts) ∧
    s' = {| last_facts := last_facts s; _last_facts_sent := now;
            facts_uuid := None |}.
Proof.
  unfold send_facts. cbn [last_facts _last_facts_sent facts_uuid].
  destruct (api_iterator _ _ _ _ _ _) as [[[old_facts fl] n0]|] eqn:Hlist;
    [|done].
  destruct (list_facts_calls _ _ _ _ _ _ _ _ _ Hlist) as ([->|[e ->]] & _);
    [|done].
  destruct (create_facts_calls api agent (last_facts s) n0)
    as (creates & Hcalls1 & _ & Hall1 & Hflow1).
  destruct (create_facts api agent (last_facts s) n0) as [f1 n1].
  simpl in Hcalls1, Hall1, Hflow1.
  destruct Hflow1 as [->| ->]; [|done].
  destruct (delete_facts_calls api old_facts n1)
    as (deletes & Hcalls2 & _ & Hall2 & Hflow2).
  destruct (delete_facts api old_facts n1) as [f2 n2].
  simpl in Hcalls2, Hall2, Hflow2.
  destruct Hflow2 as [->| ->]; [|done].
  intros [= <- <-]. exists old_facts, n0. split_and!; [done| |done].
  by rewrite Hcalls2, Hcalls1, Hall1, Hall2, <- app_assoc.
Qed.

End send_facts_properties.

Lemma send_facts_deletes_only_after_creations_witness :
  ∃ lists creates deletes,
    [FactList (FirstPage "/v1/agentfact/"
                 [("agent"%string, "agent-1"%string);
                  ("page_size"%string, "100"%string)]
                 (Some [("X-Requested-With"%string,
                         "XMLHttpRequest"%string)]));
     FactCreate "agent-1" "kernel" "Linux";
     FactCreate "agent-1" "fqdn" "host.example.com"]
      = [] ++ lists ++ creates ++ deletes ∧
    (∀ r, r ∈ lists → ∃ lr, r = FactList lr) ∧
    creates `prefix_of` create_request "agent-1" <$> last_facts two_facts ∧
    (∀ r, r ∈ deletes → ∃ id, r = FactDelete id) ∧
    (deletes ≠ [] →
     creates = create_request "agent-1" <$> last_facts two_facts) ∧
    (Return ≠ Next → 0 = _last_facts_sent two_facts).
Proof.
  apply (send_facts_deletes_only_after_creations (facts_registry "fqdn")
           5%nat 1700 "agent-1" two_facts
           {| log_world := tt; log_calls := [] |}
           Return
           {| last_facts := last_facts two_facts; _last_facts_sent := 0;
              facts_uuid := None |}
           {| log_world := tt;
              log_calls :=
                [FactList (FirstPage "/v1/agentfact/"
                   [("agent"%string, "agent-1"%string);
                    ("page_size"%string, "100"%string)]
                   (Some [("X-Requested-With"%string,
                           "XMLHttpRequest"%string)]));
                 FactCreate "agent-1" "kernel" "Linux";
                 FactCreate "agent-1" "fqdn" "host.example.com"] |}).
  vm_compute. reflexivity.
Defined.

Lemma send_facts_complete_witness :
  ∃ old_facts n0,
    api_iterator (get_facts (facts_registry "none")) 5 "/v1/agentfact/"
      [("agent"%string, "agent-1"%string); ("page_size"%string, "100"%string)]
      (Some [("X-Requested-With"%string, "XMLHttpRequest"%string)])
      {| log_world := tt; log_calls := [] |}
      = Some (old_facts, Next, n0) ∧
    [FactList (FirstPage "/v1/agentfact/"
       [("agent"%string, "agent-1"%string);
        ("page_size"%string, "100"%string)]
       (Some [("X-Requested-With"%string, "XMLHttpRequest"%string)]));
     FactCreate "agent-1" "kernel" "Linux";
     FactCreate "agent-1" "fqdn" "host.example.com";
     FactDelete "f-old"]
      = log_calls n0 ++ (create_request "agent-1" <$> last_facts two_facts)
          ++ (delete_request <$> old_facts) ∧
    {| last_facts := last_facts two_facts; _last_facts_sent := 1700;
       facts_uuid := None |}
      = {| last_facts := last_facts two_facts; _last_facts_sent := 1700;
           facts_uuid := None |}.
Proof.
  apply (send_facts_complete (facts_registry "none")
           5%nat 1700 "agent-1" two_facts
           {| log_world := tt; log_calls := [] |}
           {| last_facts := last_facts two_facts; _last_facts_sent := 1700;
              facts_uuid := None |}
           {| log_world := tt;
              log_calls :=
                [FactList (FirstPage "/v1/agentfact/"
                   [("agent"%string, "agent-1"%string);
                    ("page_size"%string, "100"%string)]
                   (Some [("X-Requested-With"%string,
                           "XMLHttpRequest"%string)]));
                 FactCreate "agent-1" "kernel" "Linux";
                 FactCreate "agent-1" "fqdn" "host.example.com";
                 FactDelete "f-old"] |}).
  vm_compute. reflexivity.
Defined.

(** ** Services *)

Section listing_log.
Context {A R World : Type}.
Variable get : ListRequest → Log R World → Listing A * Log R World.
Variable inj : ListRequest → R.
Hypothesis get_logged :
  ∀ r n, log_calls (get r n).2 = log_calls n ++ [inj r].

Lemma follow_pages_logged fuel next n items f n' :
  follow_pages get fuel next n = Some (items, f, n') →
  (f = Next ∨ f = Raised TypeError)
  ∧ ∃ lists, log_calls n' = log_calls n ++ (inj <$> lists).
Proof.
  revert next n items f n'. induction fuel as [|fuel IH];
    intros next n items f n'; destruct next as [url|]; simpl;
    try (intros [= <- <- <-]; split; [by left|];
         exists []; by rewrite app_nil_r).
  - case_decide; [|done]. intros [= <- <- <-]. split; [by left|].
    exists []. by rewrite app_nil_r.
  - case_decide.
    { intros [= <- <- <-]. split; [by left|]. exists [].
      by rewrite app_nil_r. }
    pose proof (get_logged (NextPage url) n) as Hlog.
    destruct (get (NextPage url) n) as [data n1]. simpl in Hlog.
    destruct data as [old|results next'].
    + intros [= <- <- <-]. split; [by right|]. by exists [NextPage url].
    + destruct (follow_pages get fuel next' n1) as [[[items' f'] n2]|]
        eqn:Hrec; [|done].
      intros [= <- <- <-].
      destruct (IH _ _ _ _ _ Hrec) as (Hf & lists & Hcalls).
      split; [done|]. exists (NextPage url :: lists).
      rewrite Hcalls, Hlog, <- app_assoc. done.
Qed.

Lemma api_iterator_logged fuel url params headers n items f n' :
  api_iterator get fuel url params headers n = Some (items, f, n') →
  (f = Next ∨ f = Raised TypeError)
  ∧ ∃ lists, log_calls n' = log_calls n ++ (inj <$> lists).
Proof.
  unfold api_iterator. set (params' := if dict_mem _ _ then _ else _).
  pose proof (get_logged (FirstPage url params' headers) n) as Hlog.
  destruct (get (FirstPage url params' headers) n) as [data n1].
  simpl in Hlog. destruct data as [old|results next].
  - intros [= <- <- <-]. split; [by left|].
    by exists [FirstPage url params' headers].
  - destruct (follow_pages get fuel next n1) as [[[items' f'] n2]|] eqn:Hrec;
      [|done].
    intros [= <- <- <-].
    destruct (follow_pages_logged _ _ _ _ _ _ Hrec) as (Hf & lists & Hcalls).
    split; [done|]. exists (FirstPage url params' headers :: lists).
    rewrite Hcalls, Hlog, <- app_assoc. done.
Qed.

End listing_log.

Section services_facts.
Context {World : Type}.
Variable gethostbyname : string → option string.
Variable api : ServiceRequest → World → ServiceResponse * World.
Implicit Types (c : Connector) (n : Log ServiceRequest World).

Lemma get_services_logged r n :
  log_calls (get_services api r n).2 = log_calls n ++ [ServiceList r].
Proof.
  unfold get_services, service_request.
  by destruct (api _ (log_world n)).
Qed.



Lemma register_services_state account_id services c n :
  let c' := (_register_services gethostbyname api account_id services c n).1.2 in
  c' = set_services_uuid (services_uuid c') c ∧
  ∀ key,
    services_uuid c' !! key = services_uuid c !! key
    ∨ ∃ service_info addresses uuid,
        (key, service_info) ∈ services
        ∧ get_listen_addresses gethostbyname service_info = Ok addresses
        ∧ services_uuid c' !! key
          = Some (service_entry key service_info addresses uuid).
Proof.
  revert c n. induction services as [|[key service_info] services IH];
    intros c n; simpl.
  { split; [by destruct c|]. intros key. by left. }
  assert (Hweaken : ∀ c1 n1,
    (let c' :=
       (_register_services gethostbyname api account_id services c1 n1).1.2 in
     c' = set_services_uuid (services_uuid c') c1 ∧
     ∀ key0,
       services_uuid c' !! key0 = services_uuid c1 !! key0
       ∨ ∃ service_info0 addresses uuid,
           (key0, service_info0) ∈ services
           ∧ get_listen_addresses gethostbyname service_info0 = Ok addresses
           ∧ services_uuid c' !! key0
             = Some (service_entry key0 service_info0 addresses uuid)) →
    ∀ key0,
      services_uuid
        (_register_services gethostbyname api account_id services c1 n1).1.2
        !! key0 = services_uuid c1 !! key0
      ∨ ∃ service_info0 addresses uuid,
          (key0, service_info0) ∈ (key, service_info) :: services
          ∧ get_listen_addresses gethostbyname service_info0 = Ok addresses
          ∧ services_uuid
              (_register_services gethostbyname api account_id services c1 n1)
                .1.2 !! key0
            = Some (service_entry key0 service_info0 addresses uuid)).
  { intros c1 n1 [_ H] key0. destruct (H key0) as [?|(i & a & u & Hin & ? & ?)];
      [by left|right]. exists i, a, u. split_and!; [|done..].
    apply elem_of_cons. by right. }
  destruct (get_listen_addresses gethostbyname service_info)
    as [addresses|e] eqn:Haddr; simpl.
  2:{ split; [by destruct c|]. intros key0. by left. }
  destruct (service_request_for account_id c key service_info addresses)
    as [[r expected_code]|]; simpl.
  - unfold service_request. destruct (api r (log_world n)) as [response w].
    destruct (negb _).
    + split; [apply IH|]. apply Hweaken, IH.
    + match goal with
      | |- context [_register_services _ _ _ _ ?c1 ?n1] =>
          pose proof (IH c1 n1) as Hrec;
          pose proof (Hweaken c1 n1 Hrec) as Hkeys
      end.
      cbv zeta in Hrec. destruct Hrec as [Hframe _]. split.
      * rewrite Hframe at 1. done.
      * intros key0. destruct (Hkeys key0) as [Heq|?]; [|by right].
        simpl in Heq. destruct (decide (key0 = key)) as [->|Hne].
        -- right. exists service_info, addresses, (service_json_id response).
           split_and!; [apply elem_of_cons; by left|done|].
           by rewrite Heq, lookup_insert_eq.
        -- left. by rewrite Heq, lookup_insert_ne.
  - split; [apply IH|]. apply Hweaken, IH.
Qed.

End services_facts.



Section services_written.
Context {World : Type}.
Variable gethostbyname : string → option string.
Variable api : ServiceRequest → World → ServiceResponse * World.
Implicit Types (c : Connector) (n : Log ServiceRequest World).

Lemma register_services_cons account_id key service_info services c n :
  _register_services gethostbyname api account_id
    ((key, service_info) :: services) c n
  = match register_service gethostbyname api account_id key service_info
            c n with
    | inl e => (Raised e, c, n)
    | inr (c1, n1) =>
        _register_services gethostbyname api account_id services c1 n1
    end.
Proof.
  simpl. unfold register_service.
  destruct (get_listen_addresses gethostbyname service_info)
    as [addresses|e]; [|done].
  destruct (service_request_for account_id c key service_info addresses)
    as [[r expected_code]|]; [|done].
  destruct (service_request api r n) as [response n1].
  by destruct (negb _).
Qed.

(** A round writes nothing but, when the registry answers its request
    with the expected status, the entry of its own service, with the
    ['id'] of that response. *)
Lemma register_service_written account_id key service_info c n c1 n1 k :
  register_service gethostbyname api account_id key service_info c n
    = inr (c1, n1) →
  services_uuid c1 !! k = services_uuid c !! k
  ∨ (k = key
     ∧ ∃ addresses r expected_code,
         get_listen_addresses gethostbyname service_info = Ok addresses
         ∧ service_request_for account_id c key service_info addresses
           = Some (r, expected_code)
         ∧ service_status (api r (log_world n)).1 = expected_code
         ∧ services_uuid c1 !! k
           = Some (service_entry key service_info addresses
                     (service_json_id (api r (log_world n)).1))).
Proof.
  unfold register_service.
  destruct (get_listen_addresses gethostbyname service_info)
    as [addresses|e]; [|done].
  destruct (service_request_for account_id c key service_info addresses)
    as [[r expected_code]|] eqn:Hrequest.
  2:{ intros [= <- <-]. by left. }
  unfold service_request.
  destruct (api r (log_world n)) as [response w] eqn:Hanswer.
  destruct (service_status response =? expected_code) eqn:Hstatus; simpl.
  2:{ intros [= <- <-]. by left. }
  intros [= <- <-]. simpl.
  destruct (decide (k = key)) as [->|Hne].
  - right. split; [done|]. exists addresses, r, expected_code.
    rewrite Hanswer. simpl. split_and!; [done|done|by apply Z.eqb_eq|].
    by rewrite lookup_insert_eq.
  - left. by rewrite lookup_insert_ne.
Qed.

Lemma register_services_written account_id services c n key :
  services_uuid
    (_register_services gethostbyname api account_id services c n).1.2
    !! key = services_uuid c !! key
  ∨ ∃ before service_info after addresses r expected_code cb nb,
      services = before ++ (key, service_info) :: after
      ∧ _register_services gethostbyname api account_id before c n
        = (Next, cb, nb)
      ∧ get_listen_addresses gethostbyname service_info = Ok addresses
      ∧ service_request_for account_id cb key service_info addresses
        = Some (r, expected_code)
      ∧ service_status (api r (log_world nb)).1 = expected_code
      ∧ services_uuid
          (_register_services gethostbyname api account_id services c n).1.2
          !! key
        = Some (service_entry key service_info addresses
                  (service_json_id (api r (log_world nb)).1)).
Proof.
  revert c n. induction services as [|[key0 info0] services IH]; intros c n.
  { by left. }
  rewrite register_services_cons.
  destruct (register_service gethostbyname api account_id key0 info0 c n)
    as [e|[c1 n1]] eqn:Hround; [by left|].
  destruct (IH c1 n1)
    as [Hkept|(before & service_info & after & addresses & r & expected_code
               & cb & nb & -> & Hbefore & Haddr & Hrequest & Hstatus
               & Hentry)].
  - destruct (register_service_written _ _ _ _ _ _ _ key Hround)
      as [Hsame|[-> (addresses & r & expected_code & Haddr & Hrequest
                     & Hstatus & Hentry)]].
    + left. by rewrite Hkept.
    + right. exists [], info0, services, addresses, r, expected_code, c, n.
      split_and!; try done. by rewrite Hkept.
  - right.
    exists ((key0, info0) :: before), service_info, after, addresses, r,
      expected_code, cb, nb.
    split_and!; try done.
    by rewrite register_services_cons, Hround.
Qed.

(** X23: A pass of [_register_services] changes nothing of the
    connector but [services_uuid], and there every entry is either what it
    was before the pass or the entry computed from the discovered service
    of that key, with the identifier the registry returned: the ['id'] of
    the response, of the expected status, that the registry gave to the
    request the pass issued for that service, in the state the pass had
    reached. *)
Theorem register_services_fresh_or_kept (account_id : string)
  (services : dict ServiceKey ServiceInfo) c n (key : ServiceKey) :
  (_register_services gethostbyname api account_id services c n).1.2
  = set_services_uuid
      (services_uuid
         (_register_services gethostbyname api account_id services c n).1.2)
      c ∧
  (services_uuid
     (_register_services gethostbyname api account_id services c n).1.2
     !! key = services_uuid c !! key
   ∨ ∃ before service_info after addresses r expected_code cb nb,
       services = before ++ (key, service_info) :: after
       ∧ _register_services gethostbyname api account_id before c n
         = (Next, cb, nb)
       ∧ get_listen_addresses gethostbyname service_info = Ok addresses
       ∧ service_request_for account_id cb key service_info addresses
         = Some (r, expected_code)
       ∧ service_status (api r (log_world nb)).1 = expected_code
       ∧ services_uuid
           (_register_services gethostbyname api account_id services c n).1.2
           !! key
         = Some (service_entry key service_info addresses
                   (service_json_id (api r (log_world nb)).1))).
Proof.
  pose proof (register_services_state gethostbyname api account_id services
                c n) as [Hframe _].
  split; [exact Hframe|apply register_services_written].
Qed.

End services_written.

Section purge_facts.
Context {World : Type}.
Variable api : ServiceRequest → World → ServiceResponse * World.
Implicit Types (c : Connector) (n : Log ServiceRequest World).

Lemma purge_from_state_spec keys c0 c n :
  NoDup keys →
  (∀ key, key ∈ keys → is_Some (services_uuid c0 !! key)) →
  (∀ key, key ∈ keys → services_uuid c !! key = services_uuid c0 !! key) →
  (purge_from_state api keys c n).1.1 = Next ∧
  (purge_from_state api keys c n).1.2
  = set_services_uuid (services_uuid (purge_from_state api keys c n).1.2) c ∧
  log_calls (purge_from_state api keys c n).2
  = log_calls n ++ omap (deletion_of c0) keys ∧
  (∀ key, key ∉ keys →
          services_uuid (purge_from_state api keys c n).1.2 !! key
          = services_uuid c !! key) ∧
  (∀ key entry,
     services_uuid (purge_from_state api keys c n).1.2 !! key = Some entry →
     services_uuid c !! key = Some entry).
Proof.
  revert c n. induction keys as [|key keys IH]; intros c n Hnodup Hin Hsame;
    simpl.
  { rewrite app_nil_r. split_and!; [done|by destruct c|done..]. }
  apply NoDup_cons in Hnodup as [Hnotin Hnodup].
  unfold deletion_of at 1.
  rewrite <- (Hsame key) by (apply elem_of_cons; by left).
  destruct (services_uuid c !! key) as [entry|] eqn:Hkey.
  2:{ destruct (Hin key) as [entry Hentry]; [apply elem_of_cons; by left|].
      rewrite <- (Hsame key) in Hentry by (apply elem_of_cons; by left).
      congruence. }
  simpl. unfold service_request.
  destruct (api _ (log_world n)) as [response w].
  assert (Hin' : ∀ key', key' ∈ keys → is_Some (services_uuid c0 !! key'))
    by (intros key' ?; apply Hin, elem_of_cons; by right).
  destruct (negb _).
  - destruct (IH c {| log_world := w;
                      log_calls := log_calls n
                        ++ [ServiceDelete (entry_uuid entry)] |})
      as (Hflow & Hframe & Hcalls & Hother & Hsub); [done|done| |].
    { intros key' ?. apply Hsame, elem_of_cons. by right. }
    split_and!; [done|done| | |done].
    + rewrite Hcalls. simpl. by rewrite <- app_assoc.
    + intros key' Hnot. apply not_elem_of_cons in Hnot as [_ Hnot].
      by apply Hother.
  - match goal with
    | |- context [purge_from_state _ _ ?c1 ?n1] =>
        destruct (IH c1 n1)
          as (Hflow & Hframe & Hcalls & Hother & Hsub); [done|done| |]
    end.
    { intros key' Hkey'. simpl. rewrite lookup_delete_ne.
      - apply Hsame, elem_of_cons. by right.
      - intros ->. by apply Hnotin. }
    split_and!; [done| | | |].
    + rewrite Hframe at 1. done.
    + rewrite Hcalls. simpl. by rewrite <- app_assoc.
    + intros key' Hnot. apply not_elem_of_cons in Hnot as [Hne Hnot].
      rewrite Hother by done. simpl. by rewrite lookup_delete_ne.
    + intros key' entry' Hlook. apply Hsub in Hlook. simpl in Hlook.
      apply lookup_delete_Some in Hlook as [_ Hlook]. done.
Qed.

Lemma purge_unlisted_spec ids keys c :
  NoDup keys →
  (∀ key, key ∈ keys → is_Some (services_uuid c !! key)) →
  (purge_unlisted ids keys c).1.1 = Next ∧
  (purge_unlisted ids keys c).1.2
  = set_services_uuid (services_uuid (purge_unlisted ids keys c).1.2) c ∧
  (∀ key entry,
     services_uuid (purge_unlisted ids keys c).1.2 !! key = Some entry ↔
     services_uuid c !! key = Some entry
     ∧ (key ∈ keys → entry_uuid entry ∈ ids)) ∧
  (∀ key,
     key ∈ (purge_unlisted ids keys c).2 ↔
     key ∈ keys ∧ ∃ entry, services_uuid c !! key = Some entry
                           ∧ entry_uuid entry ∉ ids).
Proof.
  revert c. induction keys as [|key keys IH]; intros c Hnodup Hin; simpl.
  { split_and!; [done|by destruct c| |].
    - intros key entry. split; [intros ?; split; [done|]|by intros [? _]].
      intros Hnil. by apply elem_of_nil in Hnil.
    - intros key. split; [intros H|intros [H _]]; by apply elem_of_nil in H. }
  apply NoDup_cons in Hnodup as [Hnotin Hnodup].
  destruct (services_uuid c !! key) as [entry|] eqn:Hkey.
  2:{ destruct (Hin key) as [entry Hentry]; [apply elem_of_cons; by left|].
      congruence. }
  assert (Hin' : ∀ key', key' ∈ keys → is_Some (services_uuid c !! key'))
    by (intros key' ?; apply Hin, elem_of_cons; by right).
  case_bool_decide as Hlisted.
  - destruct (IH c) as (Hflow & Hframe & Hstate & Hdeleted); [done|done|].
    split_and!; [done|done| |].
    + intros key' entry'. rewrite Hstate. split.
      * intros [Hlook Hk]. split; [done|].
        intros [->|?]%elem_of_cons; [|by apply Hk]. congruence.
      * intros [Hlook Hk]. split; [done|]. intros ?. apply Hk, elem_of_cons.
        by right.
    + intros key'. rewrite Hdeleted. split.
      * intros [? ?]. split; [apply elem_of_cons; by right|done].
      * intros [[->|?]%elem_of_cons (entry' & Hlook & Hnot)]; [|by eauto].
        congruence.
  - match goal with
    | |- context [purge_unlisted _ _ ?c1] =>
        destruct (IH c1) as (Hflow & Hframe & Hstate & Hdeleted); [done| |];
        [|destruct (purge_unlisted ids keys c1) as [[f c'] deleted_services]]
    end.
    { intros key' Hkey'. simpl. rewrite lookup_delete_ne; [by apply Hin'|].
      intros ->. by apply Hnotin. }
    simpl in *. split_and!; [done| | |].
    + rewrite Hframe at 1. done.
    + intros key' entry'. rewrite Hstate. split.
      * intros [Hlook Hk]. apply lookup_delete_Some in Hlook as [Hne Hlook].
        split; [done|]. intros [->|?]%elem_of_cons; [done|by apply Hk].
      * intros [Hlook Hk]. destruct (decide (key = key')) as [->|Hne].
        { exfalso. apply Hlisted.
          assert (entry' = entry) as <- by congruence.
          apply Hk, elem_of_cons. by left. }
        split; [by apply lookup_delete_Some|].
        intros ?. apply Hk, elem_of_cons. by right.
    + intros key'. rewrite elem_of_cons, Hdeleted. split.
      * intros [->|[Hk (entry' & Hlook & Hnot)]].
        -- split; [apply elem_of_cons; by left|by eauto].
        -- apply lookup_delete_Some in Hlook as [_ Hlook].
           split; [apply elem_of_cons; by right|by eauto].
      * intros [[->|Hk]%elem_of_cons (entry' & Hlook & Hnot)]; [by left|].
        right. split; [done|]. exists entry'. split; [|done].
        apply lookup_delete_Some. split; [|done]. intros ->. by apply Hnotin.
Qed.

End purge_facts.

Section purge_properties.
Context {World : Type}.
Variable api : ServiceRequest → World → ServiceResponse * World.
Implicit Types (c : Connector) (n : Log ServiceRequest World).

Lemma vanished_services (services : dict ServiceKey ServiceInfo) c :
  NoDup (elements (dom (services_uuid c)
                   ∖ (list_to_set (dict_keys services) : gset ServiceKey)))
  ∧ ∀ key,
      key ∈ elements (dom (services_uuid c)
                      ∖ (list_to_set (dict_keys services) : gset ServiceKey))
      ↔ is_Some (services_uuid c !! key) ∧ key ∉ dict_keys services.
Proof.
  split; [apply NoDup_elements|]. intros key.
  rewrite elem_of_elements, elem_of_difference, elem_of_dom,
    elem_of_list_to_set. done.
Qed.

(** X24: When [_purge_deleted_services] reaches its end, every service
    left in [services_uuid] was there before and is in the registry's
    listing; a discovered service is kept exactly when the registry lists
    it, and is reported to the discovery as deleted exactly when it does
    not; nothing else of the connector changes. *)
Theorem purge_keeps_listed_services fuel services c n c' deleted_services n' :
  _purge_deleted_services api fuel services c n
    = Some (Next, c', deleted_services, n') →
  ∃ services_registred n1,
    api_iterator (get_services api) fuel "/v1/service/"
      [("agent"%string, agent_uuid c)] None n1
      = Some (services_registred, Next, n') ∧
    c' = set_services_uuid (services_uuid c') c ∧
    (∀ key entry,
       services_uuid c' !! key = Some entry →
       services_uuid c !! key = Some entry
       ∧ entry_uuid entry ∈ services_registred) ∧
    (∀ key entry,
       services_uuid c !! key = Some entry → key ∈ dict_keys services →
       (services_uuid c' !! key = Some entry
        ↔ entry_uuid entry ∈ services_registred)
       ∧ (key ∈ deleted_services
          ↔ entry_uuid entry ∉ services_registred)) ∧
    (∀ key, key ∈ deleted_services →
            services_uuid c' !! key = None
            ∧ is_Some (services_uuid c !! key)).
Proof.
  unfold _purge_deleted_services.
  destruct (vanished_services services c) as [Hnodup Hvanished].
  destruct (purge_from_state_spec api _ c c n Hnodup)
    as (Hflow1 & Hframe1 & _ & Hother1 & Hsub1);
    [by intros key [? _]%Hvanished|done|].
  destruct (purge_from_state api _ c n) as [[f1 c1] n1].
  simpl in Hflow1, Hframe1, Hother1, Hsub1. subst f1.
  assert (agent_uuid c1 = agent_uuid c) as -> by (by rewrite Hframe1).
  destruct (api_iterator _ _ _ _ _ _) as [[[ids fl] n2]|] eqn:Hlist; [|done].
  destruct (api_iterator_logged _ ServiceList (get_services_logged api)
              _ _ _ _ _ _ _ _ Hlist) as [[->| ->] _]; [|done].
  destruct (purge_unlisted_spec ids (map_to_list (services_uuid c1)).*1 c1)
    as (Hflow2 & Hframe2 & Hstate2 & Hdeleted2).
  { apply NoDup_fst_map_to_list. }
  { intros key [[key' entry] [-> Hin]]%list_elem_of_fmap.
    apply elem_of_map_to_list in Hin. by eexists. }
  destruct (purge_unlisted ids _ c1) as [[f2 c2] deleted].
  simpl in Hflow2, Hframe2, Hstate2, Hdeleted2.
  intros [= -> <- <- <-].
  assert (Hkeys : ∀ key entry, services_uuid c1 !! key = Some entry →
                               key ∈ (map_to_list (services_uuid c1)).*1).
  { intros key entry Hlook. apply list_elem_of_fmap.
    exists (key, entry). split; [done|]. by apply elem_of_map_to_list. }
  assert (Hkept : ∀ key entry, services_uuid c !! key = Some entry →
                               key ∈ dict_keys services →
                               services_uuid c1 !! key = Some entry).
  { intros key entry Hlook Hin. rewrite Hother1; [done|].
    intros [_ Hnot]%Hvanished. by apply Hnot. }
  exists ids, n1. split_and!.
  - done.
  - rewrite Hframe2 at 1. rewrite Hframe1. done.
  - intros key entry [Hlook Hk]%Hstate2. split; [by apply Hsub1|].
    by eapply Hk, Hkeys.
  - intros key entry Hlook Hin. pose proof (Hkept _ _ Hlook Hin) as Hlook1.
    split.
    + rewrite Hstate2. split; [intros [_ Hk]; by eapply Hk, Hkeys|].
      by intros ?.
    + rewrite Hdeleted2. split.
      * intros [_ (entry' & Hlook' & Hnot)]. congruence.
      * intros Hnot. split; [by eapply Hkeys|]. by exists entry.
  - intros key [Hk (entry & Hlook & Hnot)]%Hdeleted2. split.
    + destruct (services_uuid c2 !! key) as [entry'|] eqn:Hlook2; [|done].
      apply Hstate2 in Hlook2 as [Hlook2 Hlisted].
      exfalso. apply Hnot. assert (entry' = entry) as <- by congruence.
      by apply Hlisted.
    + exists entry. by apply Hsub1.
Qed.

(** X25: Whatever the registry answers and however the run ends,
    [_purge_deleted_services] first asks for the deletion of each service
    that is in the state and no longer discovered, and of no other, and
    then only lists the services: it creates and updates nothing. *)
Theorem purge_deletes_vanished_services_only fuel services c n f c'
  deleted_services n' :
  _purge_deleted_services api fuel services c n
    = Some (f, c', deleted_services, n') →
  ∃ deletes lists,
    log_calls n' = log_calls n ++ deletes ++ (ServiceList <$> lists) ∧
    lists ≠ [] ∧
    ∀ r, r ∈ deletes ↔
         ∃ key entry, services_uuid c !! key = Some entry
                      ∧ (key ∉ dict_keys services)
                      ∧ r = ServiceDelete (entry_uuid entry).
Proof.
  unfold _purge_deleted_services.
  destruct (vanished_services services c) as [Hnodup Hvanished].
  destruct (purge_from_state_spec api _ c c n Hnodup)
    as (Hflow1 & Hframe1 & Hcalls1 & _ & _);
    [by intros key [? _]%Hvanished|done|].
  destruct (purge_from_state api _ c n) as [[f1 c1] n1].
  simpl in Hflow1, Hframe1, Hcalls1. subst f1.
  destruct (api_iterator _ _ _ _ _ _) as [[[ids fl] n2]|] eqn:Hlist; [|done].
  pose proof Hlist as Hlist'.
  apply (api_iterator_logged _ ServiceList (get_services_logged api))
    in Hlist' as [Hfl (lists & Hcalls2)].
  assert (Hlists : lists ≠ []).
  { intros ->. simpl in Hcalls2. rewrite app_nil_r in Hcalls2.
    revert Hlist. unfold api_iterator.
    set (params' := if dict_mem _ _ then _ else _).
    pose proof (get_services_logged api
                  (FirstPage "/v1/service/" params' None) n1) as Hfirst.
    destruct (get_services api _ n1) as [data n3]. simpl in Hfirst.
    destruct data as [old|results next].
    - intros [= <- <- <-]. rewrite Hfirst in Hcalls2.
      apply (f_equal length) in Hcalls2. rewrite length_app in Hcalls2.
      simpl in Hcalls2. lia.
    - destruct (follow_pages _ fuel next n3) as [[[items' f'] n4]|] eqn:Hrec;
        [|done].
      intros [= <- <- <-].
      apply (follow_pages_logged _ ServiceList (get_services_logged api))
        in Hrec as [_ (lists' & Hcalls4)].
      rewrite Hcalls4, Hfirst in Hcalls2.
      apply (f_equal length) in Hcalls2. rewrite !length_app in Hcalls2.
      simpl in Hcalls2. lia. }
  assert (Hdeletes : ∀ r,
    r ∈ omap (deletion_of c)
          (elements (dom (services_uuid c)
                     ∖ (list_to_set (dict_keys services) : gset ServiceKey)))
    ↔ ∃ key entry, services_uuid c !! key = Some entry
                   ∧ (key ∉ dict_keys services)
                   ∧ r = ServiceDelete (entry_uuid entry)).
  { intros r. rewrite list_elem_of_omap. unfold deletion_of. split.
    - intros (key & [_ Hnot]%Hvanished & Hr).
      destruct (services_uuid c !! key) as [entry|] eqn:Hlook; [|done].
      simpl in Hr. injection Hr as <-. by exists key, entry.
    - intros (key & entry & Hlook & Hnot & ->). exists key.
      split; [apply Hvanished; by eauto|]. by rewrite Hlook. }
  assert (Hlog : log_calls n2
                 = log_calls n
                     ++ omap (deletion_of c)
                          (elements
                             (dom (services_uuid c)
                              ∖ (list_to_set (dict_keys services)
                                 : gset ServiceKey)))
                     ++ (ServiceList <$> lists))
    by (by rewrite Hcalls2, Hcalls1, <- app_assoc).
  destruct Hfl as [->| ->].
  - destruct (purge_unlisted_spec ids (map_to_list (services_uuid c1)).*1 c1)
      as (Hflow2 & _).
    { apply NoDup_fst_map_to_list. }
    { intros key [[key' entry] [-> Hin]]%list_elem_of_fmap.
      apply elem_of_map_to_list in Hin. by eexists. }
    destruct (purge_unlisted ids _ c1) as [[f2 c2] deleted].
    simpl in Hflow2. intros [= <- <- <- <-]. eauto.
  - intros [= <- <- <- <-]. eauto.
Qed.

End purge_properties.

Lemma purge_keeps_listed_services_witness :
  ∃ services_registred n1,
    api_iterator (get_services (services_registry [] 204)) 5 "/v1/service/"
      [("agent"%string, agent_uuid two_services)] None n1
      = Some (services_registred, Next,
              {| log_world := tt;
                 log_calls :=
                   [ServiceDelete "s-redis";
                    ServiceList
                      (FirstPage "/v1/service/"
                         [("agent"%string, "a1"%string);
                          ("page_size"%string, "100"%string)] None)] |}) ∧
    fresh = set_services_uuid (services_uuid fresh) two_services ∧
    (∀ key entry,
       services_uuid fresh !! key = Some entry →
       services_uuid two_services !! key = Some entry
       ∧ entry_uuid entry ∈ services_registred) ∧
    (∀ key entry,
       services_uuid two_services !! key = Some entry →
       key ∈ dict_keys discovered →
       (services_uuid fresh !! key = Some entry
        ↔ entry_uuid entry ∈ services_registred)
       ∧ (key ∈ [("nginx"%string, @None string)]
          ↔ entry_uuid entry ∉ services_registred)) ∧
    (∀ key, key ∈ [("nginx"%string, @None string)] →
            services_uuid fresh !! key = None
            ∧ is_Some (services_uuid two_services !! key)).
Proof.
  apply (purge_keeps_listed_services (services_registry [] 204) 5 discovered
           two_services {| log_world := tt; log_calls := [] |}).
  vm_compute. reflexivity.
Defined.

Lemma purge_deletes_vanished_services_only_witness :
  ∃ deletes lists,
    [ServiceDelete "s-redis";
     ServiceList
       (FirstPage "/v1/service/"
          [("agent"%string, "a1"%string);
           ("page_size"%string, "100"%string)] None)]
      = [] ++ deletes ++ (ServiceList <$> lists) ∧
    lists ≠ [] ∧
    ∀ r, r ∈ deletes ↔
         ∃ key entry, services_uuid two_services !! key = Some entry
                      ∧ (key ∉ dict_keys discovered)
                      ∧ r = ServiceDelete (entry_uuid entry).
Proof.
  apply (purge_deletes_vanished_services_only (services_registry [] 500) 5
           discovered two_services {| log_world := tt; log_calls := [] |}
           Next
           fresh [("nginx"%string, None); ("redis"%string, None)]
           {| log_world := tt;
              log_calls :=
                [ServiceDelete "s-redis";
                 ServiceList
                   (FirstPage "/v1/service/"
                      [("agent"%string, "a1"%string);
                       ("page_size"%string, "100"%string)] None)] |}).
  vm_compute. reflexivity.
Defined.

(** ** The configuration *)

Lemma append_cons (a : ascii) (s1 s2 : string) :
  (String a s1 +:+ s2 = String a (s1 +:+ s2))%string.
Proof. reflexivity. Qed.

Lemma append_empty (s : string) : (s +:+ "" = s)%string.
Proof.
  induction s as [|b s IH]; [done|]. by rewrite append_cons, IH.
Qed.

Lemma append_snoc (s1 s2 : string) (a : ascii) :
  ((s1 +:+ String a "") +:+ s2 = s1 +:+ String a s2)%string.
Proof.
  induction s1 as [|b s1 IH]; [done|]. by rewrite !append_cons, IH.
Qed.

Lemma dotless_snoc (s : string) (a : ascii) :
  dotless s = true → a ≠ "."%char → dotless (s +:+ String a "") = true.
Proof.
  intros Hs Ha. induction s as [|b s IH].
  - simpl. rewrite bool_decide_eq_false_2 by done. done.
  - rewrite append_cons. simpl in *.
    apply andb_true_iff in Hs as [-> Hs]. simpl. by apply IH.
Qed.

Lemma split_from_dot_cons (current s : string) (a : ascii) :
  split_from "." 0 current (String a s)
  = if decide (a = "."%char) then current :: split_from "." 0 "" s
    else split_from "." 0 (current +:+ String a "") s.
Proof.
  cbn [split_from String.prefix String.length Nat.sub].
  destruct (Ascii.ascii_dec "." a) as [<-|Hne].
  - rewrite decide_True by done. by destruct s.
  - rewrite decide_False; [done|]. by intros ->.
Qed.

Lemma split_from_dot_dotless (current s : string) :
  dotless current = true →
  Forall (λ piece, dotless piece = true) (split_from "." 0 current s).
Proof.
  revert current. induction s as [|a s IH]; intros current Hcurrent.
  { simpl. by constructor. }
  rewrite split_from_dot_cons. case_decide as Ha.
  - constructor; [done|]. by apply IH.
  - by apply IH, dotless_snoc.
Qed.

Lemma split_from_dotless (current piece : string) :
  dotless piece = true →
  split_from "." 0 current piece = [(current +:+ piece)%string].
Proof.
  revert current. induction piece as [|a piece IH]; intros current Hpiece.
  { simpl. by rewrite append_empty. }
  simpl in Hpiece. apply andb_true_iff in Hpiece as [Ha Hpiece].
  apply negb_true_iff, bool_decide_eq_false in Ha.
  rewrite split_from_dot_cons, decide_False by done.
  rewrite IH by done. by rewrite append_snoc.
Qed.

Lemma split_from_nonempty (sep : string) (skip : nat) (current s : string) :
  split_from sep skip current s ≠ [].
Proof.
  revert skip current. induction s as [|a s IH]; intros skip current;
    cbn [split_from].
  - done.
  - destruct skip; [|apply IH].
    destruct (String.prefix sep (String a s)); [discriminate|apply IH].
Qed.

Lemma get_set_path (paths : list string) (last_name : string)
  (v default : value) (current : dict string value) :
  get_path (paths ++ [last_name])
    (VDict (set_path paths last_name v current)) default = Done v.
Proof.
  revert current. induction paths as [|path paths IH]; intros current; simpl.
  - by rewrite dict_get_set_eq.
  - rewrite dict_get_set_eq. apply IH.
Qed.

(** X26: With the default separator, [Config.set] never fails, whatever
    the configuration holds along the path, and [Config.get] of the same
    name then returns the value that was set, never the default. *)
Theorem config_set_then_get (self : dict string value) (name : string)
  (v default : value) :
  ∃ self', Config_set self name v "." = Done self'
           ∧ Config_get self' name default "." = Done v.
Proof.
  unfold Config_set, Config_get at 2, split.
  rewrite !decide_False by done.
  pose proof (split_from_dot_dotless "" name eq_refl) as Hdotless.
  pose proof (split_from_nonempty "." 0 "" name) as Hnonempty.
  destruct (exists_last Hnonempty) as (paths & last_name & Hsplit).
  rewrite Hsplit in *. rewrite removelast_last, last_last.
  destruct paths as [|path paths].
  { eexists. split; [done|]. simpl. by rewrite dict_get_set_eq. }
  apply Forall_app in Hdotless as [Hdotless _].
  apply Forall_cons in Hdotless as [Hpath _].
  unfold Config_get, split. rewrite decide_False by done.
  rewrite (split_from_dotless "" path Hpath).
  change ("" +:+ path)%string with path. simpl.
  assert (Hnext : ∀ current d,
            dict_get path current = Some (VDict d) →
            get_path (((path :: paths) ++ [last_name]))
              (VDict (dict_set path
                        (VDict (set_path paths last_name v d)) current))
              default = Done v).
  { intros current d _. simpl. rewrite dict_get_set_eq. apply get_set_path. }
  destruct (dict_get path self) as [found|] eqn:Hfound; simpl.
  - destruct found as [d| | | |]; simpl;
      try (rewrite dict_get_set_eq; eexists; split; [done|];
           eapply Hnext, dict_get_set_eq).
    rewrite Hfound. eexists. split; [done|]. by eapply Hnext.
  - rewrite dict_get_set_eq. eexists. split; [done|].
    eapply Hnext, dict_get_set_eq.
Qed.

Lemma wait_for_config_delays (wakes : list wake) (config : dict string value)
  (k : Z) (waits : list Z) (r : outcome (dict string value)) :
  0 ≤ k →
  wait_for_config wakes config (Z.min (10 * 2 ^ k) 600) = Some (waits, r) →
  (∀ (i : nat) (delay : Z),
     waits !! i = Some delay →
     delay = Z.min (10 * 2 ^ (k + Z.of_nat i)) 600) ∧
  (length waits ≤ length wakes)%nat ∧
  (∀ config', r = Done config' → undefined config' = Done false).
Proof.
  revert config k waits r. induction wakes as [|w wakes IH];
    intros config k waits r Hk; simpl.
  - destruct (undefined config) as [[|]|e] eqn:Hundefined; [done| |];
      intros [= <- <-]; (split_and!; [by intros i delay ?|done|]).
    + by intros config' [= <-].
    + done.
  - destruct (undefined config) as [[|]|e] eqn:Hundefined.
    + destruct w as [|config1].
      * intros [= <- <-]. split_and!; [|simpl; lia|done].
        intros [|i] delay; [|done]. intros [= <-].
        by rewrite Z.add_0_r.
      * assert (Hnext : Z.min (Z.min (10 * 2 ^ k) 600 * 2) 600
                        = Z.min (10 * 2 ^ (k + 1)) 600).
        { rewrite Z.pow_add_r, Z.pow_1_r by lia. lia. }
        rewrite Hnext.
        destruct (wait_for_config wakes config1 _) as [[waits' r']|] eqn:Hrec;
          [|done].
        intros [= <- <-].
        destruct (IH config1 (k + 1) waits' r' ltac:(lia) Hrec)
          as (Hdelays & Hlen & Hmet).
        split_and!; [|simpl; lia|done].
        intros [|i] delay.
        -- intros [= <-]. by rewrite Z.add_0_r.
        -- intros Hi. simpl in Hi. rewrite (Hdelays i delay Hi).
           f_equal. f_equal. f_equal. lia.
    + intros [= <- <-]. split_and!; [by intros i delay ?|simpl; lia|].
      by intros config' [= <-].
    + intros [= <- <-]. split_and!; [by intros i delay ?|simpl; lia|done].
Qed.

(** X27: While the account or the registration key is missing,
    [check_config_requirement] waits 10 seconds, then twice as long each
    time, and never more than 600 seconds: the wait number [i] lasts
    [min (10 * 2 ^ i) 600].  It returns only with a configuration that
    defines both, and then the state has a password: the one it had, or a
    generated one when it had none. *)
Theorem check_config_requirement_backoff (wakes : list wake)
  (config : dict string value) (password : option string)
  (generated : string) (waits : list Z)
  (r : outcome (dict string value * option string)) :
  check_config_requirement wakes config password generated
    = Some (waits, r) →
  (∀ (i : nat) (delay : Z),
     waits !! i = Some delay →
     delay = Z.min (10 * 2 ^ Z.of_nat i) 600 ∧ 10 ≤ delay ≤ 600) ∧
  (length waits ≤ length wakes)%nat ∧
  (∀ config' password',
     r = Done (config', password') →
     undefined config' = Done false
     ∧ password' = Some (default generated password)).
Proof.
  unfold check_config_requirement.
  destruct (wait_for_config wakes config 10) as [[waits' r']|] eqn:Hwait;
    [|done].
  change 10 with (Z.min (10 * 2 ^ 0) 600) in Hwait.
  apply wait_for_config_delays in Hwait as (Hdelays & Hlen & Hmet); [|done].
  intros Hresult.
  assert (waits = waits') as -> by (by destruct r'; injection Hresult).
  split_and!; [|done|].
  - intros i delay Hi. rewrite (Hdelays i delay Hi), Z.add_0_l.
    split; [done|].
    assert (1 ≤ 2 ^ Z.of_nat i) by (apply Z.pow_le_mono_r with (b := 0); lia).
    lia.
  - intros config' password' ->. destruct r' as [config1|e]; [|done].
    injection Hresult as <- <-. split; [by apply Hmet|].
    by destruct password.
Qed.

Lemma check_config_requirement_backoff_witness :
  (∀ (i : nat) (delay : Z),
     [10; 20] !! i = Some delay →
     delay = Z.min (10 * 2 ^ Z.of_nat i) 600 ∧ 10 ≤ delay ≤ 600) ∧
  (length [10; 20] ≤ length [Reloaded []; Reloaded configured])%nat ∧
  (∀ config' password',
     Done (configured, Some "generated"%string) = Done (config', password') →
     undefined config' = Done false
     ∧ password' = Some (default "generated"%string None)).
Proof.
  apply (check_config_requirement_backoff [Reloaded []; Reloaded configured]
           [] None "generated" [10; 20]
           (Done (configured, Some "generated"%string))).
  vm_compute. reflexivity.
Defined.

(** ** Thresholds of the core *)

(** X28: For a point with a value and a threshold whose low warning
    bound is not above its high critical bound, [check_threshold] sets the
    status to [critical] exactly when the value is below the low critical
    bound or above the high critical one, and to [ok] exactly when it
    crosses none of the bounds that are set; the rest of the point is
    kept. *)
Theorem check_threshold_levels (thresholds : gmap string Threshold)
  (metric : CorePoint) (threshold : Threshold) (value : Z) :
  thresholds !! core_measurement metric = Some threshold →
  core_value metric = Some value →
  (∀ lw hc, low_warning threshold = Some lw →
            high_critical threshold = Some hc → lw ≤ hc) →
  (core_status (check_threshold thresholds metric) = Some "critical"%string
   ↔ (∃ bound, low_critical threshold = Some bound ∧ value < bound)
     ∨ (∃ bound, high_critical threshold = Some bound ∧ bound < value)) ∧
  (core_status (check_threshold thresholds metric) = Some "ok"%string
   ↔ (∀ bound, low_critical threshold = Some bound → bound ≤ value)
     ∧ (∀ bound, low_warning threshold = Some bound → bound ≤ value)
     ∧ (∀ bound, high_warning threshold = Some bound → value ≤ bound)
     ∧ (∀ bound, high_critical threshold = Some bound → value ≤ bound)) ∧
  core_status (check_threshold thresholds metric)
    ∈ [Some "critical"%string; Some "warning"%string; Some "ok"%string] ∧
  check_threshold thresholds metric
  = {| core_measurement := core_measurement metric;
       core_tag := core_tag metric;
       core_status := core_status (check_threshold thresholds metric);
       core_service := core_service metric;
       core_time := core_time metric;
       core_value := core_value metric |}.
Proof.
  intros Hthreshold Hvalue Hbounds. unfold check_threshold.
  rewrite Hthreshold, Hvalue. cbv zeta. cbn [core_status].
  destruct threshold as [lw lc hw hc]. cbn [low_warning low_critical
    high_warning high_critical] in *.
  assert (Hlw_hc : ∀ a b, lw = Some a → hc = Some b → a ≤ b)
    by (intros a b -> ->; by apply Hbounds).
  clear Hbounds Hthreshold Hvalue.
  unfold below, above.
  destruct lc as [lc|], lw as [lw|], hc as [hc|], hw as [hw|];
    try (pose proof (Hlw_hc _ _ eq_refl eq_refl) as Hle); clear Hlw_hc;
    repeat match goal with
           | |- context [?a <? ?b] =>
               let Hcmp := fresh "Hcmp" in
               destruct (Z.ltb_spec a b) as [Hcmp|Hcmp]
           end;
    (split_and!;
     [ split;
       [ intros Heq; first
           [ discriminate Heq
           | left; eexists; split; [reflexivity|lia]
           | right; eexists; split; [reflexivity|lia] ]
       | intros [(b & [= <-] & ?)|(b & [= <-] & ?)];
         first [reflexivity|exfalso; lia] ]
     | split;
       [ intros Heq; first
           [ discriminate Heq
           | split_and!; intros b [= <-]; lia ]
       | intros (Hb1 & Hb2 & Hb3 & Hb4);
         try specialize (Hb1 _ eq_refl); try specialize (Hb2 _ eq_refl);
         try specialize (Hb3 _ eq_refl); try specialize (Hb4 _ eq_refl);
         first [reflexivity|exfalso; lia] ]
     | set_solver
     | reflexivity ]).
Qed.

Lemma check_threshold_levels_witness :
  (core_status
     (check_threshold
        {[ "cpu_used"%string :=
             {| low_warning := None; low_critical := None;
                high_warning := Some 80; high_critical := Some 90 |} ]}
        {| core_measurement := "cpu_used"; core_tag := None;
           core_status := None; core_service := None; core_time := 0;
           core_value := Some 95 |})
   = Some "critical"%string
   ↔ (∃ bound, @None Z = Some bound ∧ 95 < bound)
     ∨ (∃ bound, Some 90 = Some bound ∧ bound < 95)) ∧
  (core_status
     (check_threshold
        {[ "cpu_used"%string :=
             {| low_warning := None; low_critical := None;
                high_warning := Some 80; high_critical := Some 90 |} ]}
        {| core_measurement := "cpu_used"; core_tag := None;
           core_status := None; core_service := None; core_time := 0;
           core_value := Some 95 |})
   = Some "ok"%string
   ↔ (∀ bound, @None Z = Some bound → bound ≤ 95)
     ∧ (∀ bound, @None Z = Some bound → bound ≤ 95)
     ∧ (∀ bound, Some 80 = Some bound → 95 ≤ bound)
     ∧ (∀ bound, Some 90 = Some bound → 95 ≤ bound)) ∧
  core_status
    (check_threshold
       {[ "cpu_used"%string :=
            {| low_warning := None; low_critical := None;
               high_warning := Some 80; high_critical := Some 90 |} ]}
       {| core_measurement := "cpu_used"; core_tag := None;
          core_status := None; core_service := None; core_time := 0;
          core_value := Some 95 |})
    ∈ [Some "critical"%string; Some "warning"%string; Some "ok"%string] ∧
  check_threshold
    {[ "cpu_used"%string :=
         {| low_warning := None; low_critical := None;
            high_warning := Some 80; high_critical := Some 90 |} ]}
    {| core_measurement := "cpu_used"; core_tag := None;
       core_status := None; core_service := None; core_time := 0;
       core_value := Some 95 |}
  = {| core_measurement := "cpu_used"; core_tag := None;
       core_status :=
         core_status
           (check_threshold
              {[ "cpu_used"%string :=
                   {| low_warning := None; low_critical := None;
                      high_warning := Some 80; high_critical := Some 90 |} ]}
              {| core_measurement := "cpu_used"; core_tag := None;
                 core_status := None; core_service := None; core_time := 0;
                 core_value := Some 95 |});
       core_service := None; core_time := 0; core_value := Some 95 |}.
Proof.
  apply (check_threshold_levels
           {[ "cpu_used"%string :=
                {| low_warning := None; low_critical := None;
                   high_warning := Some 80; high_critical := Some 90 |} ]}
           {| core_measurement := "cpu_used"; core_tag := None;
              core_status := None; core_service := None; core_time := 0;
              core_value := Some 95 |}
           {| low_warning := None; low_critical := None;
              high_warning := Some 80; high_critical := Some 90 |} 95).
  - vm_compute. reflexivity.
  - reflexivity.
  - simpl. intros lw hc [=].
Defined.

(** ** Services: a second pass *)

Section services_convergence.
Context {World : Type}.
Variable gethostbyname : string → option string.
Variable api : ServiceRequest → World → ServiceResponse * World.
Implicit Types (c : Connector) (n : Log ServiceRequest World).

Lemma register_services_in_sync_silent account_id services c n :
  services_in_sync gethostbyname services c →
  _register_services gethostbyname api account_id services c n = (Next, c, n).
Proof.
  revert n. induction services as [|[key service_info] services IH];
    intros n Hsync; simpl; [done|].
  destruct (Hsync key service_info) as (addresses & uuid & -> & Hstored);
    [apply elem_of_cons; by left|].
  unfold service_request_for. rewrite Hstored. simpl.
  rewrite decide_True by done. apply IH.
  intros key' info' Hin. apply Hsync, elem_of_cons. by right.
Qed.

Lemma register_services_reaches_sync account_id services c n :
  NoDup (dict_keys services) →
  Forall (λ item, ∃ addresses,
            get_listen_addresses gethostbyname item.2 = Ok addresses)
    services →
  (∀ payload w, service_status (api (ServiceCreate payload) w).1 = 201) →
  (∀ service_uuid payload w,
     service_status (api (ServiceUpdate service_uuid payload) w).1 = 200) →
  services_in_sync gethostbyname services
    (_register_services gethostbyname api account_id services c n).1.2.
Proof.
  intros Hnodup Hok Hcreate Hupdate. revert c n Hnodup Hok.
  induction services as [|[key service_info] services IH];
    intros c n Hnodup Hok.
  { intros key service_info Hin. by apply elem_of_nil in Hin. }
  apply Forall_cons in Hok as [[addresses Haddr] Hok]. simpl in Haddr.
  unfold dict_keys in Hnodup. simpl in Hnodup.
  apply NoDup_cons in Hnodup as [Hnotin Hnodup].
  assert (Hhead : ∀ c1 n1 uuid,
    services_uuid c1 !! key
      = Some (service_entry key service_info addresses uuid) →
    services_in_sync gethostbyname ((key, service_info) :: services)
      (_register_services gethostbyname api account_id services c1 n1).1.2).
  { intros c1 n1 uuid Hstored key' info' [[= -> ->]|Hin]%elem_of_cons.
    - exists addresses, uuid. split; [done|].
      destruct (register_services_state gethostbyname api account_id
                  services c1 n1) as [_ Hkeys].
      destruct (Hkeys key) as [->|(info2 & _ & _ & Hin & _)]; [done|].
      exfalso. apply Hnotin. apply list_elem_of_fmap. by exists (key, info2).
    - by apply (IH c1 n1). }
  simpl. rewrite Haddr. unfold service_request_for.
  destruct (services_uuid c !! key) as [stored|] eqn:Hstored.
  - case_decide as Hsame.
    + apply (Hhead c n (entry_uuid stored)). by rewrite Hstored, Hsame at 1.
    + unfold service_request.
      pose proof (Hupdate (entry_uuid stored)
                    (service_payload account_id (agent_uuid c) key
                       service_info addresses (Some (entry_uuid stored)))
                    (log_world n)) as Hstatus.
      destruct (api _ (log_world n)) as [response w]. simpl in Hstatus.
      rewrite Hstatus. simpl. eapply Hhead. simpl. apply lookup_insert_eq.
  - unfold service_request.
    pose proof (Hcreate (service_payload account_id (agent_uuid c) key
                           service_info addresses None)
                  (log_world n)) as Hstatus.
    destruct (api _ (log_world n)) as [response w]. simpl in Hstatus.
    rewrite Hstatus. simpl. eapply Hhead. simpl. apply lookup_insert_eq.
Qed.

(** X29: Against a registry that accepts every creation and update, one
    pass of [_register_services] is enough: a second pass over the same
    discovered services issues no request and changes nothing. *)
Theorem register_services_second_pass_silent account_id
  (services : dict ServiceKey ServiceInfo) c n :
  NoDup (dict_keys services) →
  Forall (λ item, ∃ addresses,
            get_listen_addresses gethostbyname item.2 = Ok addresses)
    services →
  (∀ payload w, service_status (api (ServiceCreate payload) w).1 = 201) →
  (∀ service_uuid payload w,
     service_status (api (ServiceUpdate service_uuid payload) w).1 = 200) →
  _register_services gethostbyname api account_id services
    (_register_services gethostbyname api account_id services c n).1.2
    (_register_services gethostbyname api account_id services c n).2
  = (Next,
     (_register_services gethostbyname api account_id services c n).1.2,
     (_register_services gethostbyname api account_id services c n).2).
Proof.
  intros Hnodup Hok Hcreate Hupdate.
  apply register_services_in_sync_silent.
  by apply register_services_reaches_sync.
Qed.

End services_convergence.

Lemma register_services_second_pass_silent_witness :
  _register_services localhost (services_registry [] 204) "acc" discovered
    (_register_services localhost (services_registry [] 204) "acc" discovered
       two_services {| log_world := tt; log_calls := [] |}).1.2
    (_register_services localhost (services_registry [] 204) "acc" discovered
       two_services {| log_world := tt; log_calls := [] |}).2
  = (Next,
     (_register_services localhost (services_registry [] 204) "acc" discovered
        two_services {| log_world := tt; log_calls := [] |}).1.2,
     (_register_services localhost (services_registry [] 204) "acc" discovered
        two_services {| log_world := tt; log_calls := [] |}).2).
Proof.
  apply (register_services_second_pass_silent localhost
           (services_registry [] 204) "acc" discovered two_services
           {| log_world := tt; log_calls := [] |}).
  - apply (bool_decide_unpack _). vm_compute. exact I.
  - repeat constructor; eexists; vm_compute; reflexivity.
  - intros payload []. reflexivity.
  - intros service_uuid payload []. reflexivity.
Defined.

(** ** Remote deletion *)

(** C3, as the code has it: when the listing of the registry is read to
    its end, a cached identifier is on none of its pages and the refresh
    runs to its end, the cache entry is deleted — no tombstone is kept,
    the identity is simply unknown again, and the drain loop drops the
    queued points of an unknown identity.  The next point of that identity
    that [sent_metric] lets through puts the identity back in the cache as
    unresolved ([None]); from there it is an unregistered metric like any
    other: if it has no status-of parent, container or service, a
    registration pass that runs to its end caches a remote identifier for
    it again. *)
Theorem remote_deletion_forgets_metric {World : Type}
  (http : Request → World → Response * World) (fuel : nat)
  (c : Connector) (n : Net World) (k : MetricKey) (value : string)
  (metrics : list RemoteMetric) (n1 : Net World)
  (c' : Connector) (n' : Net World) :
  NoDup (dict_keys (metrics_uuid c)) →
  dict_get k (metrics_uuid c) = Some (Some value) →
  list_metrics http fuel c n = Some (metrics, Next, n1) →
  value ∉ r_id <$> metrics →
  _retrive_threshold http fuel c n = Some (Next, c', n') →
  dict_mem k (metrics_uuid c') = false ∧
  (∀ metric rest l,
     key_of metric = k →
     loop_step (set_metric_queue (metric :: rest) c') l
       = Continue (set_metric_queue rest c') l) ∧
  ∀ metric,
    key_of metric = k →
    sent_metric c' (measurement metric) (has_status metric) = Ok true →
    ∃ c'',
      emit_metric metric c' = Ok c'' ∧
      dict_get k (metrics_uuid c'') = Some None ∧
      ∀ n2 info,
        metrics_info c'' !! k = Some info →
        info_status_of info = None →
        info_container info = None →
        k.1.2 = None →
        (_register_metric http c'' n2).1.1 = Next →
        ∃ metric_uuid,
          dict_get k (metrics_uuid (_register_metric http c'' n2).1.2)
            = Some (Some metric_uuid).
Proof.
  intros Hnodup Hget Hlist Hnotin Hrefresh.
  unfold _retrive_threshold in Hrefresh. rewrite Hlist in Hrefresh.
  injection Hrefresh as Hrefresh.
  pose proof (refresh_from_cache http metrics c n1 k value) as Hnone.
  pose proof (refresh_from_NoDup http metrics c n1 Hnodup) as Hnodup'.
  rewrite Hrefresh in Hnone, Hnodup'. simpl in Hnone, Hnodup'.
  specialize (Hnone eq_refl Hget Hnotin).
  split; [by apply dict_mem_false|]. split.
  { intros metric rest l <-. unfold loop_step. cbn [_metric_queue
      set_metric_queue]. cbv zeta. cbn [metrics_uuid set_metric_queue].
    unfold key_of in Hnone. by rewrite Hnone. }
  intros metric <- Hsent. eexists. rewrite emit_metric_unfold, Hsent.
  split; [done|].
  assert (dict_get (key_of metric) (metrics_uuid (record_metric metric c'))
          = Some None) as Hback.
  { rewrite record_metric_uuid.
    rewrite (proj2 (dict_mem_false _ _) Hnone).
    by rewrite dict_get_setdefault, Hnone. }
  split; [done|].
  intros n2 info Hinfo Hstatus Hcontainer Hservice Hflow.
  apply (register_metric_resolves_independent http (record_metric metric c')
           n2 (key_of metric) info); try done.
  rewrite record_metric_uuid.
  destruct (dict_mem _ _); [done|]. by apply dict_keys_setdefault.
Qed.

Lemma remote_deletion_forgets_metric_witness :
  ∃ c' n',
    _retrive_threshold (registry_refusing "") 1 one_registered offline
      = Some (Next, c', n') ∧
    dict_mem ("cpu_used"%string, None, None) (metrics_uuid c') = false ∧
    ∃ c'',
      emit_metric (plain_point 5 "cpu_used") c' = Ok c'' ∧
      dict_get ("cpu_used"%string, None, None) (metrics_uuid c'')
        = Some None ∧
      ∃ metric_uuid,
        dict_get ("cpu_used"%string, None, None)
          (metrics_uuid (_register_metric (registry_refusing "") c'' n').1.2)
          = Some (Some metric_uuid).
Proof.
  eexists _, _. split; [vm_compute; reflexivity|].
  edestruct (remote_deletion_forgets_metric (registry_refusing "") 1
               one_registered offline ("cpu_used"%string, None, None) "u1" [])
    as (Hgone & _ & Hback).
  - apply (bool_decide_unpack _). vm_compute. exact I.
  - reflexivity.
  - vm_compute. reflexivity.
  - apply not_elem_of_nil.
  - vm_compute. reflexivity.
  - split; [exact Hgone|].
    destruct (Hback (plain_point 5 "cpu_used")) as (c'' & Hemit & Hnone & Hpass);
      [reflexivity|vm_compute; reflexivity|].
    exists c''. split_and!; [exact Hemit|exact Hnone|].
    vm_compute in Hemit. injection Hemit as <-.
    eapply Hpass; vm_compute; reflexivity.
Defined.

(** C3, as stated, fails: after a refresh that does not list ["u1"], the
    identity of ["cpu_used"] is not in the cache at all; the next point of
    the metric puts it back as unresolved, and the next registration pass
    posts the metric again and caches the new identifier. *)
Lemma deleted_metric_is_registered_again :
  dict_get ("cpu_used"%string, None, None) (metrics_uuid one_registered)
    = Some (Some "u1"%string) ∧
  (∃ c n, after_refresh = Some (Next, c, n) ∧
          metrics_uuid c = [] ∧
          calls n = [get_metrics]) ∧
  (∃ c n, re_emitted = Some (Ok c, n) ∧
          metrics_uuid c = [(("cpu_used"%string, None, None), None)]) ∧
  (∃ c n, re_registered = Some (Next, c, n) ∧
          calls n = [get_metrics; post_metric "cpu_used"] ∧
          metrics_uuid c
            = [(("cpu_used"%string, None, None), Some "id-cpu_used"%string)]).
Proof.
  split_and!; [reflexivity|..];
    (eexists _, _; split_and!; vm_compute; reflexivity).
Qed.
